(** * API3 node: contract-call codec and network dispatch

    A shallow embedding of the codec of [nodes/Api3/transport/index.ts],
    the helpers of [nodes/Api3/utils/helpers.ts], the registry of
    [nodes/Api3/constants.ts] and the read handlers of the [actions]
    directory, with the properties of the specification stated over them,
    followed by properties of more of the code: the rest of the helpers,
    the dAPI, data feed, staking, treasury and token handlers.

    Conventions of the embedding.
    - A JavaScript string is a [string] whose characters are the UTF-16
      code units of the JavaScript string; only code units below 256 are
      representable, which covers every string the codec produces.  The
      string functions are given on these strings, and a property that
      depends on the restriction says so.
    - A [bigint] is a [Z].  A [number] that is used as a count or an
      offset is a [nat] or a [Z]; a [number] that the source computes in
      doubles and that can leave the integers is a [Number], an integer,
      an infinity or NaN.  The texts that the staking handlers print in
      floating point are not modelled and the places are marked.
    - A plain object used as a map is a [gmap] of its own properties; a
      lookup by a computed key also finds the properties that every
      object inherits, which are listed in [Js.Object_prototype].
    - A function that can throw returns a [result]; an [async] function
      that talks to the host's [httpRequest] is a [Prog], a tree of
      requests, and runs against a transport. *)

From Stdlib Require Import ZArith Lia Ascii String List Bool.
From stdpp Require Import base option gmap strings list.

Open Scope string_scope.
Open Scope Z_scope.

(** Appending to a string that starts with known characters reduces. *)
Arguments String.append !s1 s2 : simpl nomatch.

(** ** Exceptions *)

Inductive JsError : Type :=
| SyntaxError                       (* BigInt of a malformed literal *)
| TypeError                         (* method call on a non-string, BigInt(undefined) *)
| RangeError                        (* BigInt of a number that is not an integer *)
| Error (message : string)          (* new Error(message) *)
| NodeApiError (message description : string)
| NodeOperationError (message : string).

Inductive result (A : Type) : Type :=
| Ok (a : A)
| Throw (e : JsError).
Arguments Ok {A} a.
Arguments Throw {A} e.

#[global] Instance result_ret : MRet result := fun A a => Ok a.
#[global] Instance result_bind : MBind result := fun A B f r =>
  match r with
  | Ok a => f a
  | Throw e => Throw e
  end.

Definition is_Ok {A} (r : result A) : bool :=
  match r with Ok _ => true | Throw _ => false end.

(** ** JavaScript strings *)

Module Js.

Definition zero : ascii := "0"%char.

Fixpoint repeat (c : ascii) (n : nat) : string :=
  match n with
  | O => ""
  | S n' => String c (repeat c n')
  end.

(** [s.padStart(n, c)] and [s.padEnd(n, c)] for a one-character filler:
    a string that is already [n] long or longer is returned unchanged. *)
Definition padStart (s : string) (n : nat) (c : ascii) : string :=
  repeat c (n - String.length s) +:+ s.

Definition padEnd (s : string) (n : nat) (c : ascii) : string :=
  s +:+ repeat c (n - String.length s).

(** [s.startsWith(p)] *)
Definition startsWith (s p : string) : bool := String.prefix p s.

Fixpoint drop (n : nat) (s : string) : string :=
  match n, s with
  | O, _ => s
  | S n', String _ s' => drop n' s'
  | S _, EmptyString => ""
  end.

Fixpoint take (n : nat) (s : string) : string :=
  match n, s with
  | S n', String c s' => String c (take n' s')
  | _, _ => ""
  end.

(** [s.slice(from, to)] on integral arguments: a negative index counts
    from the end, every index is clamped to the string, and an empty
    range gives the empty string. *)
Definition clamp_index (len i : Z) : Z :=
  if i <? 0 then Z.max (len + i) 0 else Z.min i len.

Definition slice (s : string) (from to : Z) : string :=
  let len := Z.of_nat (String.length s) in
  let a := clamp_index len from in
  let b := clamp_index len to in
  take (Z.to_nat (b - a)) (drop (Z.to_nat a) s).

(** [s.slice(from)] *)
Definition slice_from (s : string) (from : Z) : string :=
  slice s from (Z.of_nat (String.length s)).

(** [s.toLowerCase()] on code units below 256: the ASCII capitals and
    the Latin-1 capitals U+00C0..U+00DE, the sign U+00D7 apart.  On these
    strings lower-casing keeps the length; on others it need not (U+0130
    becomes two code units), and no property is stated through the
    length of a text before it is lower-cased. *)
Definition lower_char (c : ascii) : ascii :=
  let n := nat_of_ascii c in
  if ((65 <=? n)%nat && (n <=? 90)%nat)
     || ((192 <=? n)%nat && (n <=? 222)%nat && negb (n =? 215)%nat)
  then ascii_of_nat (n + 32) else c.

Fixpoint toLowerCase (s : string) : string :=
  match s with
  | "" => ""
  | String c s' => String (lower_char c) (toLowerCase s')
  end.

(** White space and line terminators below 256, as [trim] and the
    numeric literal grammar see them: TAB, LF, VT, FF, CR, SP, NBSP. *)
Definition is_space (c : ascii) : bool :=
  let n := nat_of_ascii c in
  ((9 <=? n)%nat && (n <=? 13)%nat) || (n =? 32)%nat || (n =? 160)%nat.

Fixpoint trimStart (s : string) : string :=
  match s with
  | "" => ""
  | String c s' => if is_space c then trimStart s' else s
  end.

Fixpoint trimEnd (s : string) : string :=
  match s with
  | "" => ""
  | String c s' =>
      let r := trimEnd s' in
      if String.eqb r "" && is_space c then "" else String c r
  end.

Definition trim (s : string) : string := trimEnd (trimStart s).

(** [s.split(sep)] for a one-character separator: never an empty array. *)
Fixpoint split (sep : ascii) (s : string) : list string :=
  match s with
  | "" => [""]
  | String c s' =>
      if Ascii.eqb c sep then "" :: split sep s'
      else match split sep s' with
           | [] => [String c ""]
           | p :: ps => String c p :: ps
           end
  end.

(** [l.join(sep)] *)
Fixpoint join (sep : string) (l : list string) : string :=
  match l with
  | [] => ""
  | [x] => x
  | x :: l' => x +:+ sep +:+ join sep l'
  end.

(** [s.replace(/0+$/, '')]: the leftmost match of the pattern is the
    whole run of zeros that ends the string. *)
Fixpoint stripTrailingZeros (s : string) : string :=
  match s with
  | "" => ""
  | String c s' =>
      let r := stripTrailingZeros s' in
      if String.eqb r "" && Ascii.eqb c zero then "" else String c r
  end.

(** [x || d] on a string that may be missing: the empty string and
    [undefined] are both falsy. *)
Definition orDefault (x : option string) (d : string) : string :=
  match x with
  | Some (String c s) => String c s
  | _ => d
  end.

(** [Buffer.from(s).toString('hex')]: the UTF-8 bytes of [s], two
    lower-case hex digits each.  A code unit below 128 is one byte, one
    between 128 and 255 is two.  Code units from 256 on, among them the
    surrogates, of which [Buffer.from] writes every unpaired one as the
    same three bytes, are outside the embedding. *)
Definition hex_digit (d : nat) : ascii :=
  if (d <? 10)%nat then ascii_of_nat (48 + d) else ascii_of_nat (87 + d).

Definition hex_byte (b : nat) : string :=
  String (hex_digit (b / 16)) (String (hex_digit (b mod 16)) "").

Definition utf8_hex_char (c : ascii) : string :=
  let n := nat_of_ascii c in
  if (n <? 128)%nat then hex_byte n
  else hex_byte (192 + n / 64) +:+ hex_byte (128 + n mod 64).

Fixpoint utf8_hex (s : string) : string :=
  match s with
  | "" => ""
  | String c s' => utf8_hex_char c +:+ utf8_hex s'
  end.

(** A plain object used as a map is read with [object[key]], which finds
    the own properties of the object and, under the names below, the
    properties that every plain object inherits from [Object.prototype]:
    the constructor [Object], eleven methods and, under [__proto__], the
    prototype itself.  All of them are truthy.  Where the source goes on
    to read a field of such a value, the field is [undefined], the [name]
    of a function apart, which is given with the property; the prototype
    has no [name]. *)
Definition Object_prototype : gmap string (option string) :=
  list_to_map
    [ ("constructor", Some "Object");
      ("__defineGetter__", Some "__defineGetter__");
      ("__defineSetter__", Some "__defineSetter__");
      ("hasOwnProperty", Some "hasOwnProperty");
      ("__lookupGetter__", Some "__lookupGetter__");
      ("__lookupSetter__", Some "__lookupSetter__");
      ("isPrototypeOf", Some "isPrototypeOf");
      ("propertyIsEnumerable", Some "propertyIsEnumerable");
      ("toString", Some "toString");
      ("valueOf", Some "valueOf");
      ("__proto__", None);
      ("toLocaleString", Some "toLocaleString") ].

(** [`${x}`] in a template literal, for a string that may be
    [undefined]. *)
Definition template (x : option string) : string := default "undefined" x.

End Js.

(** ** Numbers *)

(** A double that is an integer, an infinity or NaN.  The two zeros are
    not told apart. *)
Inductive Number : Type :=
| Finite (n : Z)
| Infinity (negative : bool)
| NaN.

(** ** Big integers *)

Module BigInt.

(** The character of a digit below 16, lower case as [toString] prints. *)
Definition digit_char (d : Z) : ascii := Js.hex_digit (Z.to_nat d).

(** The value of a digit character; the literal grammar takes both cases. *)
Definition digit_value (c : ascii) : option Z :=
  let n := Z.of_nat (nat_of_ascii c) in
  if (48 <=? n) && (n <=? 57) then Some (n - 48)
  else if (97 <=? n) && (n <=? 102) then Some (n - 87)
  else if (65 <=? n) && (n <=? 70) then Some (n - 55)
  else None.

(** Digits of a non-negative integer, most significant first, in front of
    [acc].  [fuel] bounds the number of digits. *)
Fixpoint to_radix_aux (radix : Z) (fuel : nat) (n : Z) (acc : string) : string :=
  match fuel with
  | O => acc
  | S fuel' =>
      let acc' := String (digit_char (n mod radix)) acc in
      if n / radix =? 0 then acc' else to_radix_aux radix fuel' (n / radix) acc'
  end.

Definition to_radix (radix n : Z) : string :=
  to_radix_aux radix (S (Z.to_nat (Z.log2 n))) n "".

(** [z.toString(radix)] *)
Definition toString_radix (radix z : Z) : string :=
  if z <? 0 then String "-" (to_radix radix (- z)) else to_radix radix z.

(** [z.toString()], also what a template literal prints. *)
Definition toString (z : Z) : string := toString_radix 10 z.

Fixpoint parse_digits (radix acc : Z) (s : string) : option Z :=
  match s with
  | "" => Some acc
  | String c s' =>
      match digit_value c with
      | Some d => if d <? radix then parse_digits radix (acc * radix + d) s' else None
      | None => None
      end
  end.

(** One or more digits of the radix, with the sign applied. *)
Definition literal (radix sign : Z) (digits : string) : result Z :=
  match digits with
  | "" => Throw SyntaxError
  | _ => match parse_digits radix 0 digits with
         | Some v => Ok (sign * v)
         | None => Throw SyntaxError
         end
  end.

(** [BigInt(s)] on a string: white space is trimmed, the empty string is
    zero, a literal is a signed decimal or an unsigned [0x], [0o] or [0b]
    literal, and anything else is a SyntaxError. *)
Definition of_string (s : string) : result Z :=
  let t := Js.trim s in
  if String.eqb t "" then Ok 0
  else if Js.startsWith t "0x" || Js.startsWith t "0X" then literal 16 1 (Js.drop 2 t)
  else if Js.startsWith t "0o" || Js.startsWith t "0O" then literal 8 1 (Js.drop 2 t)
  else if Js.startsWith t "0b" || Js.startsWith t "0B" then literal 2 1 (Js.drop 2 t)
  else if Js.startsWith t "-" then literal 10 (-1) (Js.drop 1 t)
  else if Js.startsWith t "+" then literal 10 1 (Js.drop 1 t)
  else literal 10 1 t.

(** [Number(z)]: the double nearest to [z], ties to even.  Below 2^53 in
    magnitude it is [z] itself; the result is an integer in every case
    and is kept as one.  (No overflow: the codec converts words of at
    most 256 bits.) *)
Definition toNumber (z : Z) : Z :=
  let a := Z.abs z in
  let e := Z.log2 a - 52 in
  if e <=? 0 then z
  else
    let q := a / 2 ^ e in
    let r := a mod 2 ^ e in
    let half := 2 ^ (e - 1) in
    let q' := if (half <? r) || ((r =? half) && Z.odd q) then q + 1 else q in
    Z.sgn z * (q' * 2 ^ e).

End BigInt.

(** ** Values passed where the source says [unknown] or a union type *)

Inductive JsValue : Type :=
| VUndefined
| VString (s : string)
| VNumber (n : Z)        (* a number whose value is the integer [n] *)
| VBigInt (z : Z).

(** [BigInt(value)] *)
Definition BigInt_of (value : JsValue) : result Z :=
  match value with
  | VUndefined => Throw TypeError
  | VString s => BigInt.of_string s
  | VNumber n => Ok n
  | VBigInt z => Ok z
  end.

(** [value.startsWith(...)] and the other string methods exist on strings
    only: on any other value the call is a TypeError. *)
Definition as_string (value : JsValue) : result string :=
  match value with
  | VString s => Ok s
  | _ => Throw TypeError
  end.

(** ** transport/index.ts: selector, encoder, decoder *)

(** Pre-computed selectors for common functions. *)
Definition precomputed : gmap string string :=
  list_to_map
    [ ("readDataFeedWithDapiName(bytes32)", "0x82a0cf08");
      ("readDataFeedWithId(bytes32)", "0x47bd3e9e");
      ("dapiNameToDataFeedId(bytes32)", "0x6cc5f9b0");
      ("balanceOf(address)", "0x70a08231");
      ("totalSupply()", "0x18160ddd");
      ("transfer(address,uint256)", "0xa9059cbb");
      ("userStake(address)", "0x66666aa9");
      ("totalStake()", "0x8b0e9f3f");
      ("stake(uint256)", "0xa694fc3a");
      ("unstake()", "0x2def6620");
      ("apr()", "0x37965dbe");
      ("getUserReward(address)", "0x44fa9a7a");
      ("claimReward()", "0xb88a802f") ].

(** [precomputed[input] || '0x00000000'].  The input is a signature,
    which is none of the names that the table inherits. *)
Definition simpleKeccak256 (input : string) : string :=
  Js.orDefault (precomputed !! input) "0x00000000".

Definition signature (functionName : string) (types : list string) : string :=
  functionName +:+ "(" +:+ Js.join "," types +:+ ")".

Definition getFunctionSelector (functionName : string) (types : list string) : string :=
  let hash := simpleKeccak256 (signature functionName types) in
  Js.slice hash 0 10.

Definition encodeBytes32 (value : JsValue) : result string :=
  value ← as_string value;
  if Js.startsWith value "0x" then Ok (Js.padEnd (Js.slice_from value 2) 64 Js.zero)
  else
    let hex := Js.utf8_hex value in
    Ok (Js.padEnd hex 64 Js.zero).

Definition encodeAddress (value : JsValue) : result string :=
  value ← as_string value;
  let addr := if Js.startsWith value "0x" then Js.slice_from value 2 else value in
  Ok (Js.padStart (Js.toLowerCase addr) 64 Js.zero).

Definition encodeUint256 (value : JsValue) : result string :=
  bn ← BigInt_of value;
  Ok (Js.padStart (BigInt.toString_radix 16 bn) 64 Js.zero).

(** The loop of [encodeParameters] from index [i] on: [types] and
    [values] are what is left of the two arrays, [values[i]] is
    [undefined] past the end, and a tag other than the three known ones
    adds nothing. *)
Fixpoint encodeParameters_loop (types : list string) (values : list JsValue)
    (encoded : string) : result string :=
  match types with
  | [] => Ok encoded
  | type :: types' =>
      let value := hd VUndefined values in
      word ← (if String.eqb type "bytes32" then encodeBytes32 value
              else if String.eqb type "address" then encodeAddress value
              else if String.eqb type "uint256" then encodeUint256 value
              else Ok "");
      encodeParameters_loop types' (tl values) (encoded +:+ word)
  end.

Definition encodeParameters (types : list string) (values : list JsValue) : result string :=
  encodeParameters_loop types values "".

Definition encodeFunctionCall (functionName : string) (types : list string)
    (values : list JsValue) : result string :=
  let selector := getFunctionSelector functionName types in
  encodedParams ← encodeParameters types values;
  Ok (selector +:+ encodedParams).

(** [hex.startsWith('0x') ? hex.slice(2) : hex] *)
Definition clean (hex : string) : string :=
  if Js.startsWith hex "0x" then Js.slice_from hex 2 else hex.

Definition decodeInt224 (hex : string) : result Z :=
  let valueHex := Js.slice (clean hex) 0 64 in
  BigInt.of_string ("0x" +:+ valueHex).

(** [offset] is the optional argument: [None] is a call that leaves it
    out, and the default of [decodeUint32] is 64, of [decodeUint256] 0. *)
Definition decodeUint32 (hex : string) (offset : option Z) : result Z :=
  let offset := default 64 offset in
  let valueHex := Js.slice (clean hex) offset (offset + 64) in
  v ← BigInt.of_string ("0x" +:+ valueHex);
  Ok (BigInt.toNumber v).

Definition decodeUint256 (hex : string) (offset : option Z) : result Z :=
  let offset := default 0 offset in
  let valueHex := Js.slice (clean hex) offset (offset + 64) in
  BigInt.of_string ("0x" +:+ valueHex).

(** [BigInt(10 ** decimals)].  The double [10 ** decimals] is the exact
    power of ten up to [decimals = 22]; the node calls with 18, and with
    6 and 8 in its tests.  Larger counts, where the double is a rounding
    of the power, and counts that are not natural numbers are outside
    the embedding. *)
Definition pow10 (decimals : nat) : Z := 10 ^ Z.of_nat decimals.

(** BigInt [/] truncates towards zero and [%] takes the sign of the
    dividend: [Z.quot] and [Z.rem]. *)
Definition formatValue (value : Z) (decimals : nat) : string :=
  let divisor := pow10 decimals in
  let integerPart := Z.quot value divisor in
  let fractionalPart := Z.rem value divisor in
  let fractionalStr := Js.padStart (BigInt.toString fractionalPart) decimals Js.zero in
  BigInt.toString integerPart +:+ "." +:+ fractionalStr.

Definition dapiNameToBytes32 (name : string) : string :=
  let hex := Js.utf8_hex name in
  "0x" +:+ Js.padEnd hex 64 Js.zero.

(** ** utils/helpers.ts *)

Definition is_hex_char (c : ascii) : bool :=
  let n := nat_of_ascii c in
  ((48 <=? n)%nat && (n <=? 57)%nat) || ((97 <=? n)%nat && (n <=? 102)%nat)
  || ((65 <=? n)%nat && (n <=? 70)%nat).

Fixpoint all_chars (p : ascii -> bool) (s : string) : bool :=
  match s with
  | "" => true
  | String c s' => p c && all_chars p s'
  end.

(** [/^0x[a-fA-F0-9]{40}$/.test(address)] *)
Definition isValidAddress (address : string) : bool :=
  Js.startsWith address "0x"
  && (String.length address =? 42)%nat
  && all_chars is_hex_char (Js.drop 2 address).

(** [/^0x[a-fA-F0-9]{64}$/.test(value)] *)
Definition isValidBytes32 (value : string) : bool :=
  Js.startsWith value "0x"
  && (String.length value =? 66)%nat
  && all_chars is_hex_char (Js.drop 2 value).

Definition weiToEther (wei : JsValue) : result string :=
  value ← BigInt_of wei;
  let divisor := pow10 18 in
  let integerPart := Z.quot value divisor in
  let fractionalPart := Z.rem value divisor in
  let fractionalStr := Js.padStart (BigInt.toString fractionalPart) 18 Js.zero in
  let trimmed := Js.orDefault (Some (Js.stripTrailingZeros fractionalStr)) "0" in
  if String.eqb fractionalStr "000000000000000000"
  then Ok (BigInt.toString integerPart)
  else Ok (BigInt.toString integerPart +:+ "." +:+ trimmed).

Definition etherToWei (ether : string) : result Z :=
  let parts := Js.split "." ether in
  let integerPart := Js.orDefault (parts !! 0%nat) "0" in
  let fractionalPart := Js.orDefault (parts !! 1%nat) "0" in
  let fractionalPart := Js.slice (Js.padEnd fractionalPart 18 Js.zero) 0 18 in
  BigInt.of_string (integerPart +:+ fractionalPart).

Definition formatWithDecimals (value : JsValue) (decimals : nat) : result string :=
  bn ← BigInt_of value;
  let divisor := pow10 decimals in
  let integerPart := Z.quot bn divisor in
  let fractionalPart := Z.rem bn divisor in
  if fractionalPart =? 0 then Ok (BigInt.toString integerPart)
  else
    let fractionalStr := Js.padStart (BigInt.toString fractionalPart) decimals Js.zero in
    let trimmed := Js.stripTrailingZeros fractionalStr in
    Ok (BigInt.toString integerPart +:+ "." +:+ trimmed).

Definition parseWithDecimals (value : string) (decimals : nat) : result Z :=
  let parts := Js.split "." value in
  let integerPart := Js.orDefault (parts !! 0%nat) "0" in
  let fractionalPart := Js.orDefault (parts !! 1%nat) "0" in
  let fractionalPart :=
    Js.slice (Js.padEnd fractionalPart decimals Js.zero) 0 (Z.of_nat decimals) in
  BigInt.of_string (integerPart +:+ fractionalPart).

Definition supportsDAO (network : string) : bool := String.eqb network "ethereum".

Definition supportsStaking (network : string) : bool := String.eqb network "ethereum".

(** ** constants.ts: the network registry *)

Module NetworkConfig.
Record t : Type := mk {
  chainId : Z;
  name : string;
  rpcUrl : option string;
  explorerUrl : string;
  dapiServerAddress : string;
  api3TokenAddress : option string;
  stakingPoolAddress : option string;
  governanceAddress : option string
}.
End NetworkConfig.

(** An entry that gives only the four mandatory fields. *)
Definition entry (chainId : Z) (name explorerUrl dapiServerAddress : string) : NetworkConfig.t :=
  NetworkConfig.mk chainId name None explorerUrl dapiServerAddress None None None.

(** The own properties of the registry, a plain object used as a map.
    [NETWORK_CONFIGS[network]] also finds the properties that the object
    inherits: see [ConfigValue] below. *)
Definition NETWORK_CONFIGS : gmap string NetworkConfig.t :=
  list_to_map
    [ ("ethereum",
       NetworkConfig.mk 1 "Ethereum Mainnet" None "https://etherscan.io"
         "0x3dEC619dc529363767dEe9E71d8dD1A5bc270D76"
         (Some "0x0b38210ea11411557c13457D4dA7dC6ea731B88a")
         (Some "0x6dd655f10d4b9E242aE186D9050B68F725c76d76")
         (Some "0x1d7573de8b3cF1c5B0e16be54a0E20a78B8e5e6e4"));
      ("polygon", entry 137 "Polygon" "https://polygonscan.com"
         "0x3dEC619dc529363767dEe9E71d8dD1A5bc270D76");
      ("arbitrum", entry 42161 "Arbitrum One" "https://arbiscan.io"
         "0x3dEC619dc529363767dEe9E71d8dD1A5bc270D76");
      ("arbitrum-nova", entry 42170 "Arbitrum Nova" "https://nova.arbiscan.io"
         "0x3dEC619dc529363767dEe9E71d8dD1A5bc270D76");
      ("optimism", entry 10 "Optimism" "https://optimistic.etherscan.io"
         "0x3dEC619dc529363767dEe9E71d8dD1A5bc270D76");
      ("avalanche", entry 43114 "Avalanche C-Chain" "https://snowtrace.io"
         "0x3dEC619dc529363767dEe9E71d8dD1A5bc270D76");
      ("bsc", entry 56 "BNB Smart Chain" "https://bscscan.com"
         "0x3dEC619dc529363767dEe9E71d8dD1A5bc270D76");
      ("base", entry 8453 "Base" "https://basescan.org"
         "0x3dEC619dc529363767dEe9E71d8dD1A5bc270D76");
      ("gnosis", entry 100 "Gnosis" "https://gnosisscan.io"
         "0x3dEC619dc529363767dEe9E71d8dD1A5bc270D76");
      ("fantom", entry 250 "Fantom" "https://ftmscan.com"
         "0x3dEC619dc529363767dEe9E71d8dD1A5bc270D76");
      ("zksync", entry 324 "zkSync Era" "https://explorer.zksync.io"
         "0x3dEC619dc529363767dEe9E71d8dD1A5bc270D76");
      ("scroll", entry 534352 "Scroll" "https://scrollscan.com"
         "0x3dEC619dc529363767dEe9E71d8dD1A5bc270D76");
      ("linea", entry 59144 "Linea" "https://lineascan.build"
         "0x3dEC619dc529363767dEe9E71d8dD1A5bc270D76");
      ("mantle", entry 5000 "Mantle" "https://explorer.mantle.xyz"
         "0x3dEC619dc529363767dEe9E71d8dD1A5bc270D76");
      ("moonbeam", entry 1284 "Moonbeam" "https://moonscan.io"
         "0x3dEC619dc529363767dEe9E71d8dD1A5bc270D76");
      ("moonriver", entry 1285 "Moonriver" "https://moonriver.moonscan.io"
         "0x3dEC619dc529363767dEe9E71d8dD1A5bc270D76");
      ("celo", entry 42220 "Celo" "https://celoscan.io"
         "0x3dEC619dc529363767dEe9E71d8dD1A5bc270D76");
      ("goerli", entry 5 "Goerli Testnet" "https://goerli.etherscan.io"
         "0x3dEC619dc529363767dEe9E71d8dD1A5bc270D76");
      ("sepolia", entry 11155111 "Sepolia Testnet" "https://sepolia.etherscan.io"
         "0x3dEC619dc529363767dEe9E71d8dD1A5bc270D76");
      ("mumbai", entry 80001 "Mumbai Testnet" "https://mumbai.polygonscan.com"
         "0x3dEC619dc529363767dEe9E71d8dD1A5bc270D76") ].

Definition DEFAULT_DECIMALS : nat := 18.

(** What [NETWORK_CONFIGS[network]] is when it is not [undefined]: an
    entry of the registry or, for a name of [Object.prototype], the
    inherited value with the [name] it has, if any. *)
Inductive ConfigValue : Type :=
| Entry (config : NetworkConfig.t)
| Inherited (name : option string).

Definition lookupConfig (network : string) : option ConfigValue :=
  match NETWORK_CONFIGS !! network with
  | Some config => Some (Entry config)
  | None => Inherited <$> Js.Object_prototype !! network
  end.

(** The fields that the source reads of a looked-up value; [None] is
    [undefined]. *)
Module Config.

Definition name (config : ConfigValue) : option string :=
  match config with
  | Entry config => Some (NetworkConfig.name config)
  | Inherited name => name
  end.

Definition explorerUrl (config : ConfigValue) : option string :=
  match config with
  | Entry config => Some (NetworkConfig.explorerUrl config)
  | Inherited _ => None
  end.

Definition dapiServerAddress (config : ConfigValue) : option string :=
  match config with
  | Entry config => Some (NetworkConfig.dapiServerAddress config)
  | Inherited _ => None
  end.

Definition api3TokenAddress (config : ConfigValue) : option string :=
  match config with
  | Entry config => NetworkConfig.api3TokenAddress config
  | Inherited _ => None
  end.

Definition stakingPoolAddress (config : ConfigValue) : option string :=
  match config with
  | Entry config => NetworkConfig.stakingPoolAddress config
  | Inherited _ => None
  end.

Definition governanceAddress (config : ConfigValue) : option string :=
  match config with
  | Entry config => NetworkConfig.governanceAddress config
  | Inherited _ => None
  end.

End Config.

Definition getNetworkConfig (network : string) : result ConfigValue :=
  match lookupConfig network with
  | None => Throw (Error ("Unsupported network: " +:+ network))
  | Some config => Ok config
  end.

Definition getExplorerTxUrl (network txHash : string) : string :=
  match lookupConfig network with
  | None => ""
  | Some config => Js.template (Config.explorerUrl config) +:+ "/tx/" +:+ txHash
  end.

Definition getExplorerAddressUrl (network address : string) : string :=
  match lookupConfig network with
  | None => ""
  | Some config => Js.template (Config.explorerUrl config) +:+ "/address/" +:+ address
  end.

(** ** The host's [httpRequest] and the programs that call it *)

Inductive RpcParams : Type :=
| NoParams                              (* [] *)
| EthCall (to : option string) (data : string).
    (* [{ to, data }, 'latest']; [to] is [None] where the caller passes
       [undefined], and the property is then left out of the body *)

(** The JSON-RPC request posted to [url]; its [id], the clock at the time
    of the call, is left out. *)
Record Request : Type := { url : string; method : string; params : RpcParams }.

(** What [httpRequest] comes back with: a response that carries a string
    [result], a response that carries an [error], or a rejection with an
    error that is not a NodeApiError and has the given message. *)
Inductive HttpOutcome : Type :=
| RpcResult (result : string)
| RpcError (code : Z) (message : string)
| Rejected (message : string).

Inductive Prog (A : Type) : Type :=
| Ret (a : A)
| Raise (e : JsError)
| HttpRequest (request : Request) (k : HttpOutcome -> Prog A).
Arguments Ret {A} a.
Arguments Raise {A} e.
Arguments HttpRequest {A} request k.

Fixpoint Prog_bind {A B} (f : A -> Prog B) (p : Prog A) : Prog B :=
  match p with
  | Ret a => f a
  | Raise e => Raise e
  | HttpRequest request k => HttpRequest request (fun o => Prog_bind f (k o))
  end.

#[global] Instance Prog_mret : MRet Prog := fun A a => Ret a.
#[global] Instance Prog_mbind : MBind Prog := fun A B f p => Prog_bind f p.

(** [try { p } catch (error) { handler }] *)
Fixpoint try_catch {A} (p : Prog A) (handler : JsError -> Prog A) : Prog A :=
  match p with
  | Ret a => Ret a
  | Raise e => handler e
  | HttpRequest request k => HttpRequest request (fun o => try_catch (k o) handler)
  end.

(** A synchronous call inside an [async] function. *)
Definition lift {A} (r : result A) : Prog A :=
  match r with
  | Ok a => Ret a
  | Throw e => Raise e
  end.

(** A transport answers every request; [run] gives the outcome of a
    program against it and the requests issued, in order. *)
Definition Transport : Type := Request -> HttpOutcome.

Fixpoint run {A} (transport : Transport) (p : Prog A) : result A * list Request :=
  match p with
  | Ret a => (Ok a, [])
  | Raise e => (Throw e, [])
  | HttpRequest request k =>
      let '(r, requests) := run transport (k (transport request)) in
      (r, request :: requests)
  end.

Definition outcome {A} (transport : Transport) (p : Prog A) : result A :=
  fst (run transport p).

Definition requests {A} (transport : Transport) (p : Prog A) : list Request :=
  snd (run transport p).

(** ** transport/index.ts: the calls *)

Definition makeRpcCall (rpcEndpoint method : string) (params : RpcParams) : Prog string :=
  HttpRequest {| url := rpcEndpoint; method := method; params := params |}
    (fun response =>
       match response with
       | RpcError code message =>
           Raise (NodeApiError message ("RPC Error Code: " +:+ BigInt.toString code))
       | RpcResult result => Ret result
       | Rejected message => Raise (NodeApiError message "Failed to make RPC call")
       end).

(** [to] is a string by its type; the two readers below pass the
    [dapiServerAddress] of a looked-up value, which may be [undefined]. *)
Definition makeEthCall (rpcEndpoint : string) (to : option string) (data : string)
    : Prog string :=
  makeRpcCall rpcEndpoint "eth_call" (EthCall to data).

Module Reading.
Record t : Type := mk { value : Z; timestamp : Z }.
End Reading.

Definition readDAPIValue (rpcEndpoint network dapiName : string) : Prog Reading.t :=
  config ← lift (getNetworkConfig network);
  let dapiNameBytes32 := dapiNameToBytes32 dapiName in
  data ← lift (encodeFunctionCall "readDataFeedWithDapiName" ["bytes32"]
                 [VString dapiNameBytes32]);
  result ← makeEthCall rpcEndpoint (Config.dapiServerAddress config) data;
  value ← lift (decodeInt224 result);
  timestamp ← lift (decodeUint32 result (Some 64));
  Ret (Reading.mk value timestamp).

Definition readDataFeedById (rpcEndpoint network feedId : string) : Prog Reading.t :=
  config ← lift (getNetworkConfig network);
  data ← lift (encodeFunctionCall "readDataFeedWithId" ["bytes32"] [VString feedId]);
  result ← makeEthCall rpcEndpoint (Config.dapiServerAddress config) data;
  value ← lift (decodeInt224 result);
  timestamp ← lift (decodeUint32 result (Some 64));
  Ret (Reading.mk value timestamp).

Definition getTokenBalance (rpcEndpoint tokenAddress accountAddress : string) : Prog Z :=
  data ← lift (encodeFunctionCall "balanceOf" ["address"] [VString accountAddress]);
  result ← makeEthCall rpcEndpoint (Some tokenAddress) data;
  lift (decodeUint256 result None).

Definition getTotalSupply (rpcEndpoint tokenAddress : string) : Prog Z :=
  data ← lift (encodeFunctionCall "totalSupply" [] []);
  result ← makeEthCall rpcEndpoint (Some tokenAddress) data;
  lift (decodeUint256 result None).

Definition getUserStake (rpcEndpoint stakingPoolAddress userAddress : string) : Prog Z :=
  data ← lift (encodeFunctionCall "userStake" ["address"] [VString userAddress]);
  result ← makeEthCall rpcEndpoint (Some stakingPoolAddress) data;
  lift (decodeUint256 result None).

Definition getTotalStake (rpcEndpoint stakingPoolAddress : string) : Prog Z :=
  data ← lift (encodeFunctionCall "totalStake" [] []);
  result ← makeEthCall rpcEndpoint (Some stakingPoolAddress) data;
  lift (decodeUint256 result None).

(** ** The handlers of the [actions] directory

    A handler takes, next to the credentials, the node parameters that the
    source reads with [getNodeParameter]. *)

Module Credentials.
Record t : Type := mk {
  network : string;
  rpcEndpoint : string;
  privateKey : option string;
  api3MarketApiKey : option string;
  oevApiKey : option string
}.
End Credentials.

(** *** actions/dataFeeds *)

Module DataFeedValue.
Record t : Type := mk {
  feedId : string;
  value : string;
  timestamp : Z;
  formattedValue : string;
  decimals : nat
}.
End DataFeedValue.

Definition readDataFeedOperation (credentials : Credentials.t) (feedId : string)
    : Prog DataFeedValue.t :=
  if negb (isValidBytes32 feedId)
  then Raise (NodeOperationError "Invalid feed ID format. Must be a bytes32 value.")
  else
    reading ← readDataFeedById (Credentials.rpcEndpoint credentials)
                (Credentials.network credentials) feedId;
    formattedValue ← lift (formatWithDecimals (VBigInt (Reading.value reading))
                             DEFAULT_DECIMALS);
    Ret (DataFeedValue.mk feedId (BigInt.toString (Reading.value reading))
           (Reading.timestamp reading) formattedValue DEFAULT_DECIMALS).

(** The [for] loop of [getMultipleFeedsOperation]: [feedIds] is what is
    left to visit and [results] the array built so far. *)
Fixpoint getMultipleFeeds_loop (credentials : Credentials.t) (feedIds : list string)
    (results : list DataFeedValue.t) : Prog (list DataFeedValue.t) :=
  match feedIds with
  | [] => Ret results
  | feedId :: feedIds' =>
      if negb (isValidBytes32 feedId)
      then getMultipleFeeds_loop credentials feedIds' results
      else
        results ← try_catch
          (reading ← readDataFeedById (Credentials.rpcEndpoint credentials)
                       (Credentials.network credentials) feedId;
           formattedValue ← lift (formatWithDecimals (VBigInt (Reading.value reading))
                                    DEFAULT_DECIMALS);
           Ret (results ++ [DataFeedValue.mk feedId
                              (BigInt.toString (Reading.value reading))
                              (Reading.timestamp reading) formattedValue
                              DEFAULT_DECIMALS])%list)
          (fun _ =>
             (* Skip failed feeds *)
             Ret (results ++ [DataFeedValue.mk feedId "0" 0 "0" DEFAULT_DECIMALS])%list);
        getMultipleFeeds_loop credentials feedIds' results
  end.

Definition getMultipleFeedsOperation (credentials : Credentials.t) (feedIdsStr : string)
    : Prog (list DataFeedValue.t) :=
  let feedIds := map Js.trim (Js.split "," feedIdsStr) in
  getMultipleFeeds_loop credentials feedIds [].

(** *** actions/dao *)

(** An optional string that is truthy: present and not empty. *)
Definition truthy (x : option string) : option string :=
  match x with
  | Some (String c s) => Some (String c s)
  | _ => None
  end.

Definition stakingOnlyOnEthereum (network : string) : JsError :=
  NodeOperationError
    ("Staking is only available on Ethereum mainnet. Current network: " +:+ network).

(** The rate read on chain, or the fall-back of the [catch].  The source
    turns the raw value into text in floating point ([Number(aprValue) /
    100], [toFixed], [Math.pow]); that text is not computed here and the
    records carry the reading it is computed from. *)
Inductive AprReading : Type :=
| AprOnChain (aprValue : Z)
| AprFallback.

Module StakingInfo.
Record t : Type := mk {
  totalStaked : string;
  apr : AprReading;
  rewardRate : string;
  stakingPoolAddress : string;
  minStakeAmount : string;
  unstakingPeriod : Z;
  totalStakers : Z
}.
End StakingInfo.

Module UserStake.
Record t : Type := mk {
  address : string;
  stakedAmount : string;
  shares : string;
  pendingRewards : string;
  lastStakeTimestamp : Z;
  unstakingAmount : string;
  unstakingTimestamp : Z;
  votingPower : string
}.
End UserStake.

Module Rewards.
Record t : Type := mk { address : string; pendingRewards : string; estimatedApr : string }.
End Rewards.

(** [NETWORK_CONFIGS.ethereum] followed by the check of its
    [stakingPoolAddress]; reading a property of a missing entry would be
    a TypeError. *)
Definition ethereumStakingPool : Prog string :=
  match NETWORK_CONFIGS !! "ethereum" with
  | None => Raise TypeError
  | Some config =>
      match truthy (NetworkConfig.stakingPoolAddress config) with
      | None => Raise (NodeOperationError "Staking pool address not configured.")
      | Some stakingPoolAddress => Ret stakingPoolAddress
      end
  end.

(** [try { read apr() } catch { fall back }] *)
Definition readApr (credentials : Credentials.t) (stakingPoolAddress : string)
    : Prog AprReading :=
  try_catch
    (data ← lift (encodeFunctionCall "apr" [] []);
     result ← makeEthCall (Credentials.rpcEndpoint credentials) (Some stakingPoolAddress)
                data;
     aprValue ← lift (decodeUint256 result None);
     Ret (AprOnChain aprValue))
    (fun _ => Ret AprFallback).

(** [try { read getUserReward(address) } catch { BigInt(0) }] *)
Definition readPendingRewards (credentials : Credentials.t)
    (stakingPoolAddress userAddress : string) : Prog Z :=
  try_catch
    (data ← lift (encodeFunctionCall "getUserReward" ["address"] [VString userAddress]);
     result ← makeEthCall (Credentials.rpcEndpoint credentials) (Some stakingPoolAddress)
                data;
     lift (decodeUint256 result None))
    (fun _ => Ret 0).

Definition getStakingInfoOperation (credentials : Credentials.t) : Prog StakingInfo.t :=
  if negb (supportsStaking (Credentials.network credentials))
  then Raise (stakingOnlyOnEthereum (Credentials.network credentials))
  else
    stakingPoolAddress ← ethereumStakingPool;
    totalStaked ← getTotalStake (Credentials.rpcEndpoint credentials) stakingPoolAddress;
    apr ← readApr credentials stakingPoolAddress;
    totalStaked ← lift (weiToEther (VBigInt totalStaked));
    Ret (StakingInfo.mk totalStaked apr "0" stakingPoolAddress "1" 604800 0).

Definition getUserStakeOperation (credentials : Credentials.t) (userAddress : string)
    : Prog UserStake.t :=
  if negb (isValidAddress userAddress)
  then Raise (NodeOperationError "Invalid user address format.")
  else if negb (supportsStaking (Credentials.network credentials))
  then Raise (stakingOnlyOnEthereum (Credentials.network credentials))
  else
    stakingPoolAddress ← ethereumStakingPool;
    stakedAmount ← getUserStake (Credentials.rpcEndpoint credentials) stakingPoolAddress
                     userAddress;
    pendingRewards ← readPendingRewards credentials stakingPoolAddress userAddress;
    staked ← lift (weiToEther (VBigInt stakedAmount));
    rewards ← lift (weiToEther (VBigInt pendingRewards));
    Ret (UserStake.mk userAddress staked staked rewards 0 "0" 0 staked).

Definition getRewardsOperation (credentials : Credentials.t) (userAddress : string)
    : Prog Rewards.t :=
  if negb (isValidAddress userAddress)
  then Raise (NodeOperationError "Invalid user address format.")
  else if negb (supportsStaking (Credentials.network credentials))
  then Raise (stakingOnlyOnEthereum (Credentials.network credentials))
  else
    stakingPoolAddress ← ethereumStakingPool;
    pendingRewards ← readPendingRewards credentials stakingPoolAddress userAddress;
    rewards ← lift (weiToEther (VBigInt pendingRewards));
    Ret (Rewards.mk userAddress rewards "0%").

(** The three texts of the result ([apr], [apy], [rewardRate]) are
    floating-point functions of the reading, which is what is returned. *)
Definition getAPROperation (credentials : Credentials.t) : Prog AprReading :=
  if negb (supportsStaking (Credentials.network credentials))
  then Raise (stakingOnlyOnEthereum (Credentials.network credentials))
  else
    stakingPoolAddress ← ethereumStakingPool;
    readApr credentials stakingPoolAddress.

(** *** actions/governance

    Each read handler opens with the same gate.  Past the gate the
    handlers go to the REST transport and to JSON payloads, which are not
    part of the embedding: what a handler does once the gate is passed is
    its parameter [afterGate]. *)

Definition governanceOnlyOnEthereum : JsError :=
  NodeOperationError "Governance operations are only available on Ethereum mainnet".

Definition getProposalsOperation {A} (afterGate : Prog A) (credentials : Credentials.t)
    : Prog A :=
  if negb (supportsDAO (Credentials.network credentials))
  then Raise governanceOnlyOnEthereum
  else afterGate.

Definition getProposalOperation {A} (afterGate : Prog A) (credentials : Credentials.t)
    : Prog A :=
  if negb (supportsDAO (Credentials.network credentials))
  then Raise governanceOnlyOnEthereum
  else afterGate.

Definition getVoteRecordOperation {A} (afterGate : Prog A) (credentials : Credentials.t)
    : Prog A :=
  if negb (supportsDAO (Credentials.network credentials))
  then Raise governanceOnlyOnEthereum
  else afterGate.

Definition getTreasuryOperation {A} (afterGate : Prog A) (credentials : Credentials.t)
    : Prog A :=
  if negb (supportsDAO (Credentials.network credentials))
  then Raise governanceOnlyOnEthereum
  else afterGate.

(** * Vocabulary of the properties *)

Definition is_digit (c : ascii) : bool :=
  let n := nat_of_ascii c in (48 <=? n)%nat && (n <=? 57)%nat.

Definition no_space (c : ascii) : bool := negb (Js.is_space c).

Definition not_char (x c : ascii) : bool := negb (Ascii.eqb c x).

(** A character that [toString] prints for a digit below [radix]. *)
Definition digit_below (radix : Z) (c : ascii) : bool :=
  match BigInt.digit_value c with
  | Some d => (d <? radix) && Ascii.eqb (BigInt.digit_char d) c
  | None => false
  end.

(** What the digits [ds] printed for [n] in a radix satisfy: there is one
    at least, each is a digit of the radix, they read back as [n] after
    any digits read before, and they are no more than the size of [n]
    asks for. *)
Definition prints (radix n : Z) (ds : string) : Prop :=
  ds <> ""
  /\ all_chars (digit_below radix) ds = true
  /\ (forall acc, BigInt.parse_digits radix acc ds
                  = Some (acc * radix ^ Z.of_nat (String.length ds) + n))
  /\ (forall k : nat, (1 <= k)%nat -> n < radix ^ Z.of_nat k -> (String.length ds <= k)%nat).

(** The text before the first point, and the text after it. *)
Definition integer_segment (s : string) : string := hd "" (Js.split "." s).

Definition fractional_segment (s : string) : string := Js.join "." (tl (Js.split "." s)).

(** A minus sign and one decimal digit or more. *)
Definition signed_digits (s : string) : bool :=
  match s with
  | String c ds => Ascii.eqb c "-" && negb (String.eqb ds "") && all_chars is_digit ds
  | "" => false
  end.

(** The shape a formatted negative value is to have: the sign on the
    integer part, and at most [d] digits and nothing else after the point. *)
Definition sign_on_integer_part_only (s : string) (d : nat) : bool :=
  signed_digits (integer_segment s)
  && all_chars is_digit (fractional_segment s)
  && (String.length (fractional_segment s) <=? d)%nat.

(** A value that fits the 32-byte word of its tag: an address whose
    text after the prefix, in the lower case in which the encoder writes
    it, has at most 64 characters, a [0x] string of at most 64 characters
    after the prefix, a plain string of at most 32 bytes, an integer in
    [0, 2^256). *)
Definition fits_word (type : string) (value : JsValue) : bool :=
  if String.eqb type "bytes32" then
    match value with
    | VString s =>
        if Js.startsWith s "0x" then (String.length (Js.drop 2 s) <=? 64)%nat
        else (String.length (Js.utf8_hex s) <=? 64)%nat
    | _ => false
    end
  else if String.eqb type "address" then
    match value with
    | VString s =>
        (String.length (Js.toLowerCase (if Js.startsWith s "0x" then Js.drop 2 s else s))
         <=? 64)%nat
    | _ => false
    end
  else if String.eqb type "uint256" then
    match BigInt_of value with
    | Ok v => (0 <=? v) && (v <? 2 ^ 256)
    | Throw _ => false
    end
  else false.

Definition known_tag (type : string) : bool :=
  String.eqb type "bytes32" || String.eqb type "address" || String.eqb type "uint256".

(** The word of one parameter. *)
Definition word (type : string) (value : JsValue) : result string :=
  encodeParameters [type] [value].

(** The networks of the registry, each with its explorer, and the names
    of the properties that a plain object inherits. *)
Definition explorers : list (string * string) :=
  [ ("ethereum", "https://etherscan.io");
    ("polygon", "https://polygonscan.com");
    ("arbitrum", "https://arbiscan.io");
    ("arbitrum-nova", "https://nova.arbiscan.io");
    ("optimism", "https://optimistic.etherscan.io");
    ("avalanche", "https://snowtrace.io");
    ("bsc", "https://bscscan.com");
    ("base", "https://basescan.org");
    ("gnosis", "https://gnosisscan.io");
    ("fantom", "https://ftmscan.com");
    ("zksync", "https://explorer.zksync.io");
    ("scroll", "https://scrollscan.com");
    ("linea", "https://lineascan.build");
    ("mantle", "https://explorer.mantle.xyz");
    ("moonbeam", "https://moonscan.io");
    ("moonriver", "https://moonriver.moonscan.io");
    ("celo", "https://celoscan.io");
    ("goerli", "https://goerli.etherscan.io");
    ("sepolia", "https://sepolia.etherscan.io");
    ("mumbai", "https://mumbai.polygonscan.com") ].

Definition inherited_names : list string :=
  [ "constructor"; "__defineGetter__"; "__defineSetter__"; "hasOwnProperty";
    "__lookupGetter__"; "__lookupSetter__"; "isPrototypeOf"; "propertyIsEnumerable";
    "toString"; "valueOf"; "__proto__"; "toLocaleString" ].

(** The request of [makeEthCall] for a [to] that may be [undefined], and
    for one that is a string. *)
Definition callRequest (rpcEndpoint : string) (to : option string) (data : string)
    : Request :=
  {| url := rpcEndpoint; method := "eth_call"; params := EthCall to data |}.

Definition ethCallRequest (rpcEndpoint to data : string) : Request :=
  callRequest rpcEndpoint (Some to) data.

(** What [makeRpcCall] makes of a response. *)
Definition rpcOutcome (response : HttpOutcome) : result string :=
  match response with
  | RpcResult result => Ok result
  | RpcError code message =>
      Throw (NodeApiError message ("RPC Error Code: " +:+ BigInt.toString code))
  | Rejected message => Throw (NodeApiError message "Failed to make RPC call")
  end.

(** A read helper passes its failures on: whatever fails the call or the
    decoding of its result fails the helper, with the same error, and the
    helper issues the one request. *)
Definition passes_failures_on {A} (transport : Transport) (helper : Prog A)
    (request : Request) (decode : string -> result A) : Prop :=
  (forall e, rpcOutcome (transport request) = Throw e -> outcome transport helper = Throw e)
  /\ (forall response e,
        rpcOutcome (transport request) = Ok response -> decode response = Throw e ->
        outcome transport helper = Throw e)
  /\ requests transport helper = [request].

(** The decoding of the two words of a feed reading. *)
Definition decodeReading (response : string) : result Reading.t :=
  value ← decodeInt224 response;
  timestamp ← decodeUint32 response (Some 64);
  Ok (Reading.mk value timestamp).

#[global] Instance JsError_eq_dec : EqDecision JsError.
Proof. solve_decision. Defined.

(** The errors with which a handler turns down a network. *)
Definition unsupported_network_error (network : string) (e : JsError) : bool :=
  bool_decide (e = stakingOnlyOnEthereum network)
  || bool_decide (e = governanceOnlyOnEthereum).

Definition invalidUserAddress : JsError := NodeOperationError "Invalid user address format.".

(** Inputs of the examples: a node that cannot be reached and one that
    answers with no data, credentials for two networks, a feed and an
    account. *)
Definition unreachable : Transport := fun _ => Rejected "connect ETIMEDOUT".

Definition emptyAnswer : Transport := fun _ => RpcResult "0x".

(** A node that answers [userStake(address)] with two tokens and fails
    every other call. *)
Definition stakeOnly : Transport := fun request =>
  match params request with
  | EthCall _ data =>
      if Js.startsWith data "0x66666aa9"
      then RpcResult "0x0000000000000000000000000000000000000000000000001bc16d674ec80000"
      else Rejected "connect ETIMEDOUT"
  | NoParams => Rejected "connect ETIMEDOUT"
  end.

Definition mainnet : Credentials.t :=
  Credentials.mk "ethereum" "https://rpc.example" None None None.

Definition polygon : Credentials.t :=
  Credentials.mk "polygon" "https://rpc.example" None None None.

Definition someFeed : string :=
  "0x4385954e058fbe6b6a744f32a4f89d67aad099f8fb8b23e7ea8dd366ae88151d".

Definition someAccount : string := "0x742d35Cc6634C0532925a3b844Bc9e7595f1dE00".

(** * More of the code *)
(** ** utils/helpers.ts: display and control helpers *)

(** [chars] is the optional argument, 4 when left out; it is an integer
    of either sign. *)
Definition truncateAddress (address : string) (chars : option Z) : string :=
  let chars := default 4 chars in
  if Z.of_nat (String.length address) <=? chars * 2 + 2 then address
  else Js.slice address 0 (chars + 2) +:+ "..." +:+ Js.slice_from address (- chars).

(** [array.slice(from, to)] on integral arguments. *)
Definition Array_slice {T} (array : list T) (from to : Z) : list T :=
  let len := Z.of_nat (length array) in
  let a := Js.clamp_index len from in
  let b := Js.clamp_index len to in
  take (Z.to_nat (b - a)) (drop (Z.to_nat a) array).

(** The [for] loop of [chunkArray] from index [i] on, for an integral
    [size].  The loop of the source need not end: [fuel] bounds the
    number of turns and [None] is a loop still running when it is spent. *)
Fixpoint chunkArray_loop {T} (fuel : nat) (array : list T) (size i : Z)
    (chunks : list (list T)) : option (list (list T)) :=
  match fuel with
  | O => None
  | S fuel' =>
      if i <? Z.of_nat (length array)
      then chunkArray_loop fuel' array size (i + size)
             (chunks ++ [Array_slice array i (i + size)])
      else Some chunks
  end.

Definition chunkArray {T} (fuel : nat) (array : list T) (size : Z) : option (list (list T)) :=
  chunkArray_loop fuel array size 0 [].

(** What [retry] comes to: the value of [fn], or a throw of the last
    error, which is [undefined] when [fn] was never called. *)
Inductive RetryOutcome (T E : Type) : Type :=
| Returned (value : T)
| Thrown (lastError : option E).
Arguments Returned {T E} value.
Arguments Thrown {T E} lastError.

(** [Math.pow(2, n)] for an integer [0 <= n]: the power is a double up
    to 2^1023 and Infinity from 2^1024 on. *)
Definition Math_pow2 (n : Z) : Number :=
  if n <? 1024 then Finite (2 ^ n) else Infinity false.

(** [a * p] for an integer double [a] and a [p] that [Math_pow2] gives:
    scaling by a power of two is exact unless the product leaves the
    range of the doubles, and zero times Infinity is NaN. *)
Definition scale (a : Z) (p : Number) : Number :=
  match p with
  | Finite p => if Z.abs (a * p) <? 2 ^ 1024 then Finite (a * p) else Infinity (a <? 0)
  | Infinity negative => if a =? 0 then NaN else Infinity (xorb negative (a <? 0))
  | NaN => NaN
  end.

(** [fn] is called once per attempt and may answer differently each
    time: [fn k] is what its call number [k] comes to, counted from 0, a
    value or a thrown error.  [maxAttempts] and [baseDelay] are integer
    doubles.  The loop is given with [attempt] and [lastError]; it
    returns with the number of calls made and the delays handed to
    [sleep], in milliseconds.  [attempt++] is an addition of doubles: it
    is exact up to 2^53, where it stops counting.  [fuel] bounds the turns
    of the loop and [None] is a loop still running when it is spent. *)
Fixpoint retry_loop {T E} (fuel : nat) (fn : nat -> T + E) (maxAttempts baseDelay : Z)
    (attempt : Z) (lastError : option E) (calls : nat) (delays : list Number)
    : option (RetryOutcome T E * nat * list Number) :=
  if attempt <=? maxAttempts then
    match fuel with
    | O => None
    | S fuel' =>
        match fn calls with
        | inl value => Some (Returned value, S calls, delays)
        | inr error =>
            let delays :=
              if attempt <? maxAttempts
              then (delays ++ [scale baseDelay (Math_pow2 (attempt - 1))])%list
              else delays in
            retry_loop fuel' fn maxAttempts baseDelay (BigInt.toNumber (attempt + 1))
              (Some error) (S calls) delays
        end
    end
  else Some (Thrown lastError, calls, delays).

(** [maxAttempts] and [baseDelay] are the optional arguments, 3 and 1000
    when left out.  [maxAttempts] turns are given to the loop, which needs
    no more when [attempt] counts up to [maxAttempts]. *)
Definition retry {T E} (fn : nat -> T + E) (maxAttempts baseDelay : option Z)
    : option (RetryOutcome T E * nat * list Number) :=
  let maxAttempts := default 3 maxAttempts in
  let baseDelay := default 1000 baseDelay in
  retry_loop (Z.to_nat maxAttempts) fn maxAttempts baseDelay 1 None 0 [].

(** [customDecimals[dapiName] || DEFAULT_DECIMALS], the table being
    empty.  Under a name of [Object.prototype] the lookup finds the
    inherited value, which is truthy and is returned as it is: [None] is
    such a value, a function or an object where a number is expected. *)
Definition customDecimals : gmap string nat := ∅.

Definition getDAPIDecimals (dapiName : string) : option nat :=
  match customDecimals !! dapiName with
  | Some (S n) => Some (S n)
  | Some O => Some DEFAULT_DECIMALS
  | None =>
      match Js.Object_prototype !! dapiName with
      | Some _ => None
      | None => Some DEFAULT_DECIMALS
      end
  end.

(** ** transport/index.ts: block number and chain id *)

(** The longest run of hex digits that [s] starts with. *)
Fixpoint hex_prefix (s : string) : string :=
  match s with
  | String c s' => if is_hex_char c then String c (hex_prefix s') else ""
  | "" => ""
  end.

(** [parseInt(s, 16)]: leading white space, a sign and a [0x] are
    skipped, the digits that follow are read and the rest is ignored;
    without a digit the result is NaN.  The number is the double nearest
    to the integer read, which is Infinity when the rounding reaches
    2^1024. *)
Definition parseInt16 (s : string) : Number :=
  let t := Js.trimStart s in
  let sign := if Js.startsWith t "-" then -1 else 1 in
  let t := if Js.startsWith t "-" || Js.startsWith t "+" then Js.drop 1 t else t in
  let t := if Js.startsWith t "0x" || Js.startsWith t "0X" then Js.drop 2 t else t in
  match hex_prefix t with
  | "" => NaN
  | digits =>
      match BigInt.parse_digits 16 0 digits with
      | Some v =>
          let n := BigInt.toNumber v in
          if n <? 2 ^ 1024 then Finite (sign * n) else Infinity (sign <? 0)
      | None => NaN
      end
  end.

Definition getBlockNumber (rpcEndpoint : string) : Prog Number :=
  result ← makeRpcCall rpcEndpoint "eth_blockNumber" NoParams;
  Ret (parseInt16 result).

Definition getChainId (rpcEndpoint : string) : Prog Number :=
  result ← makeRpcCall rpcEndpoint "eth_chainId" NoParams;
  Ret (parseInt16 result).

(** ** constants.ts *)

Definition COMMON_DAPIS : list string :=
  [ "ETH/USD"; "BTC/USD"; "MATIC/USD"; "AVAX/USD"; "BNB/USD"; "SOL/USD"; "ARB/USD";
    "OP/USD"; "LINK/USD"; "UNI/USD"; "AAVE/USD"; "CRV/USD"; "MKR/USD"; "SNX/USD";
    "COMP/USD"; "SUSHI/USD"; "YFI/USD"; "BAL/USD"; "API3/USD"; "EUR/USD"; "GBP/USD";
    "JPY/USD"; "AUD/USD"; "CAD/USD"; "CHF/USD" ].

(** ** The other handlers of the [actions] directory *)
(** *** actions/dataFeeds *)

Module BeaconData.
Record t : Type := mk {
  beaconId : string;
  airnodeAddress : string;
  templateId : string;
  value : string;
  timestamp : Z
}.
End BeaconData.

Module DataFeedMetadata.
Record t : Type := mk {
  feedId : string;
  name : string;
  description : string;
  category : string;
  decimals : nat;
  createdAt : Z;
  sponsor : string
}.
End DataFeedMetadata.

Definition getFeedMetadataOperation (credentials : Credentials.t) (feedId : string)
    : Prog DataFeedMetadata.t :=
  if negb (isValidBytes32 feedId)
  then Raise (NodeOperationError "Invalid feed ID format. Must be a bytes32 value.")
  else
    config ← lift (getNetworkConfig (Credentials.network credentials));
    Ret (DataFeedMetadata.mk feedId ("Feed " +:+ Js.slice feedId 0 10 +:+ "...")
           ("Data feed on " +:+ Js.template (Config.name config)) "Custom"
           DEFAULT_DECIMALS 0 "").

Definition getFeedBeaconOperation (credentials : Credentials.t) (feedId : string)
    : Prog BeaconData.t :=
  if negb (isValidBytes32 feedId)
  then Raise (NodeOperationError "Invalid feed ID format. Must be a bytes32 value.")
  else
    reading ← readDataFeedById (Credentials.rpcEndpoint credentials)
                (Credentials.network credentials) feedId;
    Ret (BeaconData.mk feedId "0x0000000000000000000000000000000000000000" feedId
           (BigInt.toString (Reading.value reading)) (Reading.timestamp reading)).

(** *** actions/dapis *)

Module DAPIValue.
Record t : Type := mk {
  value : string;
  timestamp : Z;
  dapiName : string;
  network : string;
  formattedValue : string;
  decimals : nat
}.
End DAPIValue.

Module DAPIInfo.
Record t : Type := mk {
  name : string;
  category : string;
  description : string;
  decimals : nat;
  deviation : string;
  heartbeat : Z;
  sources : list string;
  sponsorWallet : string;
  network : string;
  contractAddress : option string;
  lastUpdated : Z
}.
End DAPIInfo.

Module DAPIListItem.
Record t : Type := mk {
  name : string;
  category : string;
  network : string;
  active : bool;
  price : option string
}.
End DAPIListItem.

Module DAPIUpdateInfo.
Record t : Type := mk {
  lastUpdateTimestamp : Z;
  nextExpectedUpdate : Z;
  heartbeatSeconds : Z;
  lastUpdateBlock : Z
}.
End DAPIUpdateInfo.

(** Where [decimals] is not a number, [10 ** decimals] is NaN and
    [formatWithDecimals] fails on [BigInt(NaN)], a RangeError. *)
Definition getDAPIValueOperation (credentials : Credentials.t) (dapiName : string)
    : Prog DAPIValue.t :=
  let decimals := getDAPIDecimals dapiName in
  reading ← readDAPIValue (Credentials.rpcEndpoint credentials)
              (Credentials.network credentials) dapiName;
  match decimals with
  | Some decimals =>
      formattedValue ← lift (formatWithDecimals (VBigInt (Reading.value reading)) decimals);
      Ret (DAPIValue.mk (BigInt.toString (Reading.value reading))
             (Reading.timestamp reading) dapiName (Credentials.network credentials)
             formattedValue decimals)
  | None => Raise RangeError
  end.

Definition getDAPIInfoOperation (credentials : Credentials.t) (dapiName : string)
    : Prog DAPIInfo.t :=
  config ← lift (getNetworkConfig (Credentials.network credentials));
  reading ← readDAPIValue (Credentials.rpcEndpoint credentials)
              (Credentials.network credentials) dapiName;
  let parts := Js.split "/" dapiName in
  let category := if (1 <? length parts)%nat then "Price Feed" else "Custom" in
  Ret (DAPIInfo.mk dapiName category
         (dapiName +:+ " price feed on " +:+ Js.template (Config.name config))
         DEFAULT_DECIMALS "1%" 86400 [] "" (Credentials.network credentials)
         (Config.dapiServerAddress config) (Reading.timestamp reading)).

(** The [for] loop of [listDAPIsOperation]: [names] is what is left of
    [COMMON_DAPIS] and [dapis] the array built so far. *)
Fixpoint listDAPIs_loop (credentials : Credentials.t) (names : list string)
    (dapis : list DAPIListItem.t) : Prog (list DAPIListItem.t) :=
  match names with
  | [] => Ret dapis
  | name :: names' =>
      dapis ← try_catch
        (reading ← readDAPIValue (Credentials.rpcEndpoint credentials)
                     (Credentials.network credentials) name;
         let isActive :=
           (0 <? Reading.timestamp reading) && negb (Reading.value reading =? 0) in
         price ← (if isActive
                  then price ← lift (formatWithDecimals (VBigInt (Reading.value reading))
                                       DEFAULT_DECIMALS);
                       Ret (Some price)
                  else Ret None);
         Ret (dapis ++ [DAPIListItem.mk name "Price Feed" (Credentials.network credentials)
                          isActive price])%list)
        (fun _ =>
           (* dAPI not available on this network *)
           Ret (dapis ++ [DAPIListItem.mk name "Price Feed" (Credentials.network credentials)
                            false None])%list);
      listDAPIs_loop credentials names' dapis
  end.

Definition listDAPIsOperation (credentials : Credentials.t) : Prog (list DAPIListItem.t) :=
  listDAPIs_loop credentials COMMON_DAPIS [].

(** The sum is one of doubles: the double nearest to the sum of the two
    integers. *)
Definition getDAPIUpdateTimeOperation (credentials : Credentials.t) (dapiName : string)
    : Prog DAPIUpdateInfo.t :=
  reading ← readDAPIValue (Credentials.rpcEndpoint credentials)
              (Credentials.network credentials) dapiName;
  let heartbeatSeconds := 86400 in
  let nextExpectedUpdate := BigInt.toNumber (Reading.timestamp reading + heartbeatSeconds) in
  Ret (DAPIUpdateInfo.mk (Reading.timestamp reading) nextExpectedUpdate heartbeatSeconds 0).

(** *** actions/token *)

Module TokenSupply.
Record t : Type := mk {
  totalSupply : string;
  circulatingSupply : string;
  stakedSupply : string;
  burnedSupply : string;
  lockedSupply : string
}.
End TokenSupply.

Module TokenBalance.
Record t : Type := mk {
  address : string;
  balance : string;
  formattedBalance : string;
  stakedBalance : string;
  totalBalance : string
}.
End TokenBalance.

(** [s.replace('.', '')]: the first point is taken out. *)
Fixpoint removeFirstPoint (s : string) : string :=
  match s with
  | "" => ""
  | String c s' => if Ascii.eqb c "." then s' else String c (removeFirstPoint s')
  end.

(** [BigInt(text.replace('.', '').padEnd(18, '0') || '0')], the amount
    that the token handlers read back from a formatted balance. *)
Definition amountOfText (text : string) : result Z :=
  BigInt.of_string (Js.orDefault (Some (Js.padEnd (removeFirstPoint text) 18 Js.zero)) "0").

(** The handlers wrap what they catch in a NodeOperationError whose
    text ends with the [message] of the error caught.  The texts that the
    engine and the host give to their errors are the parameter
    [message]. *)
Definition getAPI3SupplyOperation (message : JsError -> string) (credentials : Credentials.t)
    : Prog TokenSupply.t :=
  try_catch
    (config ← lift (getNetworkConfig (Credentials.network credentials));
     match truthy (Config.api3TokenAddress config) with
     | None =>
         Raise (Error ("API3 token not available on " +:+ Credentials.network credentials))
     | Some api3TokenAddress =>
         totalSupplyRaw ← getTotalSupply (Credentials.rpcEndpoint credentials)
                            api3TokenAddress;
         totalSupply ← lift (formatWithDecimals (VBigInt totalSupplyRaw) 18);
         stakedSupply ←
           match truthy (Config.stakingPoolAddress config) with
           | None => Ret "0"
           | Some stakingPoolAddress =>
               try_catch
                 (stakedRaw ← getTokenBalance (Credentials.rpcEndpoint credentials)
                                api3TokenAddress stakingPoolAddress;
                  lift (formatWithDecimals (VBigInt stakedRaw) 18))
                 (fun _ => (* Staking pool balance unavailable *) Ret "0")
           end;
         staked ← lift (amountOfText stakedSupply);
         let circulatingRaw := totalSupplyRaw - staked in
         circulatingSupply ←
           lift (formatWithDecimals
                   (VBigInt (if 0 <? circulatingRaw then circulatingRaw else 0)) 18);
         Ret (TokenSupply.mk totalSupply circulatingSupply stakedSupply "0" "0")
     end)
    (fun error =>
       Raise (NodeOperationError ("Failed to get API3 supply: " +:+ message error))).

Definition getUserBalanceOperation (message : JsError -> string) (credentials : Credentials.t)
    (userAddress : string) : Prog TokenBalance.t :=
  if negb (isValidAddress userAddress)
  then Raise (NodeOperationError "Invalid Ethereum address")
  else
    try_catch
      (config ← lift (getNetworkConfig (Credentials.network credentials));
       match truthy (Config.api3TokenAddress config) with
       | None =>
           Raise (Error ("API3 token not available on " +:+ Credentials.network credentials))
       | Some api3TokenAddress =>
           balanceRaw ← getTokenBalance (Credentials.rpcEndpoint credentials)
                          api3TokenAddress userAddress;
           balance ← lift (formatWithDecimals (VBigInt balanceRaw) 18);
           stakedBalance ←
             match truthy (Config.stakingPoolAddress config) with
             | None => Ret "0"
             | Some stakingPoolAddress =>
                 try_catch
                   (data ← lift (encodeFunctionCall "userStake" ["address"]
                                   [VString userAddress]);
                    result ← makeEthCall (Credentials.rpcEndpoint credentials)
                               (Some stakingPoolAddress) data;
                    stakedRaw ← lift (decodeUint256 result None);
                    lift (formatWithDecimals (VBigInt stakedRaw) 18))
                   (fun _ => (* Staking balance unavailable *) Ret "0")
             end;
           staked ← lift (amountOfText stakedBalance);
           let totalRaw := balanceRaw + staked in
           totalBalance ← lift (formatWithDecimals (VBigInt totalRaw) 18);
           Ret (TokenBalance.mk userAddress balance (balance +:+ " API3") stakedBalance
                  totalBalance)
       end)
      (fun error =>
         Raise (NodeOperationError ("Failed to get user balance: " +:+ message error))).

(** *** actions/governance: the treasury, past the gate *)

Module TreasuryTransaction.
Record t : Type := mk { hash : string; amount : string; type : string; timestamp : Z }.
End TreasuryTransaction.

Module Treasury.
Record t : Type := mk {
  balance : string;
  api3Balance : string;
  ethBalance : string;
  totalAllocated : string;
  totalSpent : string;
  recentTransactions : list TreasuryTransaction.t
}.
End Treasury.

(** What [getTreasuryOperation] does once its gate is passed. *)
Definition treasuryRead (message : JsError -> string) (credentials : Credentials.t)
    : Prog Treasury.t :=
  try_catch
    (config ← lift (getNetworkConfig (Credentials.network credentials));
     api3Balance ←
       match truthy (Config.governanceAddress config),
             truthy (Config.api3TokenAddress config) with
       | Some governanceAddress, Some api3TokenAddress =>
           try_catch
             (balanceData ← lift (encodeFunctionCall "balanceOf" ["address"]
                                    [VString governanceAddress]);
              balanceResult ← makeEthCall (Credentials.rpcEndpoint credentials)
                                (Some api3TokenAddress) balanceData;
              balanceRaw ← lift (decodeUint256 balanceResult None);
              lift (formatWithDecimals (VBigInt balanceRaw) 18))
             (fun _ => (* Unable to fetch balance *) Ret "0")
       | _, _ => Ret "0"
       end;
     Ret (Treasury.mk api3Balance api3Balance "0" "0" "0" []))
    (fun error =>
       Raise (NodeOperationError ("Failed to get treasury info: " +:+ message error))).

(** *** The status mappers of actions/governance, actions/insurance and
    actions/subscriptions *)

Definition mapProposalStatus (status : string) : string :=
  let normalized := Js.toLowerCase status in
  if String.eqb normalized "pending" then "pending"
  else if String.eqb normalized "active" then "active"
  else if String.eqb normalized "succeeded" then "succeeded"
  else if String.eqb normalized "defeated" then "defeated"
  else if String.eqb normalized "executed" then "executed"
  else if String.eqb normalized "cancelled" || String.eqb normalized "canceled"
  then "cancelled"
  else "pending".

Definition mapCoverageStatus (status : string) : string :=
  let normalized := Js.toLowerCase status in
  if String.eqb normalized "active" then "active"
  else if String.eqb normalized "expired" then "expired"
  else if String.eqb normalized "claimed" then "claimed"
  else "expired".

Definition mapSubscriptionTier (tier : string) : string :=
  let normalized := Js.toLowerCase tier in
  if String.eqb normalized "pro" then "pro"
  else if String.eqb normalized "enterprise" then "enterprise"
  else "basic".

Definition mapSubscriptionStatus (status : string) : string :=
  let normalized := Js.toLowerCase status in
  if String.eqb normalized "active" then "active"
  else if String.eqb normalized "cancelled" || String.eqb normalized "canceled"
  then "cancelled"
  else "expired".

(** ** utils/helpers.ts: flattening an object *)

(** The values of a JSON document.  The fields of an object are listed
    in the order in which [for ... in] visits them. *)
#[local] Unset Elimination Schemes.
Inductive Json : Type :=
| JNull
| JBool (b : bool)
| JNumber (n : Z)
| JString (s : string)
| JArray (items : list Json)
| JObject (fields : list (string * Json)).
#[local] Set Elimination Schemes.

(** [flattenObject(obj, prefix)] for an object [obj]; the prefix is the
    empty string when the argument is left out.  The result is given by
    its own properties.  [Object.assign(result, flattened)] writes every
    property of [flattened] over [result].  [result[newKey] = value] adds
    or replaces a property, except under the key [__proto__]: there it
    calls the setter that [result] inherits, which makes no property. *)
Fixpoint flattenObject (obj : Json) (prefix : string) : gmap string Json :=
  match obj with
  | JObject fields =>
      foldl (fun (result : gmap string Json) '(key, value) =>
               let newKey :=
                 if String.eqb prefix "" then key else prefix +:+ "." +:+ key in
               match value with
               | JObject _ => flattenObject value newKey ∪ result
               | _ => if String.eqb newKey "__proto__" then result
                      else <[newKey := value]> result
               end)
        ∅ fields
  | _ => ∅
  end.

(** * More vocabulary *)

(** A node that answers every call with a feed reading: the value 2500
    at 18 decimals, and the timestamp 1700000000. *)
Definition priceFeed : Transport := fun _ =>
  RpcResult ("0x" +:+ "0000000000000000000000000000000000000000000000878678326eac900000"
                  +:+ "000000000000000000000000000000000000000000000000000000006553f100").

(** A node that answers every call with the word of two tokens. *)
Definition twoTokens : Transport := fun _ =>
  RpcResult "0x0000000000000000000000000000000000000000000000001bc16d674ec80000".

(** The word of [encodeUint256] for an integer. *)
Definition uint256Word (v : Z) : string :=
  Js.padStart (BigInt.toString_radix 16 v) 64 Js.zero.

(** The entry of the registry for Ethereum. *)
Definition ethereumConfig : NetworkConfig.t :=
  NetworkConfig.mk 1 "Ethereum Mainnet" None "https://etherscan.io"
    "0x3dEC619dc529363767dEe9E71d8dD1A5bc270D76"
    (Some "0x0b38210ea11411557c13457D4dA7dC6ea731B88a")
    (Some "0x6dd655f10d4b9E242aE186D9050B68F725c76d76")
    (Some "0x1d7573de8b3cF1c5B0e16be54a0E20a78B8e5e6e4").

(** What an item of the list of dAPIs says of the read of its name. *)
Definition item_of_read (t : Transport) (rpcEndpoint network name : string)
    (item : DAPIListItem.t) : Prop :=
  DAPIListItem.name item = name
  /\ DAPIListItem.category item = "Price Feed"
  /\ DAPIListItem.network item = network
  /\ (DAPIListItem.active item = true <-> is_Some (DAPIListItem.price item))
  /\ (forall e,
        outcome t (readDAPIValue rpcEndpoint network name) = Throw e ->
        DAPIListItem.active item = false)
  /\ (forall reading,
        outcome t (readDAPIValue rpcEndpoint network name) = Ok reading ->
        DAPIListItem.active item
        = (0 <? Reading.timestamp reading) && negb (Reading.value reading =? 0)).

Definition is_object (value : Json) : bool :=
  match value with
  | JObject _ => true
  | _ => false
  end.

(** The byte written by two hex digits. *)
Definition hex_pair (a b : ascii) : option nat :=
  match BigInt.digit_value a, BigInt.digit_value b with
  | Some x, Some y => Some (Z.to_nat (16 * x + y))
  | _, _ => None
  end.

(** The code unit that the hex of UTF-8 bytes starts with, and the hex
    that follows it: the inverse of [Js.utf8_hex_char]. *)
Definition utf8_hex_head (s : string) : option (ascii * string) :=
  match s with
  | String a (String b rest) =>
      match hex_pair a b with
      | Some n =>
          if (n <? 128)%nat then Some (ascii_of_nat n, rest)
          else
            match rest with
            | String c (String d rest') =>
                match hex_pair c d with
                | Some m => Some (ascii_of_nat ((n - 192) * 64 + (m - 128)), rest')
                | None => None
                end
            | _ => None
            end
      | None => None
      end
  | _ => None
  end.

(** The code unit 0. *)
Definition NUL : ascii := ascii_of_nat 0.

(** * Properties *)
(** ** The embedding on the values of the unit tests *)

Example slice_examples :
  Js.slice "abcdef" 2 4 = "cd" /\ Js.slice "abcdef" 4 70 = "ef"
  /\ Js.slice "abcdef" (-2) 6 = "ef" /\ Js.slice "abcdef" 5 2 = "".
Proof. repeat split; reflexivity. Qed.

Example split_examples :
  Js.split "." "12.50" = ["12"; "50"] /\ Js.split "." "" = [""]
  /\ Js.split "." "1." = ["1"; ""].
Proof. repeat split; reflexivity. Qed.

Example BigInt_examples :
  BigInt.of_string " 12 " = Ok 12 /\ BigInt.of_string "" = Ok 0
  /\ BigInt.of_string "-7" = Ok (-7) /\ BigInt.of_string "0XfF" = Ok 255
  /\ BigInt.of_string "0x" = Throw SyntaxError
  /\ BigInt.of_string "-0x12" = Throw SyntaxError
  /\ BigInt.of_string "1.5" = Throw SyntaxError
  /\ BigInt.toString (-120) = "-120" /\ BigInt.toString_radix 16 255 = "ff".
Proof. repeat split; reflexivity. Qed.

Example toNumber_examples :
  BigInt.toNumber 100 = 100
  /\ BigInt.toNumber (2 ^ 53 + 1) = 2 ^ 53
  /\ BigInt.toNumber (2 ^ 53 + 3) = 2 ^ 53 + 4.
Proof. repeat split; reflexivity. Qed.

Example selector_examples :
  getFunctionSelector "transfer" ["address"; "uint256"] = "0xa9059cbb"
  /\ getFunctionSelector "balanceOf" ["address"] = "0x70a08231"
  /\ getFunctionSelector "totalSupply" [] = "0x18160ddd".
Proof. repeat split; reflexivity. Qed.

Example encode_examples :
  encodeParameters ["address"] [VString "0x742d35Cc6634C0532925a3b844Bc9e7595f1dE00"]
  = Ok "000000000000000000000000742d35cc6634c0532925a3b844bc9e7595f1de00"
  /\ encodeFunctionCall "balanceOf" ["address"]
       [VString "0x742d35Cc6634C0532925a3b844Bc9e7595f1dE00"]
     = Ok "0x70a08231000000000000000000000000742d35cc6634c0532925a3b844bc9e7595f1de00"
  /\ dapiNameToBytes32 "ETH/USD"
     = "0x4554482f55534400000000000000000000000000000000000000000000000000".
Proof. repeat split; reflexivity. Qed.

Example decode_examples :
  decodeUint256 "0x0000000000000000000000000000000000000000000000000de0b6b3a7640000" None
  = Ok 1000000000000000000
  /\ decodeUint32
       "0x00000000000000000000000000000000000000000000000000000000000000000000000000000000000000000000000000000000000000000000000000000064"
       (Some 64)
     = Ok 100.
Proof. repeat split; reflexivity. Qed.

Example format_examples :
  formatValue 0 18 = "0.000000000000000000"
  /\ formatWithDecimals (VString "1000000000000000000") 18 = Ok "1"
  /\ formatWithDecimals (VString "123456789") 8 = Ok "1.23456789"
  /\ weiToEther (VString "500000000000000000") = Ok "0.5"
  /\ weiToEther (VString "0") = Ok "0"
  /\ etherToWei "0.5" = Ok 500000000000000000
  /\ parseWithDecimals "1" 6 = Ok 1000000.
Proof. repeat split; reflexivity. Qed.

Example validation_examples :
  isValidAddress "0x742d35Cc6634C0532925a3b844Bc9e7595f1dE00" = true
  /\ isValidAddress "0x742d35Cc6634C0532925a3b844Bc9e7595f1dE0" = false
  /\ isValidAddress "742d35Cc6634C0532925a3b844Bc9e7595f1dE00" = false
  /\ isValidBytes32 someFeed = true.
Proof. repeat split; reflexivity. Qed.

(** ** Strings *)

Section StringFacts.

Implicit Types (s t : string) (c : ascii) (n m : nat).

Lemma str_app_nil_r s : s +:+ "" = s.
Proof. induction s as [|c s IH]; simpl; [done | by rewrite IH]. Qed.

Lemma str_app_assoc s t u : (s +:+ t) +:+ u = s +:+ (t +:+ u).
Proof. induction s as [|c s IH]; simpl; [done | by rewrite IH]. Qed.

Lemma str_length_app s t : String.length (s +:+ t) = (String.length s + String.length t)%nat.
Proof. induction s as [|c s IH]; simpl; [done | by rewrite IH]. Qed.

Lemma length_repeat c n : String.length (Js.repeat c n) = n.
Proof. induction n as [|n IH]; simpl; [done | by rewrite IH]. Qed.

Lemma repeat_snoc c n : Js.repeat c (S n) = Js.repeat c n +:+ String c "".
Proof.
  induction n as [|n IH]; [done|]. simpl in *. by rewrite <- IH.
Qed.

Lemma length_padStart s n c :
  (String.length s <= n)%nat -> String.length (Js.padStart s n c) = n.
Proof. intros H. unfold Js.padStart. rewrite str_length_app, length_repeat. lia. Qed.

Lemma length_padEnd s n c :
  (String.length s <= n)%nat -> String.length (Js.padEnd s n c) = n.
Proof. intros H. unfold Js.padEnd. rewrite str_length_app, length_repeat. lia. Qed.

Lemma padStart_long s n c : (n <= String.length s)%nat -> Js.padStart s n c = s.
Proof. intros H. unfold Js.padStart. by replace (n - String.length s)%nat with 0%nat by lia. Qed.

Lemma padEnd_long s n c : (n <= String.length s)%nat -> Js.padEnd s n c = s.
Proof.
  intros H. unfold Js.padEnd.
  replace (n - String.length s)%nat with 0%nat by lia. apply str_app_nil_r.
Qed.

Lemma drop_ge s n : (String.length s <= n)%nat -> Js.drop n s = "".
Proof.
  revert n. induction s as [|c s IH]; intros [|n] H; simpl in *; try done; try lia.
  apply IH. lia.
Qed.

Lemma length_drop s n : String.length (Js.drop n s) = (String.length s - n)%nat.
Proof. revert n. induction s as [|c s IH]; intros [|n]; simpl; auto. Qed.

Lemma take_ge s n : (String.length s <= n)%nat -> Js.take n s = s.
Proof.
  revert n. induction s as [|c s IH]; intros [|n] H; simpl in *; try done; try lia.
  rewrite IH; [done | lia].
Qed.

Lemma length_take s n : String.length (Js.take n s) = Nat.min n (String.length s).
Proof. revert n. induction s as [|c s IH]; intros [|n]; simpl; auto. Qed.

Lemma take_min s n : Js.take (Nat.min n (String.length s)) s = Js.take n s.
Proof. revert n. induction s as [|c s IH]; intros [|n]; simpl; auto. by rewrite IH. Qed.

Lemma substring_take_drop s n m : substring n m s = Js.take m (Js.drop n s).
Proof.
  revert n m. induction s as [|c s IH]; intros [|n] [|m]; simpl; rewrite ?IH; done.
Qed.

(** A slice that starts at a natural index [a] and is [w] wide is the
    window of [substring]. *)
Lemma slice_window s (a w : nat) :
  Js.slice s (Z.of_nat a) (Z.of_nat a + Z.of_nat w) = substring a w s.
Proof.
  rewrite substring_take_drop. unfold Js.slice, Js.clamp_index.
  destruct (Z.ltb_spec (Z.of_nat a) 0) as [?|_]; [lia|].
  destruct (Z.ltb_spec (Z.of_nat a + Z.of_nat w) 0) as [?|_]; [lia|].
  destruct (Nat.le_gt_cases (String.length s) a) as [Hge|Hlt].
  - rewrite (drop_ge s a) by lia.
    rewrite (Z.min_r (Z.of_nat a)), Nat2Z.id by lia.
    rewrite (drop_ge s (String.length s)) by lia. by destruct w, (Z.to_nat _).
  - rewrite (Z.min_l (Z.of_nat a)), Nat2Z.id by lia.
    rewrite <- (take_min (Js.drop a s) w). rewrite length_drop. f_equal. lia.
Qed.

Lemma slice_from_nat s (a : nat) : Js.slice_from s (Z.of_nat a) = Js.drop a s.
Proof.
  unfold Js.slice_from, Js.slice, Js.clamp_index.
  destruct (Z.ltb_spec (Z.of_nat a) 0) as [?|_]; [lia|].
  destruct (Z.ltb_spec (Z.of_nat (String.length s)) 0) as [?|_]; [lia|].
  rewrite (Z.min_r (Z.of_nat (String.length s)) (Z.of_nat (String.length s))) by lia.
  destruct (Nat.le_gt_cases (String.length s) a) as [Hge|Hlt].
  - rewrite (drop_ge s a) by lia.
    rewrite (Z.min_r (Z.of_nat a)), Nat2Z.id by lia.
    rewrite (drop_ge s (String.length s)) by lia. by destruct (Z.to_nat _).
  - rewrite (Z.min_l (Z.of_nat a)), Nat2Z.id by lia.
    apply take_ge. rewrite length_drop. lia.
Qed.

Lemma slice_prefix s (n : nat) : Js.slice s 0 (Z.of_nat n) = Js.take n s.
Proof.
  change 0 with (Z.of_nat 0). replace (Z.of_nat n) with (Z.of_nat 0 + Z.of_nat n) at 1 by lia.
  rewrite slice_window, substring_take_drop. done.
Qed.

Lemma all_chars_app p s t : all_chars p (s +:+ t) = all_chars p s && all_chars p t.
Proof. induction s as [|c s IH]; simpl; [done | by rewrite IH, andb_assoc]. Qed.

Lemma all_chars_repeat p c n : p c = true -> all_chars p (Js.repeat c n) = true.
Proof. intros H. induction n as [|n IH]; simpl; [done | by rewrite H, IH]. Qed.

Lemma all_chars_impl (p q : ascii -> bool) s :
  (forall c, p c = true -> q c = true) -> all_chars p s = true -> all_chars q s = true.
Proof.
  intros Hpq. induction s as [|c s IH]; simpl; [done|].
  intros [Hc Hs]%andb_prop. rewrite (Hpq _ Hc). simpl. by apply IH.
Qed.

Lemma all_chars_drop p s n : all_chars p s = true -> all_chars p (Js.drop n s) = true.
Proof.
  revert n. induction s as [|c s IH]; intros [|n]; simpl; try done.
  intros [_ Hs]%andb_prop. by apply IH.
Qed.

Lemma all_chars_take p s n : all_chars p s = true -> all_chars p (Js.take n s) = true.
Proof.
  revert n. induction s as [|c s IH]; intros [|n]; simpl; try done.
  intros [Hc Hs]%andb_prop. rewrite Hc. simpl. by apply IH.
Qed.

End StringFacts.

(** ** Numerals *)

Section Numerals.

Variable radix : Z.
Hypothesis radix_bounds : 2 <= radix <= 16.

Implicit Types (s t : string) (n acc : Z).

Lemma digit_value_char d : 0 <= d < 16 -> BigInt.digit_value (BigInt.digit_char d) = Some d.
Proof.
  intros H.
  assert (d = 0 \/ d = 1 \/ d = 2 \/ d = 3 \/ d = 4 \/ d = 5 \/ d = 6 \/ d = 7 \/ d = 8
          \/ d = 9 \/ d = 10 \/ d = 11 \/ d = 12 \/ d = 13 \/ d = 14 \/ d = 15) as Hd by lia.
  repeat (destruct Hd as [->|Hd]; [reflexivity|]). by subst.
Qed.

Lemma digit_below_char d : 0 <= d < radix -> digit_below radix (BigInt.digit_char d) = true.
Proof.
  intros H. unfold digit_below. rewrite digit_value_char by lia.
  rewrite Ascii.eqb_refl, andb_true_r. apply Z.ltb_lt. lia.
Qed.

Lemma parse_digits_app acc s t :
  BigInt.parse_digits radix acc (s +:+ t)
  = BigInt.parse_digits radix acc s ≫= fun v => BigInt.parse_digits radix v t.
Proof.
  revert acc. induction s as [|c s IH]; intros acc; simpl; [done|].
  destruct (BigInt.digit_value c) as [d|]; [|done].
  destruct (d <? radix); [apply IH | done].
Qed.

Lemma parse_digits_shift s : forall acc k v,
  BigInt.parse_digits radix acc s = Some v ->
  BigInt.parse_digits radix (acc + k) s = Some (v + k * radix ^ Z.of_nat (String.length s)).
Proof.
  induction s as [|c s IH]; intros acc k v; simpl.
  - intros [= <-]. f_equal. lia.
  - destruct (BigInt.digit_value c) as [d|]; [|done].
    destruct (d <? radix); [|done]. intros H.
    replace ((acc + k) * radix + d) with ((acc * radix + d) + k * radix) by lia.
    rewrite (IH _ (k * radix) _ H). f_equal.
    rewrite Nat2Z.inj_succ, Z.pow_succ_r by lia. lia.
Qed.

Lemma parse_digits_zeros acc (k : nat) :
  BigInt.parse_digits radix acc (Js.repeat Js.zero k) = Some (acc * radix ^ Z.of_nat k).
Proof.
  revert acc. induction k as [|k IH]; intros acc.
  - simpl. f_equal. lia.
  - change (Js.repeat Js.zero (S k)) with (String Js.zero (Js.repeat Js.zero k)).
    cbn [BigInt.parse_digits]. change (BigInt.digit_value Js.zero) with (Some 0).
    cbv iota. destruct (Z.ltb_spec 0 radix) as [_|?]; [|lia].
    rewrite IH. f_equal. rewrite Nat2Z.inj_succ, Z.pow_succ_r by lia. lia.
Qed.

Lemma to_radix_aux_prints fuel : forall n rest,
  (0 < fuel)%nat -> 0 <= n < 2 ^ Z.of_nat fuel ->
  exists ds, BigInt.to_radix_aux radix fuel n rest = ds +:+ rest /\ prints radix n ds.
Proof.
  induction fuel as [|fuel IH]; intros n rest Hfuel Hn; [lia|].
  cbn [BigInt.to_radix_aux].
  assert (0 <= n mod radix < radix) as Hmod by (apply Z.mod_pos_bound; lia).
  assert (n = radix * (n / radix) + n mod radix) as Hdiv by (apply Z.div_mod; lia).
  assert (0 <= n / radix) as Hq by (apply Z.div_pos; lia).
  destruct (Z.eqb_spec (n / radix) 0) as [Hz|Hnz].
  - exists (String (BigInt.digit_char (n mod radix)) ""). split; [done|].
    assert (n mod radix = n) as Hnn by lia. rewrite Hnn in *.
    repeat split.
    + done.
    + simpl. by rewrite digit_below_char.
    + intros acc. simpl. rewrite digit_value_char by lia.
      destruct (Z.ltb_spec n radix); [|lia]. f_equal. lia.
    + intros k Hk _. simpl. lia.
  - assert (n / radix < 2 ^ Z.of_nat fuel) as Hlt.
    { apply Z.div_lt_upper_bound; [lia|].
      rewrite Nat2Z.inj_succ, Z.pow_succ_r in Hn by lia. nia. }
    assert (0 < fuel)%nat as Hfuel'.
    { destruct fuel; [simpl in Hlt; lia | lia]. }
    destruct (IH (n / radix) (String (BigInt.digit_char (n mod radix)) rest) Hfuel')
      as (ds & Heq & Hne & Hall & Hparse & Hlen); [lia|].
    exists (ds +:+ String (BigInt.digit_char (n mod radix)) "").
    split; [by rewrite Heq, str_app_assoc|].
    assert (String.length (ds +:+ String (BigInt.digit_char (n mod radix)) "")
            = S (String.length ds)) as Hl.
    { rewrite str_length_app. simpl. lia. }
    repeat split.
    + destruct ds; done.
    + rewrite all_chars_app, Hall. simpl. by rewrite digit_below_char.
    + intros acc. rewrite parse_digits_app, Hparse. simpl.
      rewrite digit_value_char by lia.
      destruct (Z.ltb_spec (n mod radix) radix); [|lia]. f_equal.
      rewrite Hl, Nat2Z.inj_succ, Z.pow_succ_r by lia. lia.
    + intros k Hk Hnk. rewrite Hl.
      destruct k as [|k]; [lia|]. 
      destruct k as [|k].
      { simpl in Hnk. rewrite Z.pow_1_r in Hnk.
        assert (n / radix = 0) by (apply Z.div_small; lia). lia. }
      apply le_n_S. apply Hlen; [lia|].
      apply Z.div_lt_upper_bound; [lia|].
      rewrite (Nat2Z.inj_succ (S k)), Z.pow_succ_r in Hnk by lia. lia.
Qed.

Lemma to_radix_prints n : 0 <= n -> prints radix n (BigInt.to_radix radix n).
Proof.
  intros Hn. unfold BigInt.to_radix.
  destruct (to_radix_aux_prints (S (Z.to_nat (Z.log2 n))) n "") as (ds & Heq & Hp).
  - lia.
  - split; [done|]. rewrite Nat2Z.inj_succ, Z2Nat.id by apply Z.log2_nonneg.
    destruct (Z.eq_dec n 0) as [->|Hnz]; [done|].
    apply Z.log2_spec. lia.
  - by rewrite Heq, str_app_nil_r.
Qed.

End Numerals.

(** A fact about one character is checked on the 256 of them. *)
Ltac by_character c := destruct c as [[] [] [] [] [] [] [] []]; done.

Section Characters.

Implicit Types (s t : string) (c : ascii).

Lemma digit_below_10_is_digit c : digit_below 10 c = true -> is_digit c = true.
Proof. by_character c. Qed.

Lemma digit_below_16_is_hex c : digit_below 16 c = true -> is_hex_char c = true.
Proof. by_character c. Qed.

Lemma is_digit_is_hex c : is_digit c = true -> is_hex_char c = true.
Proof. by_character c. Qed.

Lemma is_hex_no_space c : is_hex_char c = true -> no_space c = true.
Proof. by_character c. Qed.

Lemma is_digit_not_dot c : is_digit c = true -> not_char "." c = true.
Proof. by_character c. Qed.

Lemma is_hex_digit_value c :
  is_hex_char c = true -> exists d, BigInt.digit_value c = Some d /\ 0 <= d < 16.
Proof.
  intros H.
  assert (match BigInt.digit_value c with
          | Some d => (0 <=? d) && (d <? 16)
          | None => false
          end = true) as Hd by by_character c.
  destruct (BigInt.digit_value c) as [d|]; [|done].
  exists d. split; [done|]. apply andb_prop in Hd as [?%Z.leb_le ?%Z.ltb_lt]. lia.
Qed.

Lemma startsWith_cons a p b s :
  Js.startsWith (String b s) (String a p)
  = if ascii_dec a b then Js.startsWith s p else false.
Proof. reflexivity. Qed.

Lemma startsWith_inv s p : Js.startsWith s p = true -> exists t, s = p +:+ t.
Proof.
  revert s. induction p as [|a p IH]; intros s.
  - intros _. by exists s.
  - destruct s as [|b s]; [done|]. rewrite startsWith_cons.
    destruct (ascii_dec a b) as [->|]; [|done].
    intros [t ->]%IH. exists t. reflexivity.
Qed.

Lemma trimEnd_no_space s : all_chars no_space s = true -> Js.trimEnd s = s.
Proof.
  induction s as [|c s IH]; simpl; [done|].
  intros [Hc Hs]%andb_prop. rewrite (IH Hs).
  unfold no_space in Hc. apply negb_true_iff in Hc. rewrite Hc.
  by rewrite andb_false_r.
Qed.

Lemma trim_no_space s : all_chars no_space s = true -> Js.trim s = s.
Proof.
  intros H. unfold Js.trim.
  assert (Js.trimStart s = s) as ->; [|by apply trimEnd_no_space].
  destruct s as [|c s]; simpl in *; [done|].
  apply andb_prop in H as [Hc _]. unfold no_space in Hc.
  apply negb_true_iff in Hc. by rewrite Hc.
Qed.

(** A string of characters other than the separator is one part. *)
Lemma split_none sep s : all_chars (not_char sep) s = true -> Js.split sep s = [s].
Proof.
  induction s as [|c s IH]; simpl; [done|].
  intros [Hc Hs]%andb_prop. unfold not_char in Hc. apply negb_true_iff in Hc.
  by rewrite Hc, (IH Hs).
Qed.

Lemma split_two sep s t :
  all_chars (not_char sep) s = true -> all_chars (not_char sep) t = true ->
  Js.split sep (s +:+ String sep t) = [s; t].
Proof.
  intros Hs Ht. induction s as [|c s IH]; simpl.
  - by rewrite Ascii.eqb_refl, split_none.
  - apply andb_prop in Hs as [Hc Hs]. unfold not_char in Hc.
    apply negb_true_iff in Hc. by rewrite Hc, (IH Hs).
Qed.

(** Stripping the zeros that end a string and padding back to its length
    gives the string again. *)
Lemma stripTrailingZeros_padEnd s :
  Js.padEnd (Js.stripTrailingZeros s) (String.length s) Js.zero = s.
Proof.
  unfold Js.padEnd. induction s as [|c s IH]; [done|].
  cbn [Js.stripTrailingZeros].
  destruct (String.eqb_spec (Js.stripTrailingZeros s) "") as [He|Hne].
  - rewrite He in IH. simpl in IH. rewrite Nat.sub_0_r in IH.
    destruct (Ascii.eqb_spec c Js.zero) as [->|Hc]; simpl.
    + by rewrite IH.
    + rewrite He. simpl. by rewrite Nat.sub_0_r, IH.
  - simpl. by rewrite IH.
Qed.

Lemma all_chars_stripTrailingZeros p s :
  all_chars p s = true -> all_chars p (Js.stripTrailingZeros s) = true.
Proof.
  induction s as [|c s IH]; simpl; [done|].
  intros [Hc Hs]%andb_prop. destruct (_ && _); simpl; [done|].
  by rewrite Hc, IH.
Qed.

(** Only a string of zeros is stripped to nothing. *)
Lemma stripTrailingZeros_empty s :
  Js.stripTrailingZeros s = "" -> s = Js.repeat Js.zero (String.length s).
Proof.
  induction s as [|c s IH]; simpl; [done|].
  destruct (String.eqb_spec (Js.stripTrailingZeros s) "") as [He|Hne]; [|done].
  destruct (Ascii.eqb_spec c Js.zero) as [->|Hc]; simpl; [|done].
  intros _. by rewrite <- IH.
Qed.

End Characters.

Section Literals.

Implicit Types (s t ds : string) (c : ascii) (v : Z).

Lemma all_digits_no_space ds : all_chars is_digit ds = true -> all_chars no_space ds = true.
Proof.
  apply all_chars_impl. intros c H. by apply is_hex_no_space, is_digit_is_hex.
Qed.

(** A digit string does not start with a radix prefix or a sign. *)
Lemma digits_no_prefix ds (a b : ascii) :
  all_chars is_digit ds = true -> is_digit b = false ->
  Js.startsWith ds (String a (String b "")) = false.
Proof.
  intros Hds Hb. destruct (Js.startsWith ds _) eqn:E; [|done].
  apply startsWith_inv in E as [t ->]. simpl in Hds.
  rewrite Hb in Hds. by rewrite andb_false_r in Hds.
Qed.

Lemma digits_no_sign ds (a : ascii) :
  all_chars is_digit ds = true -> is_digit a = false ->
  Js.startsWith ds (String a "") = false.
Proof.
  intros Hds Ha. destruct (Js.startsWith ds _) eqn:E; [|done].
  apply startsWith_inv in E as [t ->]. simpl in Hds. by rewrite Ha in Hds.
Qed.

(** [BigInt] of a non-empty string of decimal digits is its value. *)
Lemma of_string_decimal ds v :
  ds <> "" -> all_chars is_digit ds = true ->
  BigInt.parse_digits 10 0 ds = Some v ->
  BigInt.of_string ds = Ok v.
Proof.
  intros Hne Hds Hv. unfold BigInt.of_string.
  rewrite trim_no_space by by apply all_digits_no_space.
  destruct (String.eqb_spec ds "") as [?|_]; [done|].
  rewrite !digits_no_prefix, !digits_no_sign by done. simpl.
  unfold BigInt.literal. rewrite Hv. destruct ds; [done|]. by rewrite Z.mul_1_l.
Qed.

(** [BigInt] of ["0x"] and one hex digit or more is the value of the digits. *)
Lemma of_string_hex w v :
  w <> "" -> all_chars is_hex_char w = true ->
  BigInt.parse_digits 16 0 w = Some v ->
  BigInt.of_string ("0x" +:+ w) = Ok v.
Proof.
  intros Hne Hw Hv. unfold BigInt.of_string.
  rewrite trim_no_space.
  2:{ simpl. by apply (all_chars_impl is_hex_char), Hw; apply is_hex_no_space. }
  simpl.
  unfold BigInt.literal. rewrite Hv. destruct w; [done|]. by rewrite Z.mul_1_l.
Qed.

Lemma parse_hex_total w : forall acc,
  all_chars is_hex_char w = true ->
  exists v, BigInt.parse_digits 16 acc w = Some v.
Proof.
  induction w as [|c w IH]; intros acc; simpl; [by eexists|].
  intros [Hc Hw]%andb_prop.
  destruct (is_hex_digit_value c Hc) as (d & -> & Hd).
  destruct (Z.ltb_spec d 16); [|lia]. by apply IH.
Qed.

Lemma toString_nonneg n : 0 <= n -> BigInt.toString n = BigInt.to_radix 10 n.
Proof.
  intros H. unfold BigInt.toString, BigInt.toString_radix.
  by destruct (Z.ltb_spec n 0); [lia|].
Qed.

Lemma toString_neg n : n < 0 -> BigInt.toString n = String "-" (BigInt.to_radix 10 (- n)).
Proof.
  intros H. unfold BigInt.toString, BigInt.toString_radix.
  by destruct (Z.ltb_spec n 0); [|lia].
Qed.

Lemma prints_decimal_digits n ds : prints 10 n ds -> all_chars is_digit ds = true.
Proof.
  intros (_ & H & _). revert H. apply all_chars_impl, digit_below_10_is_digit.
Qed.

(** [toString] of a non-negative integer: decimal digits that [BigInt]
    reads back. *)
Lemma toString_digits n :
  0 <= n ->
  BigInt.toString n <> "" /\ all_chars is_digit (BigInt.toString n) = true
  /\ forall acc, BigInt.parse_digits 10 acc (BigInt.toString n)
                 = Some (acc * 10 ^ Z.of_nat (String.length (BigInt.toString n)) + n).
Proof.
  intros H. rewrite toString_nonneg by done.
  pose proof (to_radix_prints 10 ltac:(lia) n H) as Hp.
  split; [apply Hp|]. split; [by eapply prints_decimal_digits|apply Hp].
Qed.

Lemma length_toString n (k : nat) :
  0 <= n < 10 ^ Z.of_nat k -> (1 <= k)%nat -> (String.length (BigInt.toString n) <= k)%nat.
Proof.
  intros [H0 Hk] H1. rewrite toString_nonneg by done.
  pose proof (to_radix_prints 10 ltac:(lia) n H0) as (_ & _ & _ & Hlen). by apply Hlen.
Qed.

Lemma take_padEnd_zero (d : nat) :
  Js.take d (Js.padEnd "0" d Js.zero) = Js.repeat Js.zero d.
Proof.
  destruct d as [|d]; [done|]. unfold Js.padEnd. simpl. rewrite Nat.sub_0_r.
  f_equal. apply take_ge. by rewrite length_repeat.
Qed.

End Literals.

(** ** The numeric codec round trip *)

Section RoundTrip.

Variables (v : Z) (decimals : nat).
Hypothesis v_nonneg : 0 <= v.

Let divisor := pow10 decimals.
Let q := Z.quot v divisor.
Let r := Z.rem v divisor.

Lemma divisor_pos : 0 < divisor.
Proof. unfold divisor, pow10. apply Z.pow_pos_nonneg; lia. Qed.

Lemma quot_rem_nonneg : 0 <= q /\ 0 <= r < divisor /\ v = q * divisor + r.
Proof.
  pose proof divisor_pos. unfold q, r.
  rewrite Z.quot_div_nonneg, Z.rem_mod_nonneg by lia.
  split; [apply Z.div_pos; lia|]. split; [apply Z.mod_pos_bound; lia|].
  rewrite (Z.div_mod v divisor) at 1 by lia. lia.
Qed.

(** Reading back an integer part and exactly [decimals] fractional digits. *)
Lemma parse_parts (frac : string) (f : Z) :
  String.length frac = decimals -> all_chars is_digit frac = true ->
  BigInt.parse_digits 10 0 frac = Some f ->
  BigInt.of_string (BigInt.toString q +:+ frac) = Ok (q * divisor + f).
Proof.
  intros Hlen Hfrac Hf.
  destruct quot_rem_nonneg as (Hq & _ & _).
  destruct (toString_digits q Hq) as (Hne & Hdig & Hparse).
  apply of_string_decimal.
  - destruct (BigInt.toString q); done.
  - by rewrite all_chars_app, Hdig, Hfrac.
  - rewrite parse_digits_app, Hparse. simpl.
    replace (0 * 10 ^ Z.of_nat (String.length (BigInt.toString q)) + q) with (0 + q) by lia.
    rewrite (parse_digits_shift 10 frac 0 q f Hf). f_equal.
    rewrite Hlen. unfold divisor, pow10. lia.
Qed.

(** The fractional digits that [formatWithDecimals] pads out. *)
Let fractionalStr := Js.padStart (BigInt.toString r) decimals Js.zero.

Lemma fractionalStr_digits :
  r <> 0 ->
  String.length fractionalStr = decimals
  /\ all_chars is_digit fractionalStr = true
  /\ BigInt.parse_digits 10 0 fractionalStr = Some r.
Proof.
  intros Hr. destruct quot_rem_nonneg as (_ & Hrb & _).
  assert (1 <= decimals)%nat as Hd.
  { destruct decimals; [|lia]. unfold divisor, pow10 in Hrb. simpl in Hrb. lia. }
  destruct (toString_digits r) as (Hne & Hdig & Hparse); [lia|].
  assert (String.length (BigInt.toString r) <= decimals)%nat as Hlen
    by (apply length_toString; [unfold divisor, pow10 in Hrb; lia | done]).
  unfold fractionalStr. split; [by apply length_padStart|]. split.
  - unfold Js.padStart. by rewrite all_chars_app, all_chars_repeat, Hdig.
  - unfold Js.padStart. rewrite parse_digits_app, parse_digits_zeros by lia. simpl.
    rewrite Hparse. f_equal.
Qed.

Lemma orDefault_nonempty s d : s <> "" -> Js.orDefault (Some s) d = s.
Proof. by destruct s. Qed.

Lemma all_digits_no_dot s : all_chars is_digit s = true -> all_chars (not_char ".") s = true.
Proof. apply all_chars_impl, is_digit_not_dot. Qed.

Lemma parse_format_integer :
  r = 0 -> parseWithDecimals (BigInt.toString q) decimals = Ok v.
Proof.
  intros Hr. destruct quot_rem_nonneg as (Hq & _ & Hv).
  destruct (toString_digits q Hq) as (Hne & Hdig & _).
  unfold parseWithDecimals. rewrite split_none by by apply all_digits_no_dot.
  change ([BigInt.toString q] !! 0%nat) with (Some (BigInt.toString q)).
  change (Js.orDefault ([BigInt.toString q] !! 1%nat) "0") with "0".
  rewrite orDefault_nonempty by done.
  rewrite slice_prefix, take_padEnd_zero.
  rewrite (parse_parts _ (0 * 10 ^ Z.of_nat decimals)).
  - f_equal. lia.
  - apply length_repeat.
  - by apply all_chars_repeat.
  - apply parse_digits_zeros. lia.
Qed.

Lemma parse_format_fraction :
  r <> 0 ->
  parseWithDecimals
    (BigInt.toString q +:+ "." +:+ Js.stripTrailingZeros fractionalStr) decimals = Ok v.
Proof.
  intros Hr. destruct quot_rem_nonneg as (Hq & _ & Hv).
  destruct (toString_digits q Hq) as (Hne & Hdig & _).
  destruct (fractionalStr_digits Hr) as (Hlen & Hfdig & Hfparse).
  assert (Js.stripTrailingZeros fractionalStr <> "") as Hstrip.
  { intros He%stripTrailingZeros_empty. rewrite He in Hfparse.
    rewrite parse_digits_zeros in Hfparse by lia. injection Hfparse as Hz. lia. }
  unfold parseWithDecimals.
  change (BigInt.toString q +:+ "." +:+ Js.stripTrailingZeros fractionalStr)
    with (BigInt.toString q +:+ String "." (Js.stripTrailingZeros fractionalStr)).
  rewrite split_two.
  2: by apply all_digits_no_dot.
  2: by apply all_digits_no_dot, all_chars_stripTrailingZeros.
  match goal with |- context [[?a; ?b] !! 0%nat] =>
    change ([a; b] !! 0%nat) with (Some a); change ([a; b] !! 1%nat) with (Some b) end.
  rewrite !orDefault_nonempty by done.
  rewrite <- Hlen at 1. rewrite stripTrailingZeros_padEnd.
  rewrite slice_prefix, take_ge by lia.
  rewrite (parse_parts _ r) by done. f_equal. lia.
Qed.

Lemma format_then_parse :
  exists s, formatWithDecimals (VBigInt v) decimals = Ok s
            /\ parseWithDecimals s decimals = Ok v.
Proof.
  unfold formatWithDecimals. simpl. fold divisor. fold q. fold r.
  destruct (Z.eqb_spec r 0) as [Hr|Hr].
  - eexists. split; [done|]. by apply parse_format_integer.
  - eexists. split; [done|]. by apply parse_format_fraction.
Qed.

End RoundTrip.

(** C3.  Formatting a non-negative integer with up to 18 decimals and
    parsing the text back with the same count gives the integer again. *)
Theorem parse_format_round_trip (v : Z) (d : nat) :
  0 <= v -> (d <= 18)%nat ->
  exists s, formatWithDecimals (VBigInt v) d = Ok s /\ parseWithDecimals s d = Ok v.
Proof. intros Hv _. by apply format_then_parse. Qed.

Lemma parse_format_round_trip_witness :
  exists s, formatWithDecimals (VBigInt 1500000000000000000) 18 = Ok s
            /\ parseWithDecimals s 18 = Ok 1500000000000000000.
Proof. apply parse_format_round_trip; lia. Defined.

Section NegativeValues.

Variables (v : Z) (d : nat).
Hypothesis v_negative : v < 0.
Hypothesis v_multiple : Z.rem v (pow10 d) = 0.

Let q := Z.quot v (pow10 d).

Lemma quotient_negative : q < 0.
Proof.
  assert (0 < pow10 d) by (apply Z.pow_pos_nonneg; lia).
  pose proof (Z.quot_rem' v (pow10 d)) as H'. fold q in H'. rewrite v_multiple in H'.
  nia.
Qed.

Lemma toString_quotient :
  exists ds, BigInt.toString q = String "-" ds /\ ds <> "" /\ all_chars is_digit ds = true.
Proof.
  pose proof quotient_negative as Hq.
  exists (BigInt.to_radix 10 (- q)). split; [by apply toString_neg|].
  pose proof (to_radix_prints 10 ltac:(lia) (- q) ltac:(lia)) as Hp.
  split; [apply Hp | by eapply prints_decimal_digits].
Qed.

Lemma signed_integer_alone : sign_on_integer_part_only (BigInt.toString q) d = true.
Proof.
  destruct toString_quotient as (ds & -> & Hne & Hds).
  unfold sign_on_integer_part_only, integer_segment, fractional_segment.
  change (String "-" ds) with ("-" +:+ ds).
  rewrite split_none.
  2:{ simpl. by apply all_digits_no_dot. }
  simpl. rewrite Hds. destruct ds; done.
Qed.

Lemma padStart_zero_digit (k : nat) :
  (1 <= k)%nat -> Js.padStart (BigInt.toString 0) k Js.zero = Js.repeat Js.zero k.
Proof.
  intros Hk. change (BigInt.toString 0) with (String Js.zero "").
  unfold Js.padStart. simpl String.length. destruct k as [|k]; [lia|].
  rewrite repeat_snoc. f_equal. f_equal. lia.
Qed.

Lemma formatValue_multiple :
  (1 <= d)%nat ->
  formatValue v d = BigInt.toString q +:+ "." +:+ Js.repeat Js.zero d.
Proof.
  intros Hd. unfold formatValue. fold q. rewrite v_multiple.
  by rewrite padStart_zero_digit.
Qed.

Lemma formatValue_multiple_shape :
  (1 <= d)%nat ->
  sign_on_integer_part_only (formatValue v d) d = true
  /\ String.length (fractional_segment (formatValue v d)) = d.
Proof.
  intros Hd. rewrite formatValue_multiple by done.
  destruct toString_quotient as (ds & -> & Hne & Hds).
  unfold sign_on_integer_part_only, integer_segment, fractional_segment.
  change (String "-" ds +:+ "." +:+ Js.repeat Js.zero d)
    with (String "-" ds +:+ String "." (Js.repeat Js.zero d)).
  rewrite split_two.
  2:{ simpl. by apply all_digits_no_dot. }
  2:{ by apply all_chars_repeat. }
  simpl. rewrite Hds, all_chars_repeat, length_repeat by done.
  split; [|done]. destruct ds; [done|]. simpl. by apply Nat.leb_le.
Qed.

Lemma formatWithDecimals_multiple :
  formatWithDecimals (VBigInt v) d = Ok (BigInt.toString q).
Proof. unfold formatWithDecimals. simpl. by rewrite v_multiple. Qed.

End NegativeValues.

Lemma weiToEther_multiple (v : Z) :
  Z.rem v (pow10 18) = 0 -> weiToEther (VBigInt v) = Ok (BigInt.toString (Z.quot v (pow10 18))).
Proof. intros H. unfold weiToEther. simpl. by rewrite H. Qed.

(** C4, as the code has it.  A negative value that is a multiple of
    [10^d] is formatted with the minus sign on the integer part only:
    [formatValue] gives the signed quotient, a point and [d] zeros;
    [formatWithDecimals] and, for 18 decimals, [weiToEther] give the signed
    quotient alone. *)
Theorem negative_multiple_sign_on_integer_part (v : Z) (d : nat) :
  v < 0 -> (1 <= d <= 18)%nat -> Z.rem v (pow10 d) = 0 ->
  let q := Z.quot v (pow10 d) in
  formatValue v d = BigInt.toString q +:+ "." +:+ Js.repeat Js.zero d
  /\ sign_on_integer_part_only (formatValue v d) d = true
  /\ String.length (fractional_segment (formatValue v d)) = d
  /\ formatWithDecimals (VBigInt v) d = Ok (BigInt.toString q)
  /\ (d = 18%nat -> weiToEther (VBigInt v) = Ok (BigInt.toString q))
  /\ sign_on_integer_part_only (BigInt.toString q) d = true.
Proof.
  intros Hv [Hd _] Hm q.
  split; [by apply formatValue_multiple|].
  split; [by apply formatValue_multiple_shape|].
  split; [by apply formatValue_multiple_shape|].
  split; [by apply formatWithDecimals_multiple|].
  split; [intros ->; by apply weiToEther_multiple|].
  by apply signed_integer_alone.
Qed.

Lemma negative_multiple_sign_on_integer_part_witness :
  formatValue (-2000000000000000000) 18 = "-2.000000000000000000"
  /\ formatWithDecimals (VBigInt (-2000000000000000000)) 18 = Ok "-2"
  /\ weiToEther (VBigInt (-2000000000000000000)) = Ok "-2".
Proof.
  destruct (negative_multiple_sign_on_integer_part (-2000000000000000000) 18)
    as (H1 & _ & _ & H2 & H3 & _); [lia | lia | reflexivity |].
  split; [exact H1|]. split; [exact H2 | exact (H3 eq_refl)].
Defined.

(** C4, as the specification has it, fails: the remainder of a negative
    value is negative and its sign is printed among the fractional
    digits. *)
Lemma negative_fraction_carries_sign :
  -15 < 0 /\ (1 <= 1 <= 18)%nat
  /\ formatValue (-15) 1 = "-1.-5"
  /\ fractional_segment (formatValue (-15) 1) = "-5"
  /\ sign_on_integer_part_only (formatValue (-15) 1) 1 = false
  /\ formatWithDecimals (VBigInt (-15)) 1 = Ok "-1.-5"
  /\ weiToEther (VBigInt (-1500000000000000000)) = Ok "-1.-5".
Proof. repeat split; try lia; reflexivity. Qed.

(** ** The encoder *)

Section Uint256.

Variable v : Z.
Hypothesis v_range : 0 <= v < 2 ^ 256.

Let hex := BigInt.toString_radix 16 v.

Lemma hex_prints : prints 16 v hex.
Proof.
  unfold hex, BigInt.toString_radix. destruct (Z.ltb_spec v 0); [lia|].
  apply to_radix_prints; lia.
Qed.

Lemma length_hex : (String.length hex <= 64)%nat.
Proof.
  destruct hex_prints as (_ & _ & _ & Hlen). apply Hlen; [lia|].
  change (16 ^ Z.of_nat 64) with (2 ^ 256). lia.
Qed.

Lemma encodeUint256_in_range :
  encodeUint256 (VBigInt v) = Ok (Js.repeat Js.zero (64 - String.length hex) +:+ hex)
  /\ String.length (Js.repeat Js.zero (64 - String.length hex) +:+ hex) = 64%nat
  /\ all_chars is_hex_char (Js.repeat Js.zero (64 - String.length hex) +:+ hex) = true
  /\ BigInt.parse_digits 16 0 (Js.repeat Js.zero (64 - String.length hex) +:+ hex) = Some v.
Proof.
  pose proof length_hex as Hlen. pose proof hex_prints as (Hne & Hall & Hparse & _).
  split; [done|]. split; [|split].
  - rewrite str_length_app, length_repeat. lia.
  - rewrite all_chars_app, all_chars_repeat by done. simpl.
    revert Hall. apply all_chars_impl, digit_below_16_is_hex.
  - rewrite parse_digits_app, parse_digits_zeros by lia. simpl.
    rewrite Hparse. f_equal.
Qed.

End Uint256.

(** C6, as the code has it.  [encodeUint256] checks no range: it returns a
    string for every integer, and for an integer in [0, 2^256) the string
    is its hexadecimal, left-padded with zeros to 64 characters. *)
Theorem encodeUint256_padded_hex (v : Z) :
  is_Ok (encodeUint256 (VBigInt v)) = true
  /\ (0 <= v < 2 ^ 256 ->
      let hex := BigInt.toString_radix 16 v in
      let word := Js.repeat Js.zero (64 - String.length hex) +:+ hex in
      encodeUint256 (VBigInt v) = Ok word
      /\ String.length word = 64%nat
      /\ all_chars is_hex_char word = true
      /\ BigInt.parse_digits 16 0 word = Some v).
Proof. split; [done|]. intros Hv. by apply encodeUint256_in_range. Qed.

Lemma encodeUint256_padded_hex_witness :
  encodeUint256 (VBigInt 1000000000000000000)
  = Ok "0000000000000000000000000000000000000000000000000de0b6b3a7640000".
Proof.
  destruct (encodeUint256_padded_hex 1000000000000000000) as [_ H].
  destruct H as (H & _); [lia | exact H].
Defined.

(** C6, as the specification has it, fails: a negative integer and one of
    257 bits are both encoded, to strings that are not a word. *)
Lemma encodeUint256_out_of_range :
  -5 < 0 /\ 2 ^ 256 <= 2 ^ 256
  /\ encodeUint256 (VBigInt (-5))
     = Ok "00000000000000000000000000000000000000000000000000000000000000-5"
  /\ encodeUint256 (VBigInt (2 ^ 256))
     = Ok "10000000000000000000000000000000000000000000000000000000000000000"
  /\ encodeUint256 (VString "-5")
     = Ok "00000000000000000000000000000000000000000000000000000000000000-5"
  /\ encodeParameters ["uint256"] [VBigInt (-5)]
     = Ok "00000000000000000000000000000000000000000000000000000000000000-5".
Proof. repeat split; try lia; reflexivity. Qed.

Section Encoder.

Implicit Types (types : list string) (values : list JsValue) (encoded : string).

Lemma length_toLowerCase s : String.length (Js.toLowerCase s) = String.length s.
Proof. induction s as [|c s IH]; simpl; [done | by rewrite IH]. Qed.

Lemma precomputed_values input hash :
  precomputed !! input = Some hash ->
  String.length hash = 10%nat /\ Js.startsWith hash "0x" = true.
Proof.
  intros H. apply elem_of_list_to_map_2 in H.
  repeat (apply elem_of_cons in H as [[= -> ->]|H]; [by split|]).
  by apply elem_of_nil in H.
Qed.

Lemma selector_shape functionName types :
  String.length (getFunctionSelector functionName types) = 10%nat
  /\ Js.startsWith (getFunctionSelector functionName types) "0x" = true.
Proof.
  unfold getFunctionSelector, simpleKeccak256.
  destruct (precomputed !! _) as [hash|] eqn:E; [|by split].
  destruct (precomputed_values _ _ E) as [Hlen Hpre].
  assert (Js.orDefault (Some hash) "0x00000000" = hash) as -> by by destruct hash.
  change 10 with (Z.of_nat 10). rewrite slice_prefix, take_ge by lia. by split.
Qed.

Lemma word_fits type value :
  fits_word type value = true ->
  exists w, word type value = Ok w /\ String.length w = 64%nat.
Proof.
  unfold fits_word, word, encodeParameters. cbn [encodeParameters_loop hd].
  destruct (String.eqb type "bytes32").
  { destruct value as [|s| |]; try done. unfold encodeBytes32. simpl.
    destruct (Js.startsWith s "0x").
    - intros H%Nat.leb_le. eexists. split; [done|]. simpl.
      change 2 with (Z.of_nat 2). rewrite slice_from_nat. by apply length_padEnd.
    - intros H%Nat.leb_le. eexists. split; [done|]. simpl. by apply length_padEnd. }
  destruct (String.eqb type "address").
  { destruct value as [|s| |]; try done. unfold encodeAddress. simpl.
    intros H%Nat.leb_le. eexists. split; [done|]. simpl.
    apply length_padStart. change 2 with (Z.of_nat 2). by rewrite slice_from_nat. }
  destruct (String.eqb type "uint256"); [|done].
  unfold encodeUint256. destruct (BigInt_of value) as [v|] eqn:E; [|done]. simpl.
  intros [H0%Z.leb_le H1%Z.ltb_lt]%andb_prop. eexists. split; [done|]. simpl.
  apply length_padStart. apply length_hex. lia.
Qed.

Lemma encodeParameters_loop_cons type types value values encoded w :
  word type value = Ok w ->
  encodeParameters_loop (type :: types) (value :: values) encoded
  = encodeParameters_loop types values (encoded +:+ w).
Proof.
  unfold word, encodeParameters. cbn [encodeParameters_loop hd tl].
  destruct (if String.eqb type "bytes32" then _ else _) as [w'|]; simpl; [|done].
  by intros [= <-].
Qed.

Lemma encodeParameters_loop_fits types : forall values encoded,
  Forall2 (fun type value => fits_word type value = true) types values ->
  exists ws,
    Forall3 (fun type value w => word type value = Ok w /\ String.length w = 64%nat)
      types values ws
    /\ encodeParameters_loop types values encoded = Ok (encoded +:+ foldr String.append "" ws).
Proof.
  induction types as [|type types IH]; intros values encoded Hfit.
  - apply Forall2_nil_inv_l in Hfit as ->. exists []. split; [constructor|].
    simpl. by rewrite str_app_nil_r.
  - apply Forall2_cons_inv_l in Hfit as (value & values' & Hv & Hrest & ->).
    destruct (word_fits _ _ Hv) as (w & Hw & Hlen).
    destruct (IH values' (encoded +:+ w) Hrest) as (ws & Hws & Heq).
    exists (w :: ws). split; [by constructor|].
    rewrite (encodeParameters_loop_cons _ _ _ _ _ w Hw), Heq. simpl.
    by rewrite str_app_assoc.
Qed.

Lemma length_words types values ws :
  Forall3 (fun type value w => word type value = Ok w /\ String.length w = 64%nat)
    types values ws ->
  String.length (foldr String.append "" ws) = (64 * length types)%nat.
Proof.
  induction 1 as [|type value w types values ws [_ Hlen] _ IH]; [done|].
  simpl foldr. rewrite str_length_app, Hlen, IH. simpl length. lia.
Qed.

End Encoder.

(** C5, as the code has it.  When every value fits the word of its tag
    (for an address, when the lower-cased text that the encoder pads has
    at most 64 characters), the call data is the ten-character selector
    followed by one 64-character word per parameter, in order:
    [10 + 64 * N] characters. *)
Theorem call_data_length (functionName : string) (types : list string)
    (values : list JsValue) :
  Forall2 (fun type value => fits_word type value = true) types values ->
  exists ws,
    Forall3 (fun type value w => word type value = Ok w /\ String.length w = 64%nat)
      types values ws
    /\ encodeFunctionCall functionName types values
       = Ok (getFunctionSelector functionName types +:+ foldr String.append "" ws)
    /\ String.length (getFunctionSelector functionName types) = 10%nat
    /\ Js.startsWith (getFunctionSelector functionName types) "0x" = true
    /\ String.length (getFunctionSelector functionName types +:+ foldr String.append "" ws)
       = (10 + 64 * length types)%nat.
Proof.
  intros Hfit.
  destruct (encodeParameters_loop_fits types values "" Hfit) as (ws & Hws & Heq).
  destruct (selector_shape functionName types) as [Hlen Hpre].
  exists ws. split; [done|]. split; [|split; [done|split; [done|]]].
  - unfold encodeFunctionCall, encodeParameters. by rewrite Heq.
  - by rewrite str_length_app, Hlen, (length_words types values ws).
Qed.

Lemma call_data_length_witness :
  exists ws,
    encodeFunctionCall "transfer" ["address"; "uint256"]
      [VString "0x742d35Cc6634C0532925a3b844Bc9e7595f1dE00"; VBigInt 1000000000000000000]
    = Ok ("0xa9059cbb" +:+ foldr String.append "" ws)
    /\ String.length ("0xa9059cbb" +:+ foldr String.append "" ws) = 138%nat.
Proof.
  destruct (call_data_length "transfer" ["address"; "uint256"]
              [VString "0x742d35Cc6634C0532925a3b844Bc9e7595f1dE00";
               VBigInt 1000000000000000000])
    as (ws & _ & H1 & _ & _ & H2).
  - repeat constructor.
  - exists ws. split; [exact H1 | exact H2].
Defined.

(** C5, as the specification has it, fails: a feed name of more than 32
    bytes, passed as [bytes32] as it is or in the form that
    [dapiNameToBytes32] gives it for [readDAPIValue], makes a parameter of
    more than one word. *)
Lemma call_data_overlong :
  known_tag "bytes32" = true
  /\ length ["bytes32"] = length [VString "WRAPPED-STAKED-ETHER/UNITED-STATES-DOLLAR"]
  /\ (exists data,
        encodeFunctionCall "readDataFeedWithDapiName" ["bytes32"]
          [VString "WRAPPED-STAKED-ETHER/UNITED-STATES-DOLLAR"] = Ok data
        /\ String.length data = 92%nat
        /\ String.length data <> (10 + 64 * 1)%nat)
  /\ (exists data,
        encodeFunctionCall "readDataFeedWithDapiName" ["bytes32"]
          [VString (dapiNameToBytes32 "WRAPPED-STAKED-ETHER/UNITED-STATES-DOLLAR")] = Ok data
        /\ String.length data = 92%nat
        /\ String.length data <> (10 + 64 * 1)%nat).
Proof.
  split; [done|]. split; [done|].
  split; (eexists; split; [reflexivity|]; by split).
Qed.

(** ** The decoder *)

Section Decoder.

Implicit Types (hex : string) (offset k : nat).

Lemma clean_prefixed hex : Js.startsWith hex "0x" = true -> clean hex = Js.drop 2 hex.
Proof.
  intros H. unfold clean. rewrite H. change 2 with (Z.of_nat 2). apply slice_from_nat.
Qed.

Lemma clean_bare hex : Js.startsWith hex "0x" = false -> clean hex = hex.
Proof. intros H. unfold clean. by rewrite H. Qed.

Lemma length_substring s (a w : nat) :
  (a + w <= String.length s)%nat -> String.length (substring a w s) = w.
Proof. intros H. rewrite substring_take_drop, length_take, length_drop. lia. Qed.

Lemma substring_nonempty s (a w : nat) :
  (a < String.length s)%nat -> (0 < w)%nat -> substring a w s <> "".
Proof.
  intros Ha Hw He. apply (f_equal String.length) in He.
  rewrite substring_take_drop, length_take, length_drop in He. simpl in He. lia.
Qed.

(** The word that a decoder cuts out at a natural [offset]. *)
Lemma valueHex_window hex offset :
  Js.slice (clean hex) (Z.of_nat offset) (Z.of_nat offset + 64)
  = substring offset 64 (clean hex).
Proof. change 64 with (Z.of_nat 64). apply slice_window. Qed.

Lemma decodeUint256_at hex offset :
  decodeUint256 hex (Some (Z.of_nat offset))
  = BigInt.of_string ("0x" +:+ substring offset 64 (clean hex)).
Proof. unfold decodeUint256. cbv [default from_option id]. by rewrite valueHex_window. Qed.

Lemma decodeUint32_at hex offset :
  decodeUint32 hex (Some (Z.of_nat offset))
  = (v ← BigInt.of_string ("0x" +:+ substring offset 64 (clean hex));
     Ok (BigInt.toNumber v)).
Proof. unfold decodeUint32. cbv [default from_option id]. by rewrite valueHex_window. Qed.

Lemma decodeInt224_at hex :
  decodeInt224 hex = BigInt.of_string ("0x" +:+ substring 0 64 (clean hex)).
Proof.
  unfold decodeInt224. change 0 with (Z.of_nat 0) at 1.
  change 64 with (Z.of_nat 0 + Z.of_nat 64) at 1. by rewrite slice_window.
Qed.

Lemma substring_past_end s (a w : nat) : (String.length s <= a)%nat -> substring a w s = "".
Proof. intros H. rewrite substring_take_drop, drop_ge by done. by destruct w. Qed.

Lemma clean_0x s : clean ("0x" +:+ s) = s.
Proof.
  rewrite clean_prefixed; [done|].
  change ("0x" +:+ s) with (String "0" (String "x" s)).
  rewrite !startsWith_cons. simpl. by destruct s.
Qed.

(** A word is the window that starts where the text in front of it ends. *)
Lemma window_of_word (before word after : string) :
  substring (String.length before) (String.length word) (before +:+ word +:+ after) = word.
Proof.
  induction before as [|c before IH]; simpl; [|done].
  induction word as [|c word IH]; simpl; [by destruct after | by rewrite IH].
Qed.

End Decoder.

(** C7, as the code has it.  The offset of the unsigned decoders counts
    hex characters of the stripped response.  Wherever a word of 64 hex
    digits stands in the response, behind the optional [0x], the decoders
    called with the number of characters in front of it return the
    integer that the 64 digits write, [decodeUint32] as the double
    nearest to it; when the word is the one that [encodeUint256] writes
    for an integer, that integer is what they return.  The word at byte
    [k] is the one with [2 * k] characters in front.  Without an offset
    [decodeUint256] reads the word at character 0 and [decodeUint32] the
    word at character 64, which is byte 32. *)
Theorem decode_word_position (before word after : string) :
  String.length word = 64%nat ->
  all_chars is_hex_char word = true ->
  let stripped := before +:+ word +:+ after in
  let offset := Z.of_nat (String.length before) in
  exists v,
    BigInt.parse_digits 16 0 word = Some v
    /\ (forall u, 0 <= u < 2 ^ 256 -> encodeUint256 (VBigInt u) = Ok word -> v = u)
    /\ forall hex,
         hex = "0x" +:+ stripped \/ (hex = stripped /\ Js.startsWith stripped "0x" = false) ->
         decodeUint256 hex (Some offset) = Ok v
         /\ decodeUint32 hex (Some offset) = Ok (BigInt.toNumber v)
         /\ (String.length before = 0%nat -> decodeUint256 hex None = Ok v)
         /\ (String.length before = (2 * 32)%nat ->
             decodeUint32 hex None = Ok (BigInt.toNumber v)).
Proof.
  intros Hlen Hhex stripped offset.
  destruct (parse_hex_total word 0 Hhex) as [v Hv]. exists v. split; [done|]. split.
  { intros u Hu He. destruct (encodeUint256_in_range u Hu) as (He' & _ & _ & Hp).
    rewrite He' in He. injection He as He. rewrite He, Hv in Hp. by injection Hp. }
  intros hex Hcases.
  assert (clean hex = stripped) as Hclean.
  { destruct Hcases as [->|[-> Hbare]]; [apply clean_0x | by apply clean_bare]. }
  assert (BigInt.of_string ("0x" +:+ substring (String.length before) 64 (clean hex)) = Ok v)
    as Hword.
  { rewrite Hclean. unfold stripped. rewrite <- Hlen at 1. rewrite window_of_word.
    apply of_string_hex; [|done|done]. intros ->. by simpl in Hlen. }
  assert (decodeUint256 hex (Some offset) = Ok v) as H256
    by (unfold offset; by rewrite decodeUint256_at).
  assert (decodeUint32 hex (Some offset) = Ok (BigInt.toNumber v)) as H32
    by (unfold offset; by rewrite decodeUint32_at, Hword).
  split; [done|]. split; [done|]. split; intros Hbefore.
  - change (decodeUint256 hex None) with (decodeUint256 hex (Some (Z.of_nat 0))).
    by rewrite <- Hbefore.
  - change (decodeUint32 hex None) with (decodeUint32 hex (Some (Z.of_nat (2 * 32)))).
    by rewrite <- Hbefore.
Qed.

Lemma decode_word_position_witness :
  decodeUint256
    "0x000000000000000000000000000000000000000000000000000000000000002a000000000000000000000000000000000000000000000000000000006553F100ff"
    (Some 64) = Ok 1700000000
  /\ decodeUint32
       "0x000000000000000000000000000000000000000000000000000000000000002a000000000000000000000000000000000000000000000000000000006553F100ff"
       None = Ok 1700000000.
Proof.
  pose proof (decode_word_position
                "000000000000000000000000000000000000000000000000000000000000002a"
                "000000000000000000000000000000000000000000000000000000006553F100" "ff"
                eq_refl eq_refl) as H.
  cbv zeta in H. destruct H as (v & Hv & _ & H).
  assert (v = 1700000000) as -> by (vm_compute in Hv; congruence).
  destruct (H _ (or_introl eq_refl)) as (H256 & _ & _ & H32).
  split; [exact H256 | exact (H32 eq_refl)].
Defined.

(** C7, as the specification has it, fails: the offset is no count of
    bytes.  In a response of two words, the word at byte 32 is the second
    one, which starts at character 64; the decoders called with 32 read
    the 64 characters that start at character 32, the end of the first
    word and the beginning of the second. *)
Lemma offset_counts_hex_characters :
  let hex :=
    "0x000000000000000000000000000000000000000000000000000000000000002a0000000000000000000000000000000000000000000000000000000000000064" in
  substring (2 * 32) 64 (clean hex)
  = "0000000000000000000000000000000000000000000000000000000000000064"
  /\ BigInt.of_string
       "0x0000000000000000000000000000000000000000000000000000000000000064" = Ok 100
  /\ decodeUint256 hex (Some 32) = Ok (42 * 2 ^ 128)
  /\ decodeUint32 hex (Some 32) = Ok (42 * 2 ^ 128)
  /\ decodeUint256 hex (Some 32) <> Ok 100
  /\ decodeUint256 hex (Some 64) = Ok 100.
Proof. repeat split; try reflexivity. intros H. vm_compute in H. discriminate H. Qed.

(** C2, as the code has it.  The decoders check no length.  They fail,
    with the SyntaxError of [BigInt] on a bare [0x], when the stripped
    response has no character at the offset; a response of hex digits
    that ends inside the word is decoded from the digits that are there. *)
Theorem decode_short_response (hex : string) (offset : nat) :
  ((String.length (clean hex) <= offset)%nat ->
   decodeUint256 hex (Some (Z.of_nat offset)) = Throw SyntaxError
   /\ decodeUint32 hex (Some (Z.of_nat offset)) = Throw SyntaxError
   /\ (offset = 0%nat -> decodeInt224 hex = Throw SyntaxError))
  /\ ((offset < String.length (clean hex))%nat ->
      all_chars is_hex_char (clean hex) = true ->
      exists v,
        BigInt.parse_digits 16 0 (substring offset 64 (clean hex)) = Some v
        /\ decodeUint256 hex (Some (Z.of_nat offset)) = Ok v
        /\ decodeUint32 hex (Some (Z.of_nat offset)) = Ok (BigInt.toNumber v)
        /\ (offset = 0%nat -> decodeInt224 hex = Ok v)).
Proof.
  split.
  - intros Hshort.
    rewrite decodeUint256_at, decodeUint32_at, decodeInt224_at.
    rewrite substring_past_end by done. split; [done|]. split; [done|].
    intros ->. by rewrite substring_past_end.
  - intros Hin Hhex.
    assert (all_chars is_hex_char (substring offset 64 (clean hex)) = true) as Hw
      by (rewrite substring_take_drop; by apply all_chars_take, all_chars_drop).
    destruct (parse_hex_total _ 0 Hw) as [v Hv].
    assert (BigInt.of_string ("0x" +:+ substring offset 64 (clean hex)) = Ok v) as Hof
      by (apply of_string_hex; [by apply substring_nonempty; lia | done | done]).
    exists v. rewrite decodeUint256_at, decodeUint32_at, decodeInt224_at, Hof.
    split; [done|]. split; [done|]. split; [done|]. intros ->. by rewrite Hof.
Qed.

Lemma decode_short_response_witness :
  decodeUint256 "0x" (Some (Z.of_nat 0)) = Throw SyntaxError
  /\ exists v, decodeUint256 "0x2a" (Some (Z.of_nat 0)) = Ok v.
Proof.
  split.
  - destruct (decode_short_response "0x" 0) as [H _].
    destruct H as (H & _); [vm_compute; lia | exact H].
  - destruct (decode_short_response "0x2a" 0) as [_ H].
    destruct H as (v & _ & H & _); [vm_compute; lia | reflexivity |].
    exists v. exact H.
Defined.

(** C2, as the specification has it, fails: a response of one byte is
    shorter than a word, and each decoder returns a value for it. *)
Lemma decode_truncated_word :
  (String.length (clean "0x2a") < 2 * 0 + 64)%nat
  /\ decodeUint256 "0x2a" None = Ok 42
  /\ decodeUint256 "0x2a" (Some 0) = Ok 42
  /\ decodeUint32 "0x2a" (Some 0) = Ok 42
  /\ decodeInt224 "0x2a" = Ok 42
  /\ (String.length (clean "0x000000000000000000000000000000000000000000000000000000000000006400000001") < 2 * 32 + 64)%nat
  /\ decodeUint32 "0x000000000000000000000000000000000000000000000000000000000000006400000001" None = Ok 1.
Proof. repeat split; try (vm_compute; lia); reflexivity. Qed.

(** ** The selector *)

(** C1.  A signature that is not in the table resolves, without any
    failure, to the selector of eight zeros. *)
Theorem unknown_signature_zero_selector (functionName : string) (types : list string) :
  precomputed !! signature functionName types = None ->
  getFunctionSelector functionName types = "0x00000000".
Proof. intros H. unfold getFunctionSelector, simpleKeccak256. by rewrite H. Qed.

Lemma unknown_signature_zero_selector_witness :
  getFunctionSelector "proposal" ["uint256"] = "0x00000000"
  /\ getFunctionSelector "castVote" ["uint256"; "uint8"] = "0x00000000".
Proof.
  split; apply unknown_signature_zero_selector; reflexivity.
Defined.

(** ** The registry *)

Lemma not_in_registry network :
  network ∉ explorers.*1 -> NETWORK_CONFIGS !! network = None.
Proof. intros H. by apply not_elem_of_list_to_map_1. Qed.

Lemma not_inherited network :
  network ∉ inherited_names -> Js.Object_prototype !! network = None.
Proof. intros H. by apply not_elem_of_list_to_map_1. Qed.

Lemma lookupConfig_unknown network :
  network ∉ explorers.*1 -> network ∉ inherited_names -> lookupConfig network = None.
Proof.
  intros H1 H2. unfold lookupConfig. by rewrite not_in_registry, not_inherited.
Qed.

Lemma lookupConfig_inherited network :
  network ∈ inherited_names -> exists name, lookupConfig network = Some (Inherited name).
Proof.
  intros H. unfold inherited_names in H.
  repeat (apply elem_of_cons in H as [->|H]; [by eexists|]). by apply elem_of_nil in H.
Qed.

(** The table of selectors is a plain object too, and is read with a
    signature: a signature holds a parenthesis, which none of the
    inherited names does, so that the lookup finds own properties only. *)
Lemma signature_not_inherited functionName types :
  Js.Object_prototype !! signature functionName types = None.
Proof.
  apply not_inherited. intros H.
  assert (all_chars (not_char "(") (signature functionName types) = false) as Hs.
  { unfold signature. rewrite all_chars_app. by destruct (all_chars _ functionName). }
  unfold inherited_names in H.
  repeat (apply elem_of_cons in H as [He|H]; [by rewrite He in Hs|]).
  by apply elem_of_nil in H.
Qed.

(** C10, on the code.  For each of the twenty networks of the registry
    the explorer helpers join its explorer URL with the path, and
    [getNetworkConfig] returns its entry.  For a name that is neither in
    the registry nor inherited by every object, the helpers return the
    empty string and [getNetworkConfig] throws.  Under a name that the
    registry inherits from [Object.prototype], [constructor] or
    [toString] say, the lookup finds the inherited value: the helpers
    return a URL that begins with [undefined] and [getNetworkConfig]
    returns the value without throwing. *)
Theorem explorer_urls (network txHash address : string) :
  (forall explorerUrl,
     (network, explorerUrl) ∈ explorers ->
     getExplorerTxUrl network txHash = explorerUrl +:+ "/tx/" +:+ txHash
     /\ getExplorerAddressUrl network address = explorerUrl +:+ "/address/" +:+ address
     /\ exists config,
          getNetworkConfig network = Ok (Entry config)
          /\ NetworkConfig.explorerUrl config = explorerUrl)
  /\ (network ∉ explorers.*1 -> network ∉ inherited_names ->
      getExplorerTxUrl network txHash = ""
      /\ getExplorerAddressUrl network address = ""
      /\ getNetworkConfig network = Throw (Error ("Unsupported network: " +:+ network)))
  /\ (network ∈ inherited_names ->
      getExplorerTxUrl network txHash = "undefined/tx/" +:+ txHash
      /\ getExplorerAddressUrl network address = "undefined/address/" +:+ address
      /\ exists name, getNetworkConfig network = Ok (Inherited name)).
Proof.
  split; [|split].
  - intros explorerUrl H. unfold explorers in H.
    repeat (apply elem_of_cons in H as [[= -> ->]|H];
            [split; [reflexivity|]; split; [reflexivity|]; eexists; by split|]).
    by apply elem_of_nil in H.
  - intros H1 H2. unfold getExplorerTxUrl, getExplorerAddressUrl, getNetworkConfig.
    by rewrite lookupConfig_unknown.
  - intros H. destruct (lookupConfig_inherited network H) as [name Hname].
    unfold getExplorerTxUrl, getExplorerAddressUrl, getNetworkConfig. rewrite Hname.
    split; [done|]. split; [done|]. by exists name.
Qed.

Example explorer_url_polygon :
  getExplorerTxUrl "polygon" "0x123abc" = "https://polygonscan.com/tx/0x123abc"
  /\ getExplorerAddressUrl "ethereum" "0x742d35Cc6634C0532925a3b844Bc9e7595f1dE00"
     = "https://etherscan.io/address/0x742d35Cc6634C0532925a3b844Bc9e7595f1dE00"
  /\ getExplorerTxUrl "solana" "0x123abc" = ""
  /\ getNetworkConfig "solana" = Throw (Error "Unsupported network: solana")
  /\ getExplorerTxUrl "constructor" "0x123abc" = "undefined/tx/0x123abc"
  /\ getNetworkConfig "constructor" = Ok (Inherited (Some "Object")).
Proof. repeat split; reflexivity. Qed.

(** ** Programs against a transport *)

Section Programs.

Context {A B : Type}.
Implicit Types (t : Transport) (p : Prog A) (f : A -> Prog B).

Lemma run_bind t p f :
  run t (p ≫= f)
  = match run t p with
    | (Ok a, reqs) => let '(r, reqs') := run t (f a) in (r, (reqs ++ reqs')%list)
    | (Throw e, reqs) => (Throw e, reqs)
    end.
Proof.
  change (p ≫= f) with (Prog_bind f p).
  induction p as [a|e|request k IH]; simpl.
  - by destruct (run t (f a)).
  - done.
  - rewrite IH. destruct (run t (k (t request))) as [[a|e] reqs]; [|done].
    by destruct (run t (f a)).
Qed.

Lemma outcome_bind t p f :
  outcome t (p ≫= f)
  = match outcome t p with Ok a => outcome t (f a) | Throw e => Throw e end.
Proof.
  unfold outcome. rewrite run_bind. destruct (run t p) as [[a|e] reqs]; simpl; [|done].
  by destruct (run t (f a)).
Qed.

Lemma run_lift t (r : result A) : run t (lift r) = (r, []).
Proof. by destruct r. Qed.

Lemma run_try_catch_total t p (fallback : JsError -> A) :
  is_Ok (outcome t (try_catch p (fun e => Ret (fallback e)))) = true.
Proof.
  unfold outcome. induction p as [a|e|request k IH]; simpl; [done|done|].
  specialize (IH (t request)). by destruct (run t (try_catch _ _)).
Qed.

End Programs.

Section ReadHelpers.

Variable t : Transport.

Lemma run_makeEthCall rpcEndpoint to data :
  run t (makeEthCall rpcEndpoint to data)
  = (rpcOutcome (t (callRequest rpcEndpoint to data)), [callRequest rpcEndpoint to data]).
Proof.
  unfold makeEthCall, makeRpcCall. simpl. fold (callRequest rpcEndpoint to data).
  by destruct (t _).
Qed.

(** A call followed by the decoding of its result. *)
Lemma call_then_decode {A} rpcEndpoint to data (decode : string -> result A)
    (k : string -> Prog A) :
  (forall response, k response = lift (decode response)) ->
  passes_failures_on t (makeEthCall rpcEndpoint (Some to) data ≫= k)
    (ethCallRequest rpcEndpoint to data) decode.
Proof.
  intros Hk. unfold passes_failures_on, outcome, requests, ethCallRequest.
  rewrite run_bind, run_makeEthCall.
  destruct (rpcOutcome _) as [response|e0].
  - rewrite Hk, run_lift. simpl. split; [done|]. split; [|done].
    by intros ? e [= <-] ->.
  - simpl. split; [by intros e [= <-]|]. split; [done|done].
Qed.

Lemma getTokenBalance_passes rpcEndpoint tokenAddress accountAddress data :
  encodeFunctionCall "balanceOf" ["address"] [VString accountAddress] = Ok data ->
  passes_failures_on t (getTokenBalance rpcEndpoint tokenAddress accountAddress)
    (ethCallRequest rpcEndpoint tokenAddress data) (fun r => decodeUint256 r None).
Proof. intros H. unfold getTokenBalance. rewrite H. by apply call_then_decode. Qed.

Lemma getUserStake_passes rpcEndpoint stakingPoolAddress userAddress data :
  encodeFunctionCall "userStake" ["address"] [VString userAddress] = Ok data ->
  passes_failures_on t (getUserStake rpcEndpoint stakingPoolAddress userAddress)
    (ethCallRequest rpcEndpoint stakingPoolAddress data) (fun r => decodeUint256 r None).
Proof. intros H. unfold getUserStake. rewrite H. by apply call_then_decode. Qed.

Lemma getTotalSupply_passes rpcEndpoint tokenAddress :
  passes_failures_on t (getTotalSupply rpcEndpoint tokenAddress)
    (ethCallRequest rpcEndpoint tokenAddress "0x18160ddd") (fun r => decodeUint256 r None).
Proof. by apply call_then_decode. Qed.

Lemma getTotalStake_passes rpcEndpoint stakingPoolAddress :
  passes_failures_on t (getTotalStake rpcEndpoint stakingPoolAddress)
    (ethCallRequest rpcEndpoint stakingPoolAddress "0x8b0e9f3f") (fun r => decodeUint256 r None).
Proof. by apply call_then_decode. Qed.

Lemma decode_reading_program result :
  (value ← lift (decodeInt224 result);
   timestamp ← lift (decodeUint32 result (Some 64));
   Ret (Reading.mk value timestamp))
  = lift (decodeReading result).
Proof.
  unfold decodeReading.
  destruct (decodeInt224 result); [|done]. simpl.
  by destruct (decodeUint32 result (Some 64)).
Qed.

Lemma readDataFeedById_passes rpcEndpoint network feedId config data :
  getNetworkConfig network = Ok (Entry config) ->
  encodeFunctionCall "readDataFeedWithId" ["bytes32"] [VString feedId] = Ok data ->
  passes_failures_on t (readDataFeedById rpcEndpoint network feedId)
    (ethCallRequest rpcEndpoint (NetworkConfig.dapiServerAddress config) data) decodeReading.
Proof.
  intros Hc Hd. unfold readDataFeedById. rewrite Hc, Hd.
  apply call_then_decode, decode_reading_program.
Qed.

Lemma readDAPIValue_passes rpcEndpoint network dapiName config data :
  getNetworkConfig network = Ok (Entry config) ->
  encodeFunctionCall "readDataFeedWithDapiName" ["bytes32"]
    [VString (dapiNameToBytes32 dapiName)] = Ok data ->
  passes_failures_on t (readDAPIValue rpcEndpoint network dapiName)
    (ethCallRequest rpcEndpoint (NetworkConfig.dapiServerAddress config) data) decodeReading.
Proof.
  intros Hc Hd. unfold readDAPIValue. rewrite Hc. cbn zeta. rewrite Hd.
  apply call_then_decode, decode_reading_program.
Qed.

Lemma unknown_network_fails rpcEndpoint network name e :
  getNetworkConfig network = Throw e ->
  run t (readDataFeedById rpcEndpoint network name) = (Throw e, [])
  /\ run t (readDAPIValue rpcEndpoint network name) = (Throw e, []).
Proof. intros H. unfold readDataFeedById, readDAPIValue. by rewrite H. Qed.

(** The batch handler catches the failure of a feed and goes on. *)
Lemma getMultipleFeeds_loop_total credentials feedIds : forall results,
  is_Ok (outcome t (getMultipleFeeds_loop credentials feedIds results)) = true.
Proof.
  induction feedIds as [|feedId feedIds IH]; intros results; [done|].
  cbn [getMultipleFeeds_loop]. destruct (negb (isValidBytes32 feedId)); [apply IH|].
  rewrite outcome_bind.
  match goal with |- context [outcome t (try_catch ?p ?h)] =>
    pose proof (run_try_catch_total t p
                  (fun _ => (results ++ [DataFeedValue.mk feedId "0" 0 "0" DEFAULT_DECIMALS])%list))
      as Htotal;
    destruct (outcome t (try_catch p h)) as [results'|]; [apply IH | done]
  end.
Qed.

End ReadHelpers.

(** On Ethereum the staking handlers go on to the node: a failed read of
    the stake fails the handler, a failed read of the rewards or of the
    rate is replaced by the fall-back of its [catch]. *)
Example staking_on_mainnet :
  run emptyAnswer (getStakingInfoOperation mainnet)
  = (Throw SyntaxError,
     [ethCallRequest "https://rpc.example" "0x6dd655f10d4b9E242aE186D9050B68F725c76d76"
        "0x8b0e9f3f"])
  /\ outcome unreachable (getUserStakeOperation mainnet someAccount)
     = Throw (NodeApiError "connect ETIMEDOUT" "Failed to make RPC call")
  /\ outcome stakeOnly (getUserStakeOperation mainnet someAccount)
     = Ok (UserStake.mk someAccount "2" "2" "0" 0 "0" 0 "2")
  /\ outcome unreachable (getRewardsOperation mainnet someAccount)
     = Ok (Rewards.mk someAccount "0" "0%")
  /\ outcome unreachable (getAPROperation mainnet) = Ok AprFallback.
Proof. repeat split; reflexivity. Qed.

(** The read helpers of the transport pass every failure on to their
    caller: an unknown network, a failed call and a result that cannot be
    decoded each fail the helper with the same error, after the one
    request of the helper. *)
Lemma transport_reads_pass_failures_on (t : Transport)
    (rpcEndpoint tokenAddress accountAddress stakingPoolAddress userAddress : string)
    (network feedId dapiName : string) :
  (forall data,
     encodeFunctionCall "balanceOf" ["address"] [VString accountAddress] = Ok data ->
     passes_failures_on t (getTokenBalance rpcEndpoint tokenAddress accountAddress)
       (ethCallRequest rpcEndpoint tokenAddress data) (fun r => decodeUint256 r None))
  /\ passes_failures_on t (getTotalSupply rpcEndpoint tokenAddress)
       (ethCallRequest rpcEndpoint tokenAddress "0x18160ddd") (fun r => decodeUint256 r None)
  /\ (forall data,
        encodeFunctionCall "userStake" ["address"] [VString userAddress] = Ok data ->
        passes_failures_on t (getUserStake rpcEndpoint stakingPoolAddress userAddress)
          (ethCallRequest rpcEndpoint stakingPoolAddress data) (fun r => decodeUint256 r None))
  /\ passes_failures_on t (getTotalStake rpcEndpoint stakingPoolAddress)
       (ethCallRequest rpcEndpoint stakingPoolAddress "0x8b0e9f3f")
       (fun r => decodeUint256 r None)
  /\ (forall config data,
        getNetworkConfig network = Ok (Entry config) ->
        encodeFunctionCall "readDataFeedWithId" ["bytes32"] [VString feedId] = Ok data ->
        passes_failures_on t (readDataFeedById rpcEndpoint network feedId)
          (ethCallRequest rpcEndpoint (NetworkConfig.dapiServerAddress config) data)
          decodeReading)
  /\ (forall config data,
        getNetworkConfig network = Ok (Entry config) ->
        encodeFunctionCall "readDataFeedWithDapiName" ["bytes32"]
          [VString (dapiNameToBytes32 dapiName)] = Ok data ->
        passes_failures_on t (readDAPIValue rpcEndpoint network dapiName)
          (ethCallRequest rpcEndpoint (NetworkConfig.dapiServerAddress config) data)
          decodeReading)
  /\ (forall e,
        getNetworkConfig network = Throw e ->
        run t (readDataFeedById rpcEndpoint network feedId) = (Throw e, [])
        /\ run t (readDAPIValue rpcEndpoint network dapiName) = (Throw e, [])).
Proof.
  split; [intros; by apply getTokenBalance_passes|].
  split; [apply getTotalSupply_passes|].
  split; [intros; by apply getUserStake_passes|].
  split; [apply getTotalStake_passes|].
  split; [intros; by apply readDataFeedById_passes|].
  split; [intros; by apply readDAPIValue_passes|].
  intros e He. split; by apply unknown_network_fails.
Qed.

(** The batch handler of the data feeds on a node that cannot be reached
    and on one that answers with no data: the read of the feed fails, by
    the call or by the decoding, and the handler answers with a record of
    zeros. *)
Example failed_feed_read_as_zero :
  outcome unreachable (readDataFeedById "https://rpc.example" "ethereum" someFeed)
  = Throw (NodeApiError "connect ETIMEDOUT" "Failed to make RPC call")
  /\ outcome unreachable (getMultipleFeedsOperation mainnet someFeed)
     = Ok [DataFeedValue.mk someFeed "0" 0 "0" 18]
  /\ outcome emptyAnswer (readDataFeedById "https://rpc.example" "ethereum" someFeed)
     = Throw SyntaxError
  /\ outcome emptyAnswer (getMultipleFeedsOperation mainnet someFeed)
     = Ok [DataFeedValue.mk someFeed "0" 0 "0" 18].
Proof. repeat split; reflexivity. Qed.

(** ** The gate of the staking and governance handlers *)

Section Gate.

Variable credentials : Credentials.t.
Let network := Credentials.network credentials.
Hypothesis not_ethereum : network <> "ethereum".

Lemma staking_unsupported : supportsStaking network = false.
Proof. unfold supportsStaking. by apply String.eqb_neq. Qed.

Lemma dao_unsupported : supportsDAO network = false.
Proof. unfold supportsDAO. by apply String.eqb_neq. Qed.

Lemma staking_handlers_gated (userAddress : string) :
  getStakingInfoOperation credentials = Raise (stakingOnlyOnEthereum network)
  /\ getAPROperation credentials = Raise (stakingOnlyOnEthereum network)
  /\ getUserStakeOperation credentials userAddress
     = Raise (if isValidAddress userAddress then stakingOnlyOnEthereum network
              else invalidUserAddress)
  /\ getRewardsOperation credentials userAddress
     = Raise (if isValidAddress userAddress then stakingOnlyOnEthereum network
              else invalidUserAddress).
Proof.
  unfold getStakingInfoOperation, getAPROperation, getUserStakeOperation, getRewardsOperation.
  fold network. rewrite staking_unsupported. simpl.
  by destruct (isValidAddress userAddress).
Qed.

Lemma governance_handlers_gated {A} (afterGate : Prog A) :
  getProposalsOperation afterGate credentials = Raise governanceOnlyOnEthereum
  /\ getProposalOperation afterGate credentials = Raise governanceOnlyOnEthereum
  /\ getVoteRecordOperation afterGate credentials = Raise governanceOnlyOnEthereum
  /\ getTreasuryOperation afterGate credentials = Raise governanceOnlyOnEthereum.
Proof.
  unfold getProposalsOperation, getProposalOperation, getVoteRecordOperation,
    getTreasuryOperation.
  fold network. by rewrite dao_unsupported.
Qed.

End Gate.

(** C8, as the code has it.  The two predicates hold of ["ethereum"] and of
    no other network.  On any other network every staking and governance
    read handler fails before it issues a request: with the error of the
    gate, or, for the two handlers that take a user address and check it
    first, with the error of that check when the address is malformed. *)
Theorem staking_governance_gate (credentials : Credentials.t) (userAddress : string)
    (t : Transport) {A : Type} (afterGate : Prog A) :
  (forall network, supportsStaking network = true <-> network = "ethereum")
  /\ (forall network, supportsDAO network = true <-> network = "ethereum")
  /\ (Credentials.network credentials <> "ethereum" ->
      let network := Credentials.network credentials in
      let gate := stakingOnlyOnEthereum network in
      let checked := if isValidAddress userAddress then gate else invalidUserAddress in
      run t (getStakingInfoOperation credentials) = (Throw gate, [])
      /\ run t (getAPROperation credentials) = (Throw gate, [])
      /\ run t (getUserStakeOperation credentials userAddress) = (Throw checked, [])
      /\ run t (getRewardsOperation credentials userAddress) = (Throw checked, [])
      /\ run t (getProposalsOperation afterGate credentials)
         = (Throw governanceOnlyOnEthereum, [])
      /\ run t (getProposalOperation afterGate credentials)
         = (Throw governanceOnlyOnEthereum, [])
      /\ run t (getVoteRecordOperation afterGate credentials)
         = (Throw governanceOnlyOnEthereum, [])
      /\ run t (getTreasuryOperation afterGate credentials)
         = (Throw governanceOnlyOnEthereum, [])
      /\ unsupported_network_error network gate = true
      /\ unsupported_network_error network governanceOnlyOnEthereum = true).
Proof.
  split; [intros; apply String.eqb_eq|]. split; [intros; apply String.eqb_eq|].
  intros Hne network gate checked.
  destruct (staking_handlers_gated credentials Hne userAddress) as (-> & -> & -> & ->).
  destruct (governance_handlers_gated credentials Hne afterGate) as (-> & -> & -> & ->).
  repeat (split; [done|]). split.
  - unfold unsupported_network_error. by rewrite bool_decide_eq_true_2.
  - unfold unsupported_network_error. rewrite (bool_decide_eq_true_2 (_ = governanceOnlyOnEthereum)) by done.
    apply orb_true_r.
Qed.

Lemma staking_governance_gate_witness :
  run unreachable (getStakingInfoOperation polygon)
  = (Throw (stakingOnlyOnEthereum "polygon"), [])
  /\ run unreachable (getUserStakeOperation polygon someAccount)
     = (Throw (stakingOnlyOnEthereum "polygon"), [])
  /\ run unreachable (getTreasuryOperation (Ret tt) polygon)
     = (Throw governanceOnlyOnEthereum, []).
Proof.
  destruct (staking_governance_gate polygon someAccount unreachable (Ret tt))
    as (_ & _ & H).
  destruct H as (H1 & _ & H2 & _ & _ & _ & _ & H3 & _); [done|].
  split; [exact H1|]. split; [exact H2 | exact H3].
Defined.

(** C8, as the specification has it, fails for the handlers that check
    the user address first: off Ethereum, a malformed address is turned
    down with the error of that check, not with that of the gate. *)
Lemma malformed_address_before_gate :
  Credentials.network polygon <> "ethereum"
  /\ run unreachable (getUserStakeOperation polygon "0x742d35")
     = (Throw invalidUserAddress, [])
  /\ run unreachable (getRewardsOperation polygon "0x742d35")
     = (Throw invalidUserAddress, [])
  /\ unsupported_network_error "polygon" invalidUserAddress = false.
Proof. repeat split; try reflexivity. done. Qed.

(** * Properties of more of the code *)

(** ** More of the numeric codec *)

Section Formatters.

Implicit Types (s t : string) (v r : Z) (d k : nat).

Lemma all_zero_repeat s :
  all_chars (Ascii.eqb Js.zero) s = true -> s = Js.repeat Js.zero (String.length s).
Proof.
  induction s as [|c s IH]; [done|]. cbn [all_chars String.length Js.repeat].
  intros [Hc Hs]%andb_prop. apply Ascii.eqb_eq in Hc as <-. by rewrite <- IH.
Qed.

(** The padded text of a remainder other than zero is not a run of zeros. *)
Lemma padded_remainder_not_zeros r (n k : nat) :
  r <> 0 -> Js.padStart (BigInt.toString r) n Js.zero <> Js.repeat Js.zero k.
Proof.
  intros Hr He.
  assert (all_chars (Ascii.eqb Js.zero) (BigInt.toString r) = true) as Hall.
  { apply (f_equal (all_chars (Ascii.eqb Js.zero))) in He.
    rewrite (all_chars_repeat _ _ k) in He by done.
    unfold Js.padStart in He. rewrite all_chars_app in He.
    by apply andb_prop in He as [_ ?]. }
  destruct (Z.lt_ge_cases r 0) as [Hneg|Hpos].
  - rewrite toString_neg in Hall by done. done.
  - destruct (toString_digits r Hpos) as (_ & _ & Hparse).
    specialize (Hparse 0). rewrite (all_zero_repeat _ Hall) in Hparse at 1.
    rewrite parse_digits_zeros in Hparse by lia. injection Hparse as Hz. lia.
Qed.

Lemma eighteen_zeros : "000000000000000000" = Js.repeat Js.zero 18.
Proof. reflexivity. Qed.

Lemma wei_format_agree (wei : JsValue) : weiToEther wei = formatWithDecimals wei 18.
Proof.
  unfold weiToEther, formatWithDecimals.
  destruct (BigInt_of wei) as [value|e]; [|done]. cbv [mbind result_bind].
  destruct (Z.eqb_spec (Z.rem value (pow10 18)) 0) as [Hr|Hr].
  - by rewrite Hr.
  - pose proof (padded_remainder_not_zeros _ 18 18 Hr) as Hne.
    destruct (String.eqb_spec
                (Js.padStart (BigInt.toString (Z.rem value (pow10 18))) 18 Js.zero)
                "000000000000000000") as [He|_]; [by rewrite eighteen_zeros in He|].
    rewrite orDefault_nonempty; [done|].
    intros He%stripTrailingZeros_empty. by apply padded_remainder_not_zeros in He.
Qed.

Lemma etherToWei_parse ether : etherToWei ether = parseWithDecimals ether 18.
Proof. reflexivity. Qed.

End Formatters.

(** X1.  [weiToEther] is [formatWithDecimals] at 18 decimals, on every
    input and whatever its sign; [etherToWei] is [parseWithDecimals] at 18. *)
Theorem wei_helpers_are_18_decimals (wei : JsValue) (ether : string) :
  weiToEther wei = formatWithDecimals wei 18
  /\ etherToWei ether = parseWithDecimals ether 18.
Proof. split; [apply wei_format_agree | apply etherToWei_parse]. Qed.

(** X2.  Wei to ether and back: for a non-negative amount, [etherToWei]
    reads the text of [weiToEther] back to the amount. *)
Theorem wei_ether_round_trip (v : Z) :
  0 <= v ->
  exists ether, weiToEther (VBigInt v) = Ok ether /\ etherToWei ether = Ok v.
Proof.
  intros Hv. rewrite wei_format_agree.
  destruct (format_then_parse v 18 Hv) as (s & Hf & Hp). by exists s.
Qed.

Lemma wei_ether_round_trip_witness :
  exists ether, weiToEther (VBigInt 1500000000000000000) = Ok ether
                /\ etherToWei ether = Ok 1500000000000000000.
Proof. apply wei_ether_round_trip. lia. Defined.

Section DecimalText.

Implicit Types (s t a b : string) (d k : nat).

Lemma take_drop_app s k : Js.take k s +:+ Js.drop k s = s.
Proof.
  revert k. induction s as [|c s IH]; intros [|k]; simpl; try done. by rewrite IH.
Qed.

Lemma parse_digits_digits s : forall acc,
  all_chars is_digit s = true -> exists v, BigInt.parse_digits 10 acc s = Some v.
Proof.
  induction s as [|c s IH]; intros acc; simpl; [by eexists|].
  intros [Hc Hs]%andb_prop.
  assert (match BigInt.digit_value c with
          | Some d => d <? 10
          | None => false
          end = true) as Hd by by_character c.
  destruct (BigInt.digit_value c) as [d|]; [|done]. rewrite Hd. by apply IH.
Qed.

(** The value of a digit string lies below the power of its length. *)
Lemma parse_digits_bound (radix : Z) s : forall acc v,
  2 <= radix -> 0 <= acc ->
  BigInt.parse_digits radix acc s = Some v ->
  acc * radix ^ Z.of_nat (String.length s) <= v
  < (acc + 1) * radix ^ Z.of_nat (String.length s).
Proof.
  induction s as [|c s IH]; intros acc v Hr Hacc; simpl String.length.
  - simpl. intros [= <-]. lia.
  - cbn [BigInt.parse_digits].
    destruct (BigInt.digit_value c) as [d|] eqn:Hd; [|done].
    destruct (Z.ltb_spec d radix) as [Hlt|]; [|done].
    assert (0 <= d) as Hd0.
    { unfold BigInt.digit_value in Hd.
      repeat match type of Hd with
             | (if ?b then _ else _) = _ => destruct b eqn:?; [injection Hd as <-|]
             end; try done; lia. }
    intros H. apply IH in H; [|lia|lia].
    rewrite Nat2Z.inj_succ, Z.pow_succ_r by lia. nia.
Qed.

(** The first [k] digits are the value divided by the power of the rest. *)
Lemma parse_digits_take s k (v t : Z) :
  (k <= String.length s)%nat ->
  BigInt.parse_digits 10 0 s = Some v ->
  BigInt.parse_digits 10 0 (Js.take k s) = Some t ->
  t = v / 10 ^ Z.of_nat (String.length s - k).
Proof.
  intros Hk Hv Ht. rewrite <- (take_drop_app s k) in Hv.
  rewrite parse_digits_app, Ht in Hv. simpl in Hv.
  assert (0 <= t) as Ht0.
  { apply parse_digits_bound in Ht; lia. }
  apply parse_digits_bound in Hv; [|lia|lia].
  rewrite length_drop in Hv.
  set (p := 10 ^ Z.of_nat (String.length s - k)) in *.
  assert (0 < p) by (apply Z.pow_pos_nonneg; lia).
  apply Z.div_unique with (r := v - t * p); lia.
Qed.

Lemma split_app_sep sep s t :
  all_chars (not_char sep) s = true ->
  Js.split sep (s +:+ String sep t) = s :: Js.split sep t.
Proof.
  intros Hs. induction s as [|c s IH]; simpl.
  - by rewrite Ascii.eqb_refl.
  - apply andb_prop in Hs as [Hc Hs]. unfold not_char in Hc.
    apply negb_true_iff in Hc. by rewrite Hc, (IH Hs).
Qed.

(** [BigInt] of an integer part followed by fractional digits. *)
Lemma of_string_parts a frac A F :
  a <> "" -> all_chars is_digit a = true -> all_chars is_digit frac = true ->
  BigInt.parse_digits 10 0 a = Some A -> BigInt.parse_digits 10 0 frac = Some F ->
  BigInt.of_string (a +:+ frac) = Ok (A * 10 ^ Z.of_nat (String.length frac) + F).
Proof.
  intros Hne Ha Hf HA HF. apply of_string_decimal.
  - by destruct a.
  - by rewrite all_chars_app, Ha, Hf.
  - rewrite parse_digits_app, HA. simpl.
    rewrite <- (Z.add_0_l A).
    rewrite (parse_digits_shift 10 frac 0 A F HF). f_equal. lia.
Qed.

(** The fractional digits that [parseWithDecimals] keeps of [b]. *)
Lemma kept_fraction b B d :
  all_chars is_digit b = true -> BigInt.parse_digits 10 0 b = Some B ->
  let frac := Js.slice (Js.padEnd (Js.orDefault (Some b) "0") d Js.zero) 0 (Z.of_nat d) in
  String.length frac = d /\ all_chars is_digit frac = true
  /\ BigInt.parse_digits 10 0 frac
     = Some (B * 10 ^ Z.of_nat d / 10 ^ Z.of_nat (String.length b)).
Proof.
  intros Hb HB frac. unfold frac. rewrite slice_prefix.
  destruct (String.eqb_spec b "") as [->|Hne].
  - change (Js.orDefault (Some "") "0") with "0". rewrite take_padEnd_zero.
    injection HB as <-. rewrite length_repeat, all_chars_repeat by done.
    split; [done|]. split; [done|]. rewrite parse_digits_zeros by lia. reflexivity.
  - rewrite orDefault_nonempty by done.
    destruct (Nat.le_gt_cases (String.length b) d) as [Hle|Hgt].
    + rewrite take_ge by (rewrite length_padEnd; lia).
      rewrite length_padEnd by done. unfold Js.padEnd.
      rewrite all_chars_app, Hb, all_chars_repeat by done.
      split; [done|]. split; [done|].
      rewrite parse_digits_app, HB. simpl.
      rewrite parse_digits_zeros by lia. f_equal.
      assert (10 ^ Z.of_nat d
              = 10 ^ Z.of_nat (d - String.length b) * 10 ^ Z.of_nat (String.length b)) as ->
        by (rewrite <- Z.pow_add_r by lia; f_equal; lia).
      rewrite Z.mul_assoc, Z.div_mul; [done|]. apply Z.pow_nonzero; lia.
    + rewrite padEnd_long by lia. rewrite length_take.
      split; [lia|]. split; [by apply all_chars_take|].
      destruct (parse_digits_digits (Js.take d b) 0) as [t Ht]; [by apply all_chars_take|].
      rewrite Ht. f_equal.
      rewrite (parse_digits_take b d B t) by (done || lia).
      assert (10 ^ Z.of_nat (String.length b)
              = 10 ^ Z.of_nat (String.length b - d) * 10 ^ Z.of_nat d) as ->
        by (rewrite <- Z.pow_add_r by lia; f_equal; lia).
      rewrite Z.div_mul_cancel_r; [done| |]; apply Z.pow_nonzero; lia.
Qed.

Lemma parse_decimal_text a b A B d :
  a <> "" -> all_chars is_digit a = true -> all_chars is_digit b = true ->
  BigInt.parse_digits 10 0 a = Some A -> BigInt.parse_digits 10 0 b = Some B ->
  parseWithDecimals (a +:+ "." +:+ b) d
  = Ok (A * 10 ^ Z.of_nat d + B * 10 ^ Z.of_nat d / 10 ^ Z.of_nat (String.length b)).
Proof.
  intros Hne Ha Hb HA HB. unfold parseWithDecimals.
  change (a +:+ "." +:+ b) with (a +:+ String "." b).
  rewrite split_two by by apply all_digits_no_dot.
  change ([a; b] !! 0%nat) with (Some a). change ([a; b] !! 1%nat) with (Some b).
  rewrite (orDefault_nonempty a) by done.
  destruct (kept_fraction b B d Hb HB) as (Hlen & Hdig & Hparse).
  rewrite (of_string_parts a _ A _ Hne Ha Hdig HA Hparse). by rewrite Hlen.
Qed.

(** What follows a second point is not looked at. *)
Lemma parse_ignores_third_part a b c d :
  all_chars (not_char ".") a = true -> all_chars (not_char ".") b = true ->
  parseWithDecimals (a +:+ "." +:+ b +:+ "." +:+ c) d = parseWithDecimals (a +:+ "." +:+ b) d.
Proof.
  intros Ha Hb. unfold parseWithDecimals.
  change (a +:+ "." +:+ b +:+ "." +:+ c) with (a +:+ String "." (b +:+ String "." c)).
  change (a +:+ "." +:+ b) with (a +:+ String "." b).
  rewrite (split_app_sep _ a) by done. rewrite (split_app_sep _ b) by done.
  by rewrite split_two.
Qed.

End DecimalText.

(** X3.  A decimal text [a.b] of digits is read as the integer part times
    [10^d] plus the fraction cut off, not rounded, after [d] digits;
    [etherToWei] does so with 18. *)
Theorem parse_truncates_fraction (a b : string) (A B : Z) (d : nat) :
  a <> "" -> all_chars is_digit a = true -> all_chars is_digit b = true ->
  BigInt.parse_digits 10 0 a = Some A -> BigInt.parse_digits 10 0 b = Some B ->
  parseWithDecimals (a +:+ "." +:+ b) d
  = Ok (A * 10 ^ Z.of_nat d + B * 10 ^ Z.of_nat d / 10 ^ Z.of_nat (String.length b))
  /\ etherToWei (a +:+ "." +:+ b)
     = Ok (A * 10 ^ 18 + B * 10 ^ 18 / 10 ^ Z.of_nat (String.length b)).
Proof.
  intros Hne Ha Hb HA HB. split; [by apply parse_decimal_text|].
  rewrite etherToWei_parse. by apply (parse_decimal_text a b A B 18).
Qed.

Lemma parse_truncates_fraction_witness :
  parseWithDecimals "1.2399" 2 = Ok 123
  /\ etherToWei "0.0000000000000000019" = Ok 1.
Proof.
  split.
  - apply (parse_truncates_fraction "1" "2399" 1 2399 2); done.
  - apply (parse_truncates_fraction "0" "0000000000000000019" 0 19 0); done.
Defined.

(** X4.  A second point, and all that follows it, is ignored by
    [parseWithDecimals] and [etherToWei]: the text is not rejected. *)
Theorem parse_ignores_second_point (a b c : string) (d : nat) :
  all_chars (not_char ".") a = true -> all_chars (not_char ".") b = true ->
  parseWithDecimals (a +:+ "." +:+ b +:+ "." +:+ c) d = parseWithDecimals (a +:+ "." +:+ b) d
  /\ etherToWei (a +:+ "." +:+ b +:+ "." +:+ c) = etherToWei (a +:+ "." +:+ b).
Proof.
  intros Ha Hb. split; [by apply parse_ignores_third_part|].
  rewrite !etherToWei_parse. by apply parse_ignores_third_part.
Qed.

Lemma parse_ignores_second_point_witness :
  parseWithDecimals "1.5.zzz" 2 = Ok 150.
Proof.
  destruct (parse_ignores_second_point "1" "5" "zzz" 2) as [H _]; [done|done|].
  change ("1" +:+ "." +:+ "5" +:+ "." +:+ "zzz") with "1.5.zzz" in H.
  rewrite H. reflexivity.
Defined.

Section Untrimmed.

Variables (v : Z) (d : nat).
Hypothesis v_nonneg : 0 <= v.

Lemma formatValue_parts :
  exists a b A B,
    formatValue v d = a +:+ "." +:+ b
    /\ a <> "" /\ all_chars is_digit a = true /\ all_chars is_digit b = true
    /\ BigInt.parse_digits 10 0 a = Some A /\ BigInt.parse_digits 10 0 b = Some B
    /\ String.length b = Nat.max d 1
    /\ A = v / pow10 d /\ B = v mod pow10 d.
Proof.
  destruct (quot_rem_nonneg v d v_nonneg) as (Hq & Hr & Hv).
  assert (0 < pow10 d) as Hp by (by apply (divisor_pos 0 d)).
  destruct (toString_digits _ Hq) as (Hqne & Hqdig & Hqparse).
  destruct (toString_digits (Z.rem v (pow10 d))) as (Hrne & Hrdig & Hrparse); [lia|].
  exists (BigInt.toString (Z.quot v (pow10 d))),
         (Js.padStart (BigInt.toString (Z.rem v (pow10 d))) d Js.zero),
         (Z.quot v (pow10 d)), (Z.rem v (pow10 d)).
  split; [done|]. split; [done|]. split; [done|]. split.
  { unfold Js.padStart. by rewrite all_chars_app, all_chars_repeat, Hrdig. }
  split; [by rewrite Hqparse|]. split.
  { unfold Js.padStart. rewrite parse_digits_app, parse_digits_zeros by lia. simpl.
    rewrite Hrparse. f_equal. }
  split.
  { destruct d as [|d'].
    - assert (Z.rem v (pow10 0) = 0) as -> by (change (pow10 0) with 1; apply Z.rem_1_r).
      reflexivity.
    - rewrite length_padStart; [lia|].
      apply length_toString; [unfold pow10 in *; lia | lia]. }
  split; [apply Z.quot_div_nonneg; lia | apply Z.rem_mod_nonneg; lia].
Qed.

End Untrimmed.

(** X5.  The untrimmed [formatValue] also reads back: for a non-negative
    value its text has the integer part, a point and exactly [d] digits
    (one digit when [d] is 0), and [parseWithDecimals] returns the value. *)
Theorem formatValue_round_trip (v : Z) (d : nat) :
  0 <= v -> (d <= 18)%nat ->
  String.length (fractional_segment (formatValue v d)) = Nat.max d 1
  /\ all_chars is_digit (fractional_segment (formatValue v d)) = true
  /\ parseWithDecimals (formatValue v d) d = Ok v.
Proof.
  intros Hv _.
  destruct (formatValue_parts v d Hv)
    as (a & b & A & B & -> & Hne & Ha & Hb & HA & HB & Hlen & -> & ->).
  assert (fractional_segment (a +:+ "." +:+ b) = b) as ->.
  { unfold fractional_segment. change (a +:+ "." +:+ b) with (a +:+ String "." b).
    by rewrite split_two by by apply all_digits_no_dot. }
  split; [done|]. split; [done|].
  rewrite (parse_decimal_text a b _ _ d Hne Ha Hb HA HB). f_equal.
  assert (0 < pow10 d) as Hp by (by apply (divisor_pos 0 d)).
  destruct d as [|d'].
  - rewrite Hlen. change (pow10 0) with 1. rewrite Z.div_1_r, Z.mod_1_r.
    change (0 * 10 ^ Z.of_nat 0 / 10 ^ Z.of_nat (Nat.max 0 1)) with 0.
    change (10 ^ Z.of_nat 0) with 1. lia.
  - rewrite Hlen. replace (Nat.max (S d') 1) with (S d') by lia.
    rewrite Z.div_mul by (apply Z.pow_nonzero; lia).
    unfold pow10. rewrite (Z.div_mod v (10 ^ Z.of_nat (S d'))) at 3 by lia. lia.
Qed.

Lemma formatValue_round_trip_witness :
  parseWithDecimals (formatValue 1500000000000000000 18) 18 = Ok 1500000000000000000.
Proof. apply formatValue_round_trip; lia. Defined.

(** ** More of the encoder *)

Section ValidInputs.

Implicit Types (s a v name : string) (c : ascii).

Lemma lower_hex_char c : is_hex_char c = true -> digit_below 16 (Js.lower_char c) = true.
Proof. by_character c. Qed.

Lemma toLowerCase_hex s :
  all_chars is_hex_char s = true -> all_chars (digit_below 16) (Js.toLowerCase s) = true.
Proof.
  induction s as [|c s IH]; simpl; [done|].
  intros [Hc Hs]%andb_prop. by rewrite lower_hex_char, IH.
Qed.

Lemma drop_two_prefixed s : Js.startsWith s "0x" = true -> s = "0x" +:+ Js.drop 2 s.
Proof. intros [t ->]%startsWith_inv. reflexivity. Qed.

Lemma length_drop_two s (n : nat) :
  Js.startsWith s "0x" = true -> String.length s = S (S n) -> String.length (Js.drop 2 s) = n.
Proof. intros _ H. rewrite length_drop. lia. Qed.

Lemma valid_address_parts a :
  isValidAddress a = true ->
  Js.startsWith a "0x" = true /\ String.length (Js.drop 2 a) = 40%nat
  /\ all_chars is_hex_char (Js.drop 2 a) = true.
Proof.
  unfold isValidAddress. intros [[H0 Hl%Nat.eqb_eq]%andb_prop Hh]%andb_prop.
  split; [done|]. split; [by apply length_drop_two|done].
Qed.

Lemma valid_bytes32_parts v :
  isValidBytes32 v = true ->
  Js.startsWith v "0x" = true /\ String.length (Js.drop 2 v) = 64%nat
  /\ all_chars is_hex_char (Js.drop 2 v) = true.
Proof.
  unfold isValidBytes32. intros [[H0 Hl%Nat.eqb_eq]%andb_prop Hh]%andb_prop.
  split; [done|]. split; [by apply length_drop_two|done].
Qed.

Lemma encodeAddress_valid a :
  isValidAddress a = true ->
  encodeAddress (VString a)
  = Ok (Js.repeat Js.zero 24 +:+ Js.toLowerCase (Js.drop 2 a)).
Proof.
  intros (H0 & Hl & Hh)%valid_address_parts. unfold encodeAddress.
  cbv [as_string mbind result_bind]. rewrite H0.
  change 2 with (Z.of_nat 2). rewrite slice_from_nat. unfold Js.padStart.
  by rewrite length_toLowerCase, Hl.
Qed.

Lemma encodeBytes32_valid v :
  isValidBytes32 v = true -> encodeBytes32 (VString v) = Ok (Js.drop 2 v).
Proof.
  intros (H0 & Hl & Hh)%valid_bytes32_parts. unfold encodeBytes32.
  cbv [as_string mbind result_bind]. rewrite H0.
  change 2 with (Z.of_nat 2). rewrite slice_from_nat. by rewrite padEnd_long by lia.
Qed.

Lemma utf8_hex_chars name : all_chars is_hex_char (Js.utf8_hex name) = true.
Proof.
  induction name as [|c name IH]; [done|]. cbn [Js.utf8_hex].
  rewrite all_chars_app, IH, andb_true_r. by_character c.
Qed.

Lemma startsWith_0x_app s : Js.startsWith ("0x" +:+ s) "0x" = true.
Proof.
  change ("0x" +:+ s) with (String "0" (String "x" s)).
  rewrite !startsWith_cons. simpl. by destruct s.
Qed.

Lemma encodeBytes32_of_name name :
  encodeBytes32 (VString (dapiNameToBytes32 name))
  = Ok (Js.padEnd (Js.utf8_hex name) 64 Js.zero).
Proof.
  unfold encodeBytes32, dapiNameToBytes32. cbv [as_string mbind result_bind].
  rewrite startsWith_0x_app. change 2 with (Z.of_nat 2). rewrite slice_from_nat.
  change (Js.drop 2 ("0x" +:+ ?s)) with s.
  destruct (Nat.le_gt_cases (String.length (Js.utf8_hex name)) 64) as [Hle|Hgt].
  - by rewrite padEnd_long by (rewrite length_padEnd; lia).
  - by rewrite !padEnd_long by (rewrite ?padEnd_long; lia).
Qed.

Lemma dapiNameToBytes32_valid name :
  (String.length (Js.utf8_hex name) <= 64)%nat ->
  isValidBytes32 (dapiNameToBytes32 name) = true.
Proof.
  intros Hle. unfold isValidBytes32, dapiNameToBytes32.
  rewrite startsWith_0x_app. change (Js.drop 2 ("0x" +:+ ?s)) with s.
  change (String.length ("0x" +:+ ?s)) with (S (S (String.length s))).
  rewrite length_padEnd by done. unfold Js.padEnd.
  rewrite all_chars_app, utf8_hex_chars, all_chars_repeat by done. done.
Qed.

End ValidInputs.

(** X6.  An address that [isValidAddress] accepts is encoded to a word of
    64 characters: 24 zeros, then its 40 digits in lower case.  Letter case
    is not kept, so two spellings of one address give one word. *)
Theorem valid_address_word (a : string) :
  isValidAddress a = true ->
  let w := Js.repeat Js.zero 24 +:+ Js.toLowerCase (Js.drop 2 a) in
  encodeAddress (VString a) = Ok w
  /\ String.length w = 64%nat
  /\ all_chars (digit_below 16) w = true
  /\ (forall b, isValidAddress b = true -> Js.toLowerCase a = Js.toLowerCase b ->
                encodeAddress (VString b) = Ok w).
Proof.
  intros Ha w. pose proof (valid_address_parts a Ha) as (H0 & Hl & Hh).
  split; [by apply encodeAddress_valid|]. split.
  { unfold w. rewrite str_length_app, length_repeat, length_toLowerCase. lia. }
  split.
  { unfold w. rewrite all_chars_app, all_chars_repeat by done. by apply toLowerCase_hex. }
  intros b Hb Hab. rewrite (encodeAddress_valid b Hb). unfold w. do 2 f_equal.
  pose proof (valid_address_parts b Hb) as (Hb0 & _ & _).
  rewrite (drop_two_prefixed a H0), (drop_two_prefixed b Hb0) in Hab.
  simpl in Hab. by injection Hab.
Qed.

Lemma valid_address_word_witness :
  encodeAddress (VString "0x742d35Cc6634C0532925a3b844Bc9e7595f1dE00")
  = Ok "000000000000000000000000742d35cc6634c0532925a3b844bc9e7595f1de00".
Proof.
  destruct (valid_address_word "0x742d35Cc6634C0532925a3b844Bc9e7595f1dE00") as [H _];
    [reflexivity | exact H].
Defined.

(** X7.  A value that [isValidBytes32] accepts is encoded to its own 64
    digits, unchanged.  A feed name goes through [dapiNameToBytes32] and
    [encodeBytes32] to the hex of its bytes padded with zeros on the
    right, whatever the name; for a name of at most 32 bytes
    [dapiNameToBytes32] gives a valid bytes32 and the word has 64
    characters. *)
Theorem bytes32_word (v name : string) :
  (isValidBytes32 v = true ->
   encodeBytes32 (VString v) = Ok (Js.drop 2 v) /\ v = "0x" +:+ Js.drop 2 v)
  /\ encodeBytes32 (VString (dapiNameToBytes32 name))
     = Ok (Js.padEnd (Js.utf8_hex name) 64 Js.zero)
  /\ ((String.length (Js.utf8_hex name) <= 64)%nat ->
      isValidBytes32 (dapiNameToBytes32 name) = true
      /\ String.length (Js.padEnd (Js.utf8_hex name) 64 Js.zero) = 64%nat).
Proof.
  split.
  { intros Hv. split; [by apply encodeBytes32_valid|].
    apply drop_two_prefixed. by apply valid_bytes32_parts. }
  split; [apply encodeBytes32_of_name|].
  intros Hle. split; [by apply dapiNameToBytes32_valid | by apply length_padEnd].
Qed.

Lemma bytes32_word_witness :
  encodeBytes32 (VString "0x4385954e058fbe6b6a744f32a4f89d67aad099f8fb8b23e7ea8dd366ae88151d")
  = Ok "4385954e058fbe6b6a744f32a4f89d67aad099f8fb8b23e7ea8dd366ae88151d"
  /\ isValidBytes32 (dapiNameToBytes32 "ETH/USD") = true.
Proof.
  destruct (bytes32_word "0x4385954e058fbe6b6a744f32a4f89d67aad099f8fb8b23e7ea8dd366ae88151d"
              "ETH/USD") as (H1 & _ & H2).
  split; [apply H1; reflexivity | apply H2; vm_compute; lia].
Defined.

(** ** What the decoders return *)

Section DecodedRange.

Implicit Types (s w hex : string).

Lemma length_trimEnd s : (String.length (Js.trimEnd s) <= String.length s)%nat.
Proof.
  induction s as [|c s IH]; simpl; [done|].
  destruct (_ && _); simpl; lia.
Qed.

Lemma trim_0x w : Js.trim ("0x" +:+ w) = "0x" +:+ Js.trimEnd w.
Proof.
  change ("0x" +:+ w) with (String "0" (String "x" w)).
  unfold Js.trim. cbn [Js.trimStart]. change (Js.is_space "0") with false.
  cbv iota. cbn [Js.trimEnd]. change (Js.is_space "0") with false.
  change (Js.is_space "x") with false. by rewrite !andb_false_r.
Qed.

Lemma of_string_0x w :
  BigInt.of_string ("0x" +:+ w) = BigInt.literal 16 1 (Js.trimEnd w).
Proof.
  unfold BigInt.of_string. rewrite trim_0x.
  change (String.eqb ("0x" +:+ Js.trimEnd w) "") with false. cbv iota.
  by rewrite startsWith_0x_app.
Qed.

Lemma of_string_0x_range w :
  match BigInt.of_string ("0x" +:+ w) with
  | Ok v => 0 <= v < 16 ^ Z.of_nat (String.length w)
  | Throw e => e = SyntaxError
  end.
Proof.
  rewrite of_string_0x. unfold BigInt.literal.
  pose proof (length_trimEnd w) as Hlen.
  destruct (Js.trimEnd w) as [|c t] eqn:E; [done|].
  destruct (BigInt.parse_digits 16 0 (String c t)) as [v|] eqn:Hv; [|done].
  apply parse_digits_bound in Hv; [|lia..]. rewrite Z.mul_1_l.
  split; [lia|]. eapply Z.lt_le_trans; [apply Hv|]. rewrite Z.add_0_l, Z.mul_1_l.
  apply Z.pow_le_mono_r; lia.
Qed.

Lemma length_slice_window s (from : Z) :
  (String.length (Js.slice s from (from + 64)) <= 64)%nat.
Proof.
  unfold Js.slice. rewrite length_take. unfold Js.clamp_index.
  destruct (Z.ltb_spec from 0), (Z.ltb_spec (from + 64) 0); lia.
Qed.

Lemma word_value_range s (from : Z) :
  match BigInt.of_string ("0x" +:+ Js.slice s from (from + 64)) with
  | Ok v => 0 <= v < 2 ^ 256
  | Throw e => e = SyntaxError
  end.
Proof.
  pose proof (of_string_0x_range (Js.slice s from (from + 64))) as H.
  pose proof (length_slice_window s from) as Hlen.
  destruct (BigInt.of_string _) as [v|e]; [|done].
  split; [lia|]. eapply Z.lt_le_trans; [apply H|].
  change (2 ^ 256) with (16 ^ Z.of_nat 64). apply Z.pow_le_mono_r; lia.
Qed.

Lemma toNumber_small v : 0 <= v < 2 ^ 53 -> BigInt.toNumber v = v.
Proof.
  intros [H0 H1]. unfold BigInt.toNumber.
  destruct (Z.leb_spec (Z.log2 (Z.abs v) - 52) 0) as [|Hgt]; [done|].
  rewrite Z.abs_eq in Hgt by done.
  destruct (Z.eq_dec v 0) as [->|]; [done|].
  assert (Z.log2 v < 53) by (apply Z.log2_lt_pow2; lia). lia.
Qed.

Lemma toNumber_range v : 0 <= v < 2 ^ 256 -> 0 <= BigInt.toNumber v <= 2 ^ 256.
Proof.
  intros [H0 H1]. unfold BigInt.toNumber. rewrite Z.abs_eq by done.
  destruct (Z.leb_spec (Z.log2 v - 52) 0) as [|Hgt]; [lia|].
  set (e := Z.log2 v - 52) in *.
  assert (0 < v) as Hpos by (destruct (Z.eq_dec v 0) as [->|]; [done|lia]).
  assert (Z.log2 v < 256) by (apply Z.log2_lt_pow2; lia).
  assert (0 < 2 ^ e) as He by (apply Z.pow_pos_nonneg; lia).
  assert (0 <= v / 2 ^ e) as Hq by (apply Z.div_pos; lia).
  assert (v / 2 ^ e < 2 ^ (256 - e)) as Hq'.
  { apply Z.div_lt_upper_bound; [done|]. rewrite <- Z.pow_add_r by lia.
    by replace (e + (256 - e)) with 256 by lia. }
  assert (2 ^ (256 - e) * 2 ^ e = 2 ^ 256) as Hsplit.
  { rewrite <- Z.pow_add_r by lia. f_equal. lia. }
  rewrite Z.sgn_pos by done.
  destruct (_ || _); nia.
Qed.

End DecodedRange.

(** X8.  Whatever the response and the offset, a decoder either returns a
    value that is not negative and is below 2^256, or fails with the
    SyntaxError of [BigInt]; [decodeInt224] reads its word as an unsigned
    number like the others and never returns a negative value.
    [decodeUint32] returns the double nearest to the whole word. *)
Theorem decoders_unsigned (hex : string) (offset : option Z) :
  match decodeInt224 hex with
  | Ok v => 0 <= v < 2 ^ 256
  | Throw e => e = SyntaxError
  end
  /\ match decodeUint256 hex offset with
     | Ok v => 0 <= v < 2 ^ 256
     | Throw e => e = SyntaxError
     end
  /\ match decodeUint256 hex offset, decodeUint32 hex (Some (default 0 offset)) with
     | Ok v, Ok n => n = BigInt.toNumber v /\ 0 <= n <= 2 ^ 256 /\ (v < 2 ^ 53 -> n = v)
     | Throw e, Throw e' => e = e'
     | _, _ => False
     end.
Proof.
  split; [|split].
  - unfold decodeInt224. apply (word_value_range (clean hex) 0).
  - unfold decodeUint256. apply word_value_range.
  - unfold decodeUint256, decodeUint32. cbv [default from_option id].
    pose proof (word_value_range (clean hex) match offset with Some o => o | None => 0 end) as H.
    destruct (BigInt.of_string _) as [v|e]; cbv [mbind result_bind]; [|done].
    split; [done|]. split; [by apply toNumber_range|].
    intros Hv. apply toNumber_small. lia.
Qed.

Example decodeInt224_minus_one :
  decodeInt224 "0xffffffffffffffffffffffffffffffffffffffffffffffffffffffffffffffff"
  = Ok (2 ^ 256 - 1).
Proof. reflexivity. Qed.

Example decodeUint32_above_32_bits :
  decodeUint32 "0x0000000000000000000000000000000000000000000000000000000100000000" (Some 0)
  = Ok (2 ^ 32).
Proof. reflexivity. Qed.

(** ** Words of a parameter list *)

Section Words.

Implicit Types (types : list string) (values : list JsValue) (encoded w : string)
  (ws : list string) (vs : list Z).

Let uint256_word (v : Z) : string := Js.padStart (BigInt.toString_radix 16 v) 64 Js.zero.

Lemma encodeParameters_loop_uint256 vs : forall encoded,
  encodeParameters_loop (replicate (length vs) "uint256") (VBigInt <$> vs) encoded
  = Ok (encoded +:+ foldr String.append "" (uint256_word <$> vs)).
Proof.
  induction vs as [|v vs IH]; intros encoded.
  - simpl. by rewrite str_app_nil_r.
  - cbn [length replicate fmap list_fmap encodeParameters_loop hd tl].
    change (String.eqb "uint256" "bytes32") with false.
    change (String.eqb "uint256" "address") with false.
    change (String.eqb "uint256" "uint256") with true. cbv iota.
    unfold encodeUint256. cbv [BigInt_of mbind result_bind].
    rewrite IH. cbn [foldr]. by rewrite str_app_assoc.
Qed.

Lemma uint256_word_spec v :
  0 <= v < 2 ^ 256 ->
  String.length (uint256_word v) = 64%nat
  /\ all_chars is_hex_char (uint256_word v) = true
  /\ BigInt.parse_digits 16 0 (uint256_word v) = Some v.
Proof. intros H. by destruct (encodeUint256_in_range v H) as (_ & ? & ? & ?). Qed.

Lemma take_app_length s t : Js.take (String.length s) (s +:+ t) = s.
Proof. induction s as [|c s IH]; simpl; [by destruct t | by rewrite IH]. Qed.

Lemma drop_app_length s t (k : nat) : Js.drop (String.length s + k) (s +:+ t) = Js.drop k t.
Proof. induction s as [|c s IH]; simpl; [done | by rewrite IH]. Qed.

(** The [i]-th of a run of 64-character words is the window at [64 * i]. *)
Lemma nth_word ws : forall (i : nat) w,
  Forall (fun w => String.length w = 64%nat) ws -> ws !! i = Some w ->
  substring (64 * i) 64 (foldr String.append "" ws) = w.
Proof.
  induction ws as [|w0 ws IH]; intros i w Hall Hi; [done|].
  apply Forall_cons in Hall as [H0 Hall]. rewrite substring_take_drop. cbn [foldr].
  destruct i as [|i].
  - injection Hi as <-. change (64 * 0)%nat with 0%nat. cbn [Js.drop].
    rewrite <- H0 at 1. apply take_app_length.
  - replace (64 * S i)%nat with (String.length w0 + 64 * i)%nat by lia.
    rewrite drop_app_length, <- substring_take_drop. by apply IH.
Qed.

Lemma hex_no_0x s : all_chars is_hex_char s = true -> Js.startsWith s "0x" = false.
Proof.
  intros Hs. destruct (Js.startsWith s "0x") eqn:E; [|done].
  apply startsWith_inv in E as [t ->]. simpl in Hs. done.
Qed.

Lemma all_chars_concat p ws :
  Forall (fun w => all_chars p w = true) ws -> all_chars p (foldr String.append "" ws) = true.
Proof.
  induction 1 as [|w ws Hw _ IH]; [done|]. cbn [foldr]. by rewrite all_chars_app, Hw, IH.
Qed.

Lemma uint256_words_decode vs (i : nat) v :
  Forall (fun v => 0 <= v < 2 ^ 256) vs -> vs !! i = Some v ->
  let data := foldr String.append "" (uint256_word <$> vs) in
  clean data = data
  /\ BigInt.of_string ("0x" +:+ substring (64 * i) 64 data) = Ok v.
Proof.
  intros Hvs Hi data.
  assert (Forall (fun w => String.length w = 64%nat) (uint256_word <$> vs)) as Hlen.
  { apply Forall_fmap. eapply Forall_impl; [exact Hvs|]. intros u Hu. simpl.
    by destruct (uint256_word_spec u Hu). }
  assert (Forall (fun w => all_chars is_hex_char w = true) (uint256_word <$> vs)) as Hhex.
  { apply Forall_fmap. eapply Forall_impl; [exact Hvs|]. intros u Hu. simpl.
    by destruct (uint256_word_spec u Hu) as (_ & ? & _). }
  split.
  { apply clean_bare, hex_no_0x. by apply all_chars_concat. }
  unfold data. rewrite (nth_word _ i (uint256_word v) Hlen).
  2:{ by rewrite list_lookup_fmap, Hi. }
  assert (0 <= v < 2 ^ 256) as Hv by by eapply (proj1 (Forall_lookup _ _)) in Hvs.
  destruct (uint256_word_spec v Hv) as (Hl & Hh & Hp).
  apply of_string_hex; [|done..]. intros He. by rewrite He in Hl.
Qed.

Lemma unknown_tag_word type value :
  known_tag type = false ->
  (if String.eqb type "bytes32" then encodeBytes32 value
   else if String.eqb type "address" then encodeAddress value
   else if String.eqb type "uint256" then encodeUint256 value
   else Ok "") = Ok "".
Proof.
  unfold known_tag. intros [[-> ->]%orb_false_elim ->]%orb_false_elim. done.
Qed.

Lemma encodeParameters_loop_skip type value types1 : forall values1 types2 values2 encoded,
  known_tag type = false -> length types1 = length values1 ->
  encodeParameters_loop (types1 ++ type :: types2) (values1 ++ value :: values2) encoded
  = encodeParameters_loop (types1 ++ types2) (values1 ++ values2) encoded.
Proof.
  induction types1 as [|t types1 IH]; intros [|x values1] types2 values2 encoded Ht Hlen;
    try done.
  - cbn [app encodeParameters_loop hd tl]. rewrite unknown_tag_word by done.
    cbv [mbind result_bind]. by rewrite str_app_nil_r.
  - cbn [app encodeParameters_loop hd tl].
    destruct (if String.eqb t "bytes32" then _ else _) as [w|e]; cbv [mbind result_bind];
      [|done].
    apply IH; [done|]. simpl in Hlen. lia.
Qed.

Lemma known_tag_undefined type :
  known_tag type = true ->
  (if String.eqb type "bytes32" then encodeBytes32 VUndefined
   else if String.eqb type "address" then encodeAddress VUndefined
   else if String.eqb type "uint256" then encodeUint256 VUndefined
   else Ok "") = Throw TypeError.
Proof.
  unfold known_tag. destruct (String.eqb type "bytes32"); [done|].
  destruct (String.eqb type "address"); [done|].
  by destruct (String.eqb type "uint256").
Qed.

Lemma encodeParameters_loop_missing values : forall types type encoded,
  Forall2 (fun type value => fits_word type value = true)
    (take (length values) types) values ->
  types !! length values = Some type -> known_tag type = true ->
  encodeParameters_loop types values encoded = Throw TypeError.
Proof.
  induction values as [|value values IH]; intros [|t types] type encoded Hfit Hi Hk; try done.
  - injection Hi as ->. cbn [encodeParameters_loop hd]. by rewrite known_tag_undefined.
  - cbn [length take] in Hfit. apply Forall2_cons in Hfit as [Hv Hfit].
    destruct (word_fits _ _ Hv) as (w & Hw & _).
    rewrite (encodeParameters_loop_cons _ _ _ _ _ w Hw). by eapply IH.
Qed.

End Words.

(** X9.  Integers in [0, 2^256) passed as [uint256] parameters are read
    back by the decoder: the [i]-th of them by [decodeUint256] at offset
    [64 * i] of the encoded parameters, with or without a [0x] in front,
    and the first of them by [decodeInt224] too. *)
Theorem uint256_words_round_trip (vs : list Z) (i : nat) (v : Z) :
  Forall (fun v => 0 <= v < 2 ^ 256) vs -> vs !! i = Some v ->
  exists data,
    encodeParameters (replicate (length vs) "uint256") (VBigInt <$> vs) = Ok data
    /\ String.length data = (64 * length vs)%nat
    /\ decodeUint256 data (Some (Z.of_nat (64 * i))) = Ok v
    /\ decodeUint256 ("0x" +:+ data) (Some (Z.of_nat (64 * i))) = Ok v
    /\ (i = 0%nat -> decodeInt224 data = Ok v /\ decodeUint256 data None = Ok v).
Proof.
  intros Hvs Hi. eexists. split.
  { unfold encodeParameters. rewrite encodeParameters_loop_uint256. reflexivity. }
  destruct (uint256_words_decode vs i v Hvs Hi) as [Hclean Hword].
  cbn [String.append] in *. split.
  { clear Hi Hclean Hword. induction Hvs as [|u vs Hu _ IH]; [done|].
    cbn [fmap list_fmap foldr length]. rewrite str_length_app, IH.
    destruct (encodeUint256_in_range u Hu) as (_ & Hl & _).
    unfold Js.padStart. rewrite Hl. lia. }
  split; [by rewrite decodeUint256_at, Hclean|]. split.
  { rewrite decodeUint256_at, clean_prefixed by apply startsWith_0x_app.
    by change (Js.drop 2 ("0x" +:+ ?s)) with s. }
  intros ->. split.
  - by rewrite decodeInt224_at, Hclean.
  - change (decodeUint256 ?h None) with (decodeUint256 h (Some (Z.of_nat 0))).
    by rewrite decodeUint256_at, Hclean.
Qed.

Lemma uint256_words_round_trip_witness :
  exists data,
    encodeParameters ["uint256"; "uint256"] [VBigInt 7; VBigInt 1700000000] = Ok data
    /\ decodeUint256 data (Some 64) = Ok 1700000000.
Proof.
  destruct (uint256_words_round_trip [7; 1700000000] 1 1700000000) as (data & H1 & _ & H2 & _).
  - repeat constructor; lia.
  - reflexivity.
  - exists data. split; [exact H1 | exact H2].
Defined.

(** X10.  A tag other than [bytes32], [address] and [uint256] adds nothing
    to the encoded parameters and its value is not looked at: the result
    is that of the lists without the parameter.  So the [uint8] of
    [castVote(uint256,uint8)] is left out of the call data. *)
Theorem unknown_tag_is_skipped (types1 types2 : list string) (values1 values2 : list JsValue)
    (type : string) (value : JsValue) :
  known_tag type = false -> length types1 = length values1 ->
  encodeParameters (types1 ++ type :: types2) (values1 ++ value :: values2)
  = encodeParameters (types1 ++ types2) (values1 ++ values2).
Proof. intros Ht Hlen. by apply encodeParameters_loop_skip. Qed.

Lemma unknown_tag_is_skipped_witness :
  encodeParameters ["uint256"; "uint8"] [VNumber 12; VNumber 1]
  = encodeParameters ["uint256"] [VNumber 12].
Proof.
  apply (unknown_tag_is_skipped ["uint256"] [] [VNumber 12] [] "uint8" (VNumber 1));
    reflexivity.
Defined.

(** X11.  When the values run out before the tags do, the values present
    fitting their words and the first tag without a value being one of
    the three known ones, the encoder fails with a TypeError: the missing
    value is [undefined], on which every encoder throws. *)
Theorem missing_value_type_error (functionName : string) (types : list string)
    (values : list JsValue) (type : string) :
  Forall2 (fun type value => fits_word type value = true)
    (take (length values) types) values ->
  types !! length values = Some type -> known_tag type = true ->
  encodeParameters types values = Throw TypeError
  /\ encodeFunctionCall functionName types values = Throw TypeError.
Proof.
  intros Hfit Hi Hk.
  assert (encodeParameters types values = Throw TypeError) as H
    by by eapply encodeParameters_loop_missing.
  split; [done|]. unfold encodeFunctionCall. by rewrite H.
Qed.

Lemma missing_value_type_error_witness :
  encodeFunctionCall "transfer" ["address"; "uint256"]
    [VString "0x742d35Cc6634C0532925a3b844Bc9e7595f1dE00"] = Throw TypeError.
Proof.
  apply (missing_value_type_error "transfer" ["address"; "uint256"]
           [VString "0x742d35Cc6634C0532925a3b844Bc9e7595f1dE00"] "uint256").
  - repeat constructor.
  - reflexivity.
  - reflexivity.
Defined.

(** ** The handlers, run against a transport *)

Section Handlers.

Variable t : Transport.
Variable credentials : Credentials.t.
Let rpcEndpoint := Credentials.rpcEndpoint credentials.
Let network := Credentials.network credentials.

Lemma run_try_catch {A} (p : Prog A) (handler : JsError -> Prog A) :
  run t (try_catch p handler)
  = match run t p with
    | (Ok a, reqs) => (Ok a, reqs)
    | (Throw e, reqs) => let '(r, reqs') := run t (handler e) in (r, (reqs ++ reqs')%list)
    end.
Proof.
  induction p as [a|e|request k IH]; simpl.
  - done.
  - by destruct (run t (handler e)).
  - rewrite IH. destruct (run t (k (t request))) as [[a|e] reqs]; [done|].
    by destruct (run t (handler e)).
Qed.

Lemma run_call_to_then_decode {A} to data (decode : string -> result A)
    (k : string -> Prog A) :
  (forall response, k response = lift (decode response)) ->
  run t (makeEthCall rpcEndpoint to data ≫= k)
  = (rpcOutcome (t (callRequest rpcEndpoint to data)) ≫= decode,
     [callRequest rpcEndpoint to data]).
Proof.
  intros Hk. rewrite run_bind, run_makeEthCall.
  destruct (rpcOutcome _) as [response|e]; [|done]. by rewrite Hk, run_lift.
Qed.

Lemma run_call_then_decode {A} to data (decode : string -> result A)
    (k : string -> Prog A) :
  (forall response, k response = lift (decode response)) ->
  run t (makeEthCall rpcEndpoint (Some to) data ≫= k)
  = (rpcOutcome (t (ethCallRequest rpcEndpoint to data)) ≫= decode,
     [ethCallRequest rpcEndpoint to data]).
Proof. apply run_call_to_then_decode. Qed.

(** The call data of the reads. *)
Lemma feed_call_data feedId :
  isValidBytes32 feedId = true ->
  encodeFunctionCall "readDataFeedWithId" ["bytes32"] [VString feedId]
  = Ok ("0x47bd3e9e" +:+ Js.drop 2 feedId).
Proof.
  intros H. unfold encodeFunctionCall, encodeParameters.
  cbn [encodeParameters_loop hd tl].
  change (String.eqb "bytes32" "bytes32") with true. cbv iota.
  by rewrite encodeBytes32_valid.
Qed.

Lemma address_call_data functionName selector a :
  isValidAddress a = true ->
  getFunctionSelector functionName ["address"] = selector ->
  encodeFunctionCall functionName ["address"] [VString a]
  = Ok (selector +:+ Js.repeat Js.zero 24 +:+ Js.toLowerCase (Js.drop 2 a)).
Proof.
  intros H <-. unfold encodeFunctionCall, encodeParameters.
  cbn [encodeParameters_loop hd tl].
  change (String.eqb "address" "bytes32") with false.
  change (String.eqb "address" "address") with true. cbv iota.
  by rewrite encodeAddress_valid.
Qed.

Lemma run_readDataFeedById feedId config :
  isValidBytes32 feedId = true ->
  NETWORK_CONFIGS !! network = Some config ->
  run t (readDataFeedById rpcEndpoint network feedId)
  = (rpcOutcome (t (ethCallRequest rpcEndpoint (NetworkConfig.dapiServerAddress config)
                      ("0x47bd3e9e" +:+ Js.drop 2 feedId))) ≫= decodeReading,
     [ethCallRequest rpcEndpoint (NetworkConfig.dapiServerAddress config)
        ("0x47bd3e9e" +:+ Js.drop 2 feedId)]).
Proof.
  intros Hid Hc. unfold readDataFeedById, getNetworkConfig, lookupConfig. rewrite Hc.
  rewrite feed_call_data by done.
  apply run_call_then_decode, decode_reading_program.
Qed.

(** The read of a feed on any network: the lookup of the network decides
    whether a request is made, and to which address. *)
Lemma run_readDataFeedById_looked_up feedId :
  isValidBytes32 feedId = true ->
  run t (readDataFeedById rpcEndpoint network feedId)
  = match lookupConfig network with
    | Some config =>
        (rpcOutcome (t (callRequest rpcEndpoint (Config.dapiServerAddress config)
                          ("0x47bd3e9e" +:+ Js.drop 2 feedId))) ≫= decodeReading,
         [callRequest rpcEndpoint (Config.dapiServerAddress config)
            ("0x47bd3e9e" +:+ Js.drop 2 feedId)])
    | None => (Throw (Error ("Unsupported network: " +:+ network)), [])
    end.
Proof.
  intros Hid. unfold readDataFeedById, getNetworkConfig.
  destruct (lookupConfig network) as [config|]; [|done].
  rewrite feed_call_data by done.
  apply run_call_to_then_decode, decode_reading_program.
Qed.

Lemma formatWithDecimals_total v d : exists text, formatWithDecimals (VBigInt v) d = Ok text.
Proof.
  unfold formatWithDecimals. cbv [BigInt_of mbind result_bind].
  destruct (_ =? 0); by eexists.
Qed.

(** A response of two words, as the server answers a feed read. *)
Lemma decodeReading_words value timestamp :
  0 <= value < 2 ^ 256 -> 0 <= timestamp < 2 ^ 53 ->
  decodeReading ("0x" +:+ Js.padStart (BigInt.toString_radix 16 value) 64 Js.zero
                      +:+ Js.padStart (BigInt.toString_radix 16 timestamp) 64 Js.zero)
  = Ok (Reading.mk value timestamp).
Proof.
  intros Hv Ht.
  assert (Forall (fun v => 0 <= v < 2 ^ 256) [value; timestamp]) as Hvs.
  { repeat constructor; lia. }
  pose proof (uint256_words_decode [value; timestamp] 0 value Hvs eq_refl) as [Hclean H0].
  pose proof (uint256_words_decode [value; timestamp] 1 timestamp Hvs eq_refl) as [_ H1].
  cbn [fmap list_fmap foldr] in Hclean, H0, H1. rewrite str_app_nil_r in Hclean, H0, H1.
  unfold decodeReading.
  rewrite decodeInt224_at. change (Some 64) with (Some (Z.of_nat 64)).
  rewrite decodeUint32_at, clean_prefixed by apply startsWith_0x_app.
  change (Js.drop 2 ("0x" +:+ ?s)) with s.
  change (64 * 0)%nat with 0%nat in H0. change (64 * 1)%nat with 64%nat in H1.
  rewrite H0, H1. cbv [mbind result_bind]. by rewrite toNumber_small.
Qed.

Lemma readDataFeedOperation_invalid feedId :
  isValidBytes32 feedId = false ->
  run t (readDataFeedOperation credentials feedId)
  = (Throw (NodeOperationError "Invalid feed ID format. Must be a bytes32 value."), []).
Proof. intros H. unfold readDataFeedOperation. by rewrite H. Qed.

Lemma readDataFeedOperation_answered feedId config value timestamp :
  isValidBytes32 feedId = true ->
  NETWORK_CONFIGS !! network = Some config ->
  0 <= value < 2 ^ 256 -> 0 <= timestamp < 2 ^ 53 ->
  t (ethCallRequest rpcEndpoint (NetworkConfig.dapiServerAddress config)
       ("0x47bd3e9e" +:+ Js.drop 2 feedId))
  = RpcResult ("0x" +:+ Js.padStart (BigInt.toString_radix 16 value) 64 Js.zero
                    +:+ Js.padStart (BigInt.toString_radix 16 timestamp) 64 Js.zero) ->
  exists formatted,
    run t (readDataFeedOperation credentials feedId)
    = (Ok (DataFeedValue.mk feedId (BigInt.toString value) timestamp formatted 18),
       [ethCallRequest rpcEndpoint (NetworkConfig.dapiServerAddress config)
          ("0x47bd3e9e" +:+ Js.drop 2 feedId)])
    /\ parseWithDecimals formatted 18 = Ok value.
Proof.
  intros Hid Hc Hv Ht Hanswer.
  destruct (format_then_parse value 18 (proj1 Hv)) as (formatted & Hf & Hp).
  exists formatted. split; [|done].
  unfold readDataFeedOperation. rewrite Hid. cbn [negb].
  fold rpcEndpoint network. rewrite run_bind, (run_readDataFeedById feedId config) by done.
  rewrite Hanswer. cbn [rpcOutcome]. cbv [mbind result_bind].
  rewrite decodeReading_words by done. cbn [Reading.value Reading.timestamp].
  unfold DEFAULT_DECIMALS. by rewrite Hf.
Qed.

(** One turn of the loop of the batch handler on a well-formed id: the
    requests are those of the read, and a read that fails leaves a record
    of zeros. *)
Lemma run_feed_attempt feedId results :
  isValidBytes32 feedId = true ->
  exists record,
    run t (try_catch
             (reading ← readDataFeedById rpcEndpoint network feedId;
              formattedValue ← lift (formatWithDecimals (VBigInt (Reading.value reading))
                                       DEFAULT_DECIMALS);
              Ret (results ++ [DataFeedValue.mk feedId
                                 (BigInt.toString (Reading.value reading))
                                 (Reading.timestamp reading) formattedValue
                                 DEFAULT_DECIMALS])%list)
             (fun _ => Ret (results ++ [DataFeedValue.mk feedId "0" 0 "0" DEFAULT_DECIMALS])%list))
    = (Ok (results ++ [record])%list, requests t (readDataFeedById rpcEndpoint network feedId))
    /\ DataFeedValue.feedId record = feedId
    /\ (forall e,
          outcome t (readDataFeedById rpcEndpoint network feedId) = Throw e ->
          record = DataFeedValue.mk feedId "0" 0 "0" DEFAULT_DECIMALS)
    /\ (forall reading,
          outcome t (readDataFeedById rpcEndpoint network feedId) = Ok reading ->
          DataFeedValue.value record = BigInt.toString (Reading.value reading)
          /\ DataFeedValue.timestamp record = Reading.timestamp reading).
Proof.
  intros Hid. rewrite run_try_catch, run_bind. unfold outcome, requests.
  destruct (run t (readDataFeedById rpcEndpoint network feedId)) as [[reading|e] reqs].
  - destruct (formatWithDecimals_total (Reading.value reading) DEFAULT_DECIMALS)
      as [formatted Hf].
    rewrite Hf. cbn [lift mbind Prog_mbind Prog_bind run fst snd]. rewrite app_nil_r.
    eexists. split; [done|]. split; [done|]. split; [done|]. by intros ? [= <-].
  - cbn [run fst snd]. rewrite app_nil_r.
    eexists. split; [done|]. split; [done|]. split; [done|]. done.
Qed.

Lemma getMultipleFeeds_loop_shape feedIds : forall results,
  exists records,
    run t (getMultipleFeeds_loop credentials feedIds results)
    = (Ok (results ++ records)%list,
       flat_map (fun feedId => requests t (readDataFeedById rpcEndpoint network feedId))
         (List.filter isValidBytes32 feedIds))
    /\ Forall2
         (fun feedId record =>
            DataFeedValue.feedId record = feedId
            /\ (forall e,
                  outcome t (readDataFeedById rpcEndpoint network feedId) = Throw e ->
                  record = DataFeedValue.mk feedId "0" 0 "0" DEFAULT_DECIMALS)
            /\ (forall reading,
                  outcome t (readDataFeedById rpcEndpoint network feedId) = Ok reading ->
                  DataFeedValue.value record = BigInt.toString (Reading.value reading)
                  /\ DataFeedValue.timestamp record = Reading.timestamp reading))
         (List.filter isValidBytes32 feedIds) records.
Proof.
  induction feedIds as [|feedId feedIds IH]; intros results.
  - exists []. cbn [getMultipleFeeds_loop List.filter flat_map run]. rewrite app_nil_r.
    split; [done | constructor].
  - cbn [getMultipleFeeds_loop List.filter].
    destruct (isValidBytes32 feedId) eqn:Hid; cbn [negb]; [|apply IH].
    fold rpcEndpoint network. rewrite run_bind.
    destruct (run_feed_attempt feedId results Hid) as (record & -> & Hrecord).
    destruct (IH (results ++ [record])%list) as (records & -> & Hrecords).
    exists (record :: records). split.
    + by rewrite <- app_assoc.
    + by constructor.
Qed.

(** The requests of the reads of a list of well-formed ids. *)
Lemma requests_of_reads feedIds :
  Forall (fun feedId => isValidBytes32 feedId = true) feedIds ->
  flat_map (fun feedId => requests t (readDataFeedById rpcEndpoint network feedId)) feedIds
  = match lookupConfig network with
    | Some config =>
        map (fun feedId =>
               callRequest rpcEndpoint (Config.dapiServerAddress config)
                 ("0x47bd3e9e" +:+ Js.drop 2 feedId))
          feedIds
    | None => []
    end.
Proof.
  induction 1 as [|feedId feedIds Hid _ IH]; cbn [flat_map map].
  - by destruct (lookupConfig network).
  - rewrite IH. unfold requests. rewrite run_readDataFeedById_looked_up by done.
    by destruct (lookupConfig network).
Qed.

Lemma filter_valid feedIds :
  Forall (fun feedId => isValidBytes32 feedId = true) (List.filter isValidBytes32 feedIds).
Proof.
  apply List.Forall_forall. intros feedId H. by apply List.filter_In in H as [_ H].
Qed.

End Handlers.

(** X12.  [readDataFeedOperation], from the feed id to the record.  An id
    that is not a bytes32 value is turned down before any request.  For a
    well-formed id on a known network the handler issues one [eth_call]
    to the dAPI server of the network, its data the selector [0x47bd3e9e]
    and the 64 digits of the id; when the answer is the two words of a
    value and a timestamp, the record carries the value in decimal, the
    timestamp, and a formatted value that [parseWithDecimals] reads back
    to the value. *)
Theorem readDataFeedOperation_reads (t : Transport) (credentials : Credentials.t)
    (feedId : string) (config : NetworkConfig.t) (value timestamp : Z) :
  (isValidBytes32 feedId = false ->
   run t (readDataFeedOperation credentials feedId)
   = (Throw (NodeOperationError "Invalid feed ID format. Must be a bytes32 value."), []))
  /\ (isValidBytes32 feedId = true ->
      NETWORK_CONFIGS !! Credentials.network credentials = Some config ->
      0 <= value < 2 ^ 256 -> 0 <= timestamp < 2 ^ 53 ->
      let request :=
        ethCallRequest (Credentials.rpcEndpoint credentials)
          (NetworkConfig.dapiServerAddress config) ("0x47bd3e9e" +:+ Js.drop 2 feedId) in
      t request
      = RpcResult ("0x" +:+ Js.padStart (BigInt.toString_radix 16 value) 64 Js.zero
                        +:+ Js.padStart (BigInt.toString_radix 16 timestamp) 64 Js.zero) ->
      exists formatted,
        run t (readDataFeedOperation credentials feedId)
        = (Ok (DataFeedValue.mk feedId (BigInt.toString value) timestamp formatted 18),
           [request])
        /\ parseWithDecimals formatted 18 = Ok value).
Proof.
  split; [apply readDataFeedOperation_invalid|].
  intros. by apply readDataFeedOperation_answered.
Qed.

Lemma readDataFeedOperation_reads_witness :
  run unreachable (readDataFeedOperation mainnet "ETH/USD")
  = (Throw (NodeOperationError "Invalid feed ID format. Must be a bytes32 value."), [])
  /\ exists formatted,
       run priceFeed (readDataFeedOperation mainnet someFeed)
       = (Ok (DataFeedValue.mk someFeed "2500000000000000000000" 1700000000 formatted 18),
          [ethCallRequest "https://rpc.example" "0x3dEC619dc529363767dEe9E71d8dD1A5bc270D76"
             "0x47bd3e9e4385954e058fbe6b6a744f32a4f89d67aad099f8fb8b23e7ea8dd366ae88151d"])
       /\ parseWithDecimals formatted 18 = Ok 2500000000000000000000.
Proof.
  destruct (readDataFeedOperation_reads unreachable mainnet "ETH/USD"
              (entry 0 "" "" "") 0 0) as [Hinvalid _].
  split; [apply Hinvalid; reflexivity|].
  destruct (readDataFeedOperation_reads priceFeed mainnet someFeed
              (NetworkConfig.mk 1 "Ethereum Mainnet" None "https://etherscan.io"
                 "0x3dEC619dc529363767dEe9E71d8dD1A5bc270D76"
                 (Some "0x0b38210ea11411557c13457D4dA7dC6ea731B88a")
                 (Some "0x6dd655f10d4b9E242aE186D9050B68F725c76d76")
                 (Some "0x1d7573de8b3cF1c5B0e16be54a0E20a78B8e5e6e4"))
              2500000000000000000000 1700000000) as [_ H].
  apply H; [reflexivity | reflexivity | lia | lia | reflexivity].
Defined.

(** C9, on the code.  The batch handler of the data feeds never fails
    and does not pass the failure of a read on.  It answers with one
    record per well-formed id of its list, in order; the record of a feed
    whose read failed, by the lookup of the network, by the call or by
    the decoding of the result, is a record of zeros (value "0",
    timestamp 0, formatted value "0"), which stands in the answer like
    the record of a feed that was read.  The source says of that branch
    that it skips failed feeds. *)
Theorem failed_feed_answered_with_zeros (t : Transport) (credentials : Credentials.t)
    (feedIdsStr : string) :
  let rpcEndpoint := Credentials.rpcEndpoint credentials in
  let network := Credentials.network credentials in
  let feedIds := List.filter isValidBytes32 (map Js.trim (Js.split "," feedIdsStr)) in
  exists records,
    outcome t (getMultipleFeedsOperation credentials feedIdsStr) = Ok records
    /\ Forall2
         (fun feedId record =>
            DataFeedValue.feedId record = feedId
            /\ (forall e,
                  outcome t (readDataFeedById rpcEndpoint network feedId) = Throw e ->
                  record = DataFeedValue.mk feedId "0" 0 "0" 18)
            /\ (forall reading,
                  outcome t (readDataFeedById rpcEndpoint network feedId) = Ok reading ->
                  DataFeedValue.value record = BigInt.toString (Reading.value reading)
                  /\ DataFeedValue.timestamp record = Reading.timestamp reading))
         feedIds records.
Proof.
  intros rpcEndpoint network feedIds. unfold getMultipleFeedsOperation, outcome.
  destruct (getMultipleFeeds_loop_shape t credentials
              (map Js.trim (Js.split "," feedIdsStr)) [])
    as (records & -> & Hrecords).
  by exists records.
Qed.

Lemma failed_feed_answered_with_zeros_witness :
  outcome unreachable (getMultipleFeedsOperation mainnet someFeed)
  = Ok [DataFeedValue.mk someFeed "0" 0 "0" 18].
Proof.
  destruct (failed_feed_answered_with_zeros unreachable mainnet someFeed)
    as (records & -> & Hrecords).
  apply Forall2_cons_inv_l in Hrecords as (record & rest & (_ & Hzero & _) & Hrest & ->).
  apply Forall2_nil_inv_l in Hrest as ->.
  by rewrite (Hzero (NodeApiError "connect ETIMEDOUT" "Failed to make RPC call") eq_refl).
Defined.

(** X13.  The batch handler answers with one record per well-formed id of
    the comma-separated list, in the order of the list, each carrying its
    id; ids that are not bytes32 values, once trimmed, are left out.  On a
    network of the registry it issues one request per well-formed id, in
    that order, to the dAPI server of the network.  Under a name that is
    neither in the registry nor inherited from [Object.prototype] it
    issues no request and every record is the record of zeros.  Under an
    inherited name, [constructor] say, the lookup of the network does not
    fail: the handler issues one request per id, with no [to]. *)
Theorem getMultipleFeeds_one_record_per_id (t : Transport) (credentials : Credentials.t)
    (feedIdsStr : string) :
  let rpcEndpoint := Credentials.rpcEndpoint credentials in
  let network := Credentials.network credentials in
  let feedIds := List.filter isValidBytes32 (map Js.trim (Js.split "," feedIdsStr)) in
  let data feedId := "0x47bd3e9e" +:+ Js.drop 2 feedId in
  exists records,
    outcome t (getMultipleFeedsOperation credentials feedIdsStr) = Ok records
    /\ map DataFeedValue.feedId records = feedIds
    /\ (forall config,
          NETWORK_CONFIGS !! network = Some config ->
          requests t (getMultipleFeedsOperation credentials feedIdsStr)
          = map (fun feedId =>
                   ethCallRequest rpcEndpoint (NetworkConfig.dapiServerAddress config)
                     (data feedId))
              feedIds)
    /\ (network ∉ explorers.*1 -> network ∉ inherited_names ->
        requests t (getMultipleFeedsOperation credentials feedIdsStr) = []
        /\ records = map (fun feedId => DataFeedValue.mk feedId "0" 0 "0" 18) feedIds)
    /\ (network ∈ inherited_names ->
        requests t (getMultipleFeedsOperation credentials feedIdsStr)
        = map (fun feedId => callRequest rpcEndpoint None (data feedId)) feedIds).
Proof.
  intros rpcEndpoint network feedIds data.
  unfold getMultipleFeedsOperation, outcome, requests.
  destruct (getMultipleFeeds_loop_shape t credentials
              (map Js.trim (Js.split "," feedIdsStr)) [])
    as (records & -> & Hrecords).
  cbn [fst snd]. rewrite requests_of_reads by apply filter_valid.
  fold rpcEndpoint network feedIds in Hrecords |- *. clearbody feedIds.
  exists records. split; [done|]. split; [|split; [|split]].
  - clear -Hrecords. induction Hrecords as [|feedId record ? ? [<- _] _ IH]; [done|].
    cbn [map]. by rewrite IH.
  - intros config Hc. unfold lookupConfig. by rewrite Hc.
  - intros H1 H2. rewrite lookupConfig_unknown by done. split; [done|].
    assert (forall feedId,
              outcome t (readDataFeedById rpcEndpoint network feedId)
              = Throw (Error ("Unsupported network: " +:+ network))) as Hfails.
    { intros feedId. unfold outcome, readDataFeedById, getNetworkConfig.
      by rewrite lookupConfig_unknown. }
    clear -Hrecords Hfails.
    induction Hrecords as [|feedId record ? ? (_ & Hzero & _) _ IH]; [done|].
    cbn [map]. by rewrite IH, (Hzero _ (Hfails feedId)).
  - intros H. destruct (lookupConfig_inherited network H) as [name ->]. done.
Qed.

(** ** The staking handlers on Ethereum *)

Section Staking.

Variable t : Transport.
Variable credentials : Credentials.t.
Let rpcEndpoint := Credentials.rpcEndpoint credentials.
Hypothesis on_ethereum : Credentials.network credentials = "ethereum".

Let pool := "0x6dd655f10d4b9E242aE186D9050B68F725c76d76".

Lemma staking_supported : supportsStaking (Credentials.network credentials) = true.
Proof. by rewrite on_ethereum. Qed.

Lemma ethereumStakingPool_configured : ethereumStakingPool = Ret pool.
Proof. reflexivity. Qed.

Lemma weiToEther_total v : exists ether, weiToEther (VBigInt v) = Ok ether.
Proof.
  unfold weiToEther. cbv [BigInt_of mbind result_bind].
  destruct (String.eqb _ _); by eexists.
Qed.

Lemma run_readApr :
  run t (readApr credentials pool)
  = (Ok match rpcOutcome (t (ethCallRequest rpcEndpoint pool "0x37965dbe"))
              ≫= (fun result => decodeUint256 result None) with
        | Ok aprValue => AprOnChain aprValue
        | Throw _ => AprFallback
        end,
     [ethCallRequest rpcEndpoint pool "0x37965dbe"]).
Proof.
  unfold readApr. rewrite run_try_catch.
  change (encodeFunctionCall "apr" [] []) with (Ok (A := string) "0x37965dbe").
  change (lift (Ok ?x) ≫= ?f) with (f x). cbv beta.
  rewrite run_bind, run_makeEthCall. fold rpcEndpoint.
  destruct (rpcOutcome _) as [result|e]; [|done]. cbv [mbind result_bind].
  rewrite run_bind, run_lift. by destruct (decodeUint256 result None).
Qed.

Lemma run_readPendingRewards userAddress :
  isValidAddress userAddress = true ->
  let request :=
    ethCallRequest rpcEndpoint pool
      ("0x44fa9a7a" +:+ Js.repeat Js.zero 24 +:+ Js.toLowerCase (Js.drop 2 userAddress)) in
  run t (readPendingRewards credentials pool userAddress)
  = (Ok match rpcOutcome (t request) ≫= (fun result => decodeUint256 result None) with
        | Ok pendingRewards => pendingRewards
        | Throw _ => 0
        end,
     [request]).
Proof.
  intros Ha request. unfold readPendingRewards. rewrite run_try_catch.
  rewrite (address_call_data "getUserReward" "0x44fa9a7a") by done.
  change (lift (Ok ?x) ≫= ?f) with (f x). cbv beta.
  rewrite (run_call_then_decode t credentials _ _ (fun result => decodeUint256 result None))
    by done.
  fold rpcEndpoint request. by destruct (_ ≫= _).
Qed.

Lemma run_getTotalStake :
  run t (getTotalStake rpcEndpoint pool)
  = (rpcOutcome (t (ethCallRequest rpcEndpoint pool "0x8b0e9f3f"))
       ≫= (fun result => decodeUint256 result None),
     [ethCallRequest rpcEndpoint pool "0x8b0e9f3f"]).
Proof.
  unfold getTotalStake.
  change (encodeFunctionCall "totalStake" [] []) with (Ok (A := string) "0x8b0e9f3f").
  change (lift (Ok ?x) ≫= ?f) with (f x). cbv beta.
  by apply (run_call_then_decode t credentials).
Qed.

Lemma run_getUserStake userAddress :
  isValidAddress userAddress = true ->
  let request :=
    ethCallRequest rpcEndpoint pool
      ("0x66666aa9" +:+ Js.repeat Js.zero 24 +:+ Js.toLowerCase (Js.drop 2 userAddress)) in
  run t (getUserStake rpcEndpoint pool userAddress)
  = (rpcOutcome (t request) ≫= (fun result => decodeUint256 result None), [request]).
Proof.
  intros Ha request. unfold getUserStake.
  rewrite (address_call_data "userStake" "0x66666aa9") by done.
  change (lift (Ok ?x) ≫= ?f) with (f x). cbv beta.
  by apply (run_call_then_decode t credentials).
Qed.

Lemma run_getRewardsOperation userAddress :
  isValidAddress userAddress = true ->
  let request :=
    ethCallRequest rpcEndpoint pool
      ("0x44fa9a7a" +:+ Js.repeat Js.zero 24 +:+ Js.toLowerCase (Js.drop 2 userAddress)) in
  let pendingRewards :=
    match rpcOutcome (t request) ≫= (fun result => decodeUint256 result None) with
    | Ok pendingRewards => pendingRewards
    | Throw _ => 0
    end in
  exists rewards,
    weiToEther (VBigInt pendingRewards) = Ok rewards
    /\ run t (getRewardsOperation credentials userAddress)
       = (Ok (Rewards.mk userAddress rewards "0%"), [request]).
Proof.
  intros Ha request pendingRewards.
  destruct (weiToEther_total pendingRewards) as [rewards Hw].
  exists rewards. split; [done|].
  unfold getRewardsOperation. rewrite Ha, staking_supported. cbn [negb].
  rewrite ethereumStakingPool_configured. change (Ret pool ≫= ?f) with (f pool). cbv beta.
  rewrite run_bind, run_readPendingRewards by done. fold request pendingRewards.
  cbv zeta. rewrite run_bind, run_lift, Hw. reflexivity.
Qed.

Lemma run_getAPROperation :
  run t (getAPROperation credentials)
  = (Ok match rpcOutcome (t (ethCallRequest rpcEndpoint pool "0x37965dbe"))
              ≫= (fun result => decodeUint256 result None) with
        | Ok aprValue => AprOnChain aprValue
        | Throw _ => AprFallback
        end,
     [ethCallRequest rpcEndpoint pool "0x37965dbe"]).
Proof.
  unfold getAPROperation. rewrite staking_supported. cbn [negb].
  rewrite ethereumStakingPool_configured. change (Ret pool ≫= ?f) with (f pool). cbv beta.
  apply run_readApr.
Qed.

Lemma run_getStakingInfoOperation :
  let stakeRequest := ethCallRequest rpcEndpoint pool "0x8b0e9f3f" in
  let aprRequest := ethCallRequest rpcEndpoint pool "0x37965dbe" in
  match rpcOutcome (t stakeRequest) ≫= (fun result => decodeUint256 result None) with
  | Throw e => run t (getStakingInfoOperation credentials) = (Throw e, [stakeRequest])
  | Ok totalStaked =>
      exists text,
        weiToEther (VBigInt totalStaked) = Ok text
        /\ run t (getStakingInfoOperation credentials)
           = (Ok (StakingInfo.mk text
                    match rpcOutcome (t aprRequest)
                            ≫= (fun result => decodeUint256 result None) with
                    | Ok aprValue => AprOnChain aprValue
                    | Throw _ => AprFallback
                    end
                    "0" pool "1" 604800 0),
              [stakeRequest; aprRequest])
  end.
Proof.
  intros stakeRequest aprRequest.
  unfold getStakingInfoOperation. rewrite staking_supported. cbn [negb].
  rewrite ethereumStakingPool_configured. change (Ret pool ≫= ?f) with (f pool). cbv beta.
  fold rpcEndpoint. rewrite run_bind, run_getTotalStake. fold stakeRequest.
  destruct (_ ≫= _) as [totalStaked|e]; [|done].
  destruct (weiToEther_total totalStaked) as [text Hw]. exists text. split; [done|].
  rewrite run_bind, run_readApr. fold aprRequest.
  rewrite run_bind, run_lift, Hw. reflexivity.
Qed.

Lemma run_getUserStakeOperation userAddress :
  isValidAddress userAddress = true ->
  let word := Js.repeat Js.zero 24 +:+ Js.toLowerCase (Js.drop 2 userAddress) in
  let stakeRequest := ethCallRequest rpcEndpoint pool ("0x66666aa9" +:+ word) in
  let rewardRequest := ethCallRequest rpcEndpoint pool ("0x44fa9a7a" +:+ word) in
  match rpcOutcome (t stakeRequest) ≫= (fun result => decodeUint256 result None) with
  | Throw e =>
      run t (getUserStakeOperation credentials userAddress) = (Throw e, [stakeRequest])
  | Ok stakedAmount =>
      exists staked rewards,
        weiToEther (VBigInt stakedAmount) = Ok staked
        /\ weiToEther
             (VBigInt match rpcOutcome (t rewardRequest)
                              ≫= (fun result => decodeUint256 result None) with
                      | Ok pendingRewards => pendingRewards
                      | Throw _ => 0
                      end) = Ok rewards
        /\ run t (getUserStakeOperation credentials userAddress)
           = (Ok (UserStake.mk userAddress staked staked rewards 0 "0" 0 staked),
              [stakeRequest; rewardRequest])
  end.
Proof.
  intros Ha word stakeRequest rewardRequest.
  unfold getUserStakeOperation. rewrite Ha, staking_supported. cbn [negb].
  rewrite ethereumStakingPool_configured. change (Ret pool ≫= ?f) with (f pool). cbv beta.
  fold rpcEndpoint. rewrite run_bind, run_getUserStake by done.
  fold word stakeRequest. cbv zeta.
  destruct (_ ≫= _) as [stakedAmount|e]; [|done].
  destruct (weiToEther_total stakedAmount) as [staked Hs].
  set (pending := match rpcOutcome (t rewardRequest)
                           ≫= (fun result => decodeUint256 result None) with
                   | Ok pendingRewards => pendingRewards
                   | Throw _ => 0
                   end).
  destruct (weiToEther_total pending) as [rewards Hr].
  exists staked, rewards. split; [done|]. split; [done|].
  rewrite run_bind, run_readPendingRewards by done. fold word rewardRequest pending.
  cbv zeta. rewrite run_bind, run_lift, Hs. cbv iota beta.
  rewrite run_bind, run_lift, Hr. reflexivity.
Qed.

End Staking.

(** X14.  On Ethereum, with a well-formed address, the two handlers whose
    only read sits in a [try] never fail.  [getRewardsOperation] issues the
    one call [getUserReward(address)] to the staking pool and answers
    with the amount read, or with ["0"] when the call or the decoding
    fails; [getAPROperation] issues the one call [apr()] and answers with
    the rate read, or with the fall-back. *)
Theorem guarded_reads_never_fail (t : Transport) (credentials : Credentials.t)
    (userAddress : string) :
  Credentials.network credentials = "ethereum" ->
  isValidAddress userAddress = true ->
  let pool := "0x6dd655f10d4b9E242aE186D9050B68F725c76d76" in
  let rewardRequest :=
    ethCallRequest (Credentials.rpcEndpoint credentials) pool
      ("0x44fa9a7a" +:+ Js.repeat Js.zero 24 +:+ Js.toLowerCase (Js.drop 2 userAddress)) in
  let aprRequest := ethCallRequest (Credentials.rpcEndpoint credentials) pool "0x37965dbe" in
  (exists rewards,
     run t (getRewardsOperation credentials userAddress)
     = (Ok (Rewards.mk userAddress rewards "0%"), [rewardRequest])
     /\ match rpcOutcome (t rewardRequest) ≫= (fun result => decodeUint256 result None) with
        | Ok pendingRewards => weiToEther (VBigInt pendingRewards) = Ok rewards
        | Throw _ => rewards = "0"
        end)
  /\ run t (getAPROperation credentials)
     = (Ok match rpcOutcome (t aprRequest) ≫= (fun result => decodeUint256 result None) with
           | Ok aprValue => AprOnChain aprValue
           | Throw _ => AprFallback
           end,
        [aprRequest]).
Proof.
  intros Hnet Ha pool rewardRequest aprRequest. split.
  - destruct (run_getRewardsOperation t credentials Hnet userAddress Ha)
      as (rewards & Hw & Hrun).
    exists rewards. split; [exact Hrun|].
    fold pool rewardRequest in Hw. destruct (_ ≫= _); [done|].
    by injection Hw.
  - by apply run_getAPROperation.
Qed.

Lemma guarded_reads_never_fail_witness :
  run unreachable (getAPROperation mainnet)
  = (Ok AprFallback,
     [ethCallRequest "https://rpc.example" "0x6dd655f10d4b9E242aE186D9050B68F725c76d76"
        "0x37965dbe"]).
Proof.
  destruct (guarded_reads_never_fail unreachable mainnet someAccount) as [_ H];
    [reflexivity | reflexivity | exact H].
Defined.

(** X15.  On Ethereum the two handlers that read a stake outside a [try]
    succeed exactly when that first read does.  When it fails, by the
    call or by the decoding, the handler fails with the same error after
    the one request.  When it succeeds the handler goes on to its second
    read, which is guarded, and answers: [getStakingInfoOperation] after
    [totalStake()] and [apr()], [getUserStakeOperation] after
    [userStake(address)] and [getUserReward(address)], the staked amount
    repeated as shares and as voting power. *)
Theorem stake_read_decides (t : Transport) (credentials : Credentials.t)
    (userAddress : string) :
  Credentials.network credentials = "ethereum" ->
  isValidAddress userAddress = true ->
  let rpcEndpoint := Credentials.rpcEndpoint credentials in
  let pool := "0x6dd655f10d4b9E242aE186D9050B68F725c76d76" in
  let word := Js.repeat Js.zero 24 +:+ Js.toLowerCase (Js.drop 2 userAddress) in
  let decode := fun result => decodeUint256 result None in
  let totalRequest := ethCallRequest rpcEndpoint pool "0x8b0e9f3f" in
  let aprRequest := ethCallRequest rpcEndpoint pool "0x37965dbe" in
  let stakeRequest := ethCallRequest rpcEndpoint pool ("0x66666aa9" +:+ word) in
  let rewardRequest := ethCallRequest rpcEndpoint pool ("0x44fa9a7a" +:+ word) in
  match rpcOutcome (t totalRequest) ≫= decode with
  | Throw e => run t (getStakingInfoOperation credentials) = (Throw e, [totalRequest])
  | Ok totalStaked =>
      exists text,
        weiToEther (VBigInt totalStaked) = Ok text
        /\ run t (getStakingInfoOperation credentials)
           = (Ok (StakingInfo.mk text
                    match rpcOutcome (t aprRequest) ≫= decode with
                    | Ok aprValue => AprOnChain aprValue
                    | Throw _ => AprFallback
                    end
                    "0" pool "1" 604800 0),
              [totalRequest; aprRequest])
  end
  /\ match rpcOutcome (t stakeRequest) ≫= decode with
     | Throw e =>
         run t (getUserStakeOperation credentials userAddress) = (Throw e, [stakeRequest])
     | Ok stakedAmount =>
         exists staked rewards,
           weiToEther (VBigInt stakedAmount) = Ok staked
           /\ weiToEther (VBigInt match rpcOutcome (t rewardRequest) ≫= decode with
                                  | Ok pendingRewards => pendingRewards
                                  | Throw _ => 0
                                  end) = Ok rewards
           /\ run t (getUserStakeOperation credentials userAddress)
              = (Ok (UserStake.mk userAddress staked staked rewards 0 "0" 0 staked),
                 [stakeRequest; rewardRequest])
     end.
Proof.
  intros Hnet Ha rpcEndpoint pool word decode totalRequest aprRequest stakeRequest
    rewardRequest.
  split.
  - apply (run_getStakingInfoOperation t credentials Hnet).
  - apply (run_getUserStakeOperation t credentials Hnet userAddress Ha).
Qed.

Lemma stake_read_decides_witness :
  run unreachable (getStakingInfoOperation mainnet)
  = (Throw (NodeApiError "connect ETIMEDOUT" "Failed to make RPC call"),
     [ethCallRequest "https://rpc.example" "0x6dd655f10d4b9E242aE186D9050B68F725c76d76"
        "0x8b0e9f3f"]).
Proof.
  destruct (stake_read_decides unreachable mainnet someAccount) as [H _];
    [reflexivity | reflexivity | exact H].
Defined.

(** ** The registry *)

Ltac registry_entries H :=
  apply elem_of_list_to_map_2 in H;
  repeat (apply elem_of_cons in H as [[= -> ->]|H]; [|]);
  [..|by apply elem_of_nil in H].

(** X16.  Every entry of the network registry gives a well-formed dAPI
    server address, an [https] explorer and a positive chain id that no
    other entry has.  The entry gives a staking pool exactly when
    [supportsStaking] holds of its key, and a governance contract exactly
    when [supportsDAO] does; the token and staking pool addresses that
    are given are well formed, and the governance address that is given
    is not (it has 41 digits). *)
Theorem registry_invariants (network : string) (config : NetworkConfig.t) :
  NETWORK_CONFIGS !! network = Some config ->
  getNetworkConfig network = Ok (Entry config)
  /\ isValidAddress (NetworkConfig.dapiServerAddress config) = true
  /\ Js.startsWith (NetworkConfig.explorerUrl config) "https://" = true
  /\ 0 < NetworkConfig.chainId config
  /\ (forall network' config',
        NETWORK_CONFIGS !! network' = Some config' ->
        NetworkConfig.chainId config' = NetworkConfig.chainId config -> network' = network)
  /\ (supportsStaking network = true <-> is_Some (NetworkConfig.stakingPoolAddress config))
  /\ (supportsDAO network = true <-> is_Some (NetworkConfig.governanceAddress config))
  /\ (forall a,
        NetworkConfig.api3TokenAddress config = Some a
        \/ NetworkConfig.stakingPoolAddress config = Some a -> isValidAddress a = true)
  /\ (forall a, NetworkConfig.governanceAddress config = Some a -> isValidAddress a = false).
Proof.
  intros H. split; [unfold getNetworkConfig, lookupConfig; by rewrite H|].
  assert (forall network' config',
            NETWORK_CONFIGS !! network' = Some config' ->
            NetworkConfig.chainId config' = NetworkConfig.chainId config ->
            network' = network) as Hinj.
  { intros network' config' H' Hid. registry_entries H; registry_entries H'; done. }
  registry_entries H.
  all: split; [done|]; split; [done|]; split; [done|]; split; [exact Hinj|].
  all: split; [(split; [intros _; by eexists | done]) || (split; [done | by intros [? [=]]])|].
  all: split; [(split; [intros _; by eexists | done]) || (split; [done | by intros [? [=]]])|].
  all: split; [(by intros a [[= <-]|[= <-]]) || (by intros a [[=]|[=]])|].
  all: (by intros a [= <-]) || (by intros a [=]).
Qed.

Lemma registry_invariants_witness :
  getNetworkConfig "base"
  = Ok (Entry (entry 8453 "Base" "https://basescan.org"
                 "0x3dEC619dc529363767dEe9E71d8dD1A5bc270D76"))
  /\ isValidAddress "0x3dEC619dc529363767dEe9E71d8dD1A5bc270D76" = true.
Proof.
  destruct (registry_invariants "base"
              (entry 8453 "Base" "https://basescan.org"
                 "0x3dEC619dc529363767dEe9E71d8dD1A5bc270D76")) as (H1 & H2 & _);
    [reflexivity|]. split; [exact H1 | exact H2].
Defined.

(** ** Display and control helpers *)

Section Truncate.

Implicit Types (address : string) (chars : nat).

Lemma slice_last address chars :
  (1 <= chars <= String.length address)%nat ->
  Js.slice_from address (- Z.of_nat chars) = Js.drop (String.length address - chars) address.
Proof.
  intros H. unfold Js.slice_from, Js.slice, Js.clamp_index.
  destruct (Z.ltb_spec (- Z.of_nat chars) 0); [|lia].
  destruct (Z.ltb_spec (Z.of_nat (String.length address)) 0); [lia|].
  rewrite Z.max_l, (Z.min_l (Z.of_nat (String.length address))) by lia.
  replace (Z.to_nat (Z.of_nat (String.length address) + - Z.of_nat chars))
    with (String.length address - chars)%nat by lia.
  apply take_ge. rewrite length_drop. lia.
Qed.

Lemma slice_from_zero address : Js.slice_from address (- 0) = address.
Proof.
  unfold Js.slice_from, Js.slice, Js.clamp_index. change (- 0) with 0.
  change (0 <? 0) with false. cbv iota.
  destruct (Z.ltb_spec (Z.of_nat (String.length address)) 0); [lia|].
  rewrite (Z.min_l 0), Z.min_id, Z.sub_0_r, Nat2Z.id by lia.
  change (Z.to_nat 0) with 0%nat. by apply take_ge.
Qed.

Lemma truncateAddress_short address chars :
  (String.length address <= 2 * chars + 2)%nat ->
  truncateAddress address (Some (Z.of_nat chars)) = address.
Proof.
  intros H. unfold truncateAddress. cbv [default from_option id].
  by destruct (Z.leb_spec (Z.of_nat (String.length address)) (Z.of_nat chars * 2 + 2)); [|lia].
Qed.

Lemma truncateAddress_long address chars :
  (2 * chars + 2 < String.length address)%nat -> (1 <= chars)%nat ->
  truncateAddress address (Some (Z.of_nat chars))
  = Js.take (chars + 2) address +:+ "..."
    +:+ Js.drop (String.length address - chars) address.
Proof.
  intros H H1. unfold truncateAddress. cbv [default from_option id].
  destruct (Z.leb_spec (Z.of_nat (String.length address)) (Z.of_nat chars * 2 + 2)); [lia|].
  replace (Z.of_nat chars + 2) with (Z.of_nat (chars + 2)) by lia.
  by rewrite slice_prefix, slice_last by lia.
Qed.

Lemma truncateAddress_none address :
  (2 < String.length address)%nat ->
  truncateAddress address (Some 0) = Js.take 2 address +:+ "..." +:+ address.
Proof.
  intros H. unfold truncateAddress. cbv [default from_option id].
  destruct (Z.leb_spec (Z.of_nat (String.length address)) (0 * 2 + 2)); [lia|].
  change (0 + 2) with (Z.of_nat 2). by rewrite slice_prefix, slice_from_zero.
Qed.

End Truncate.

(** X17.  [truncateAddress] returns a text of at most [2 * chars + 2]
    characters as it is.  A longer one, for [chars] at least 1, becomes
    its first [chars + 2] characters, three points and its last [chars]
    characters, [2 * chars + 5] characters in all, which is longer than
    the text when the text has fewer than [2 * chars + 5].  With [chars]
    zero the whole text follows the points, since [slice(-0)] is
    [slice(0)].  An address that [isValidAddress] accepts is cut, with
    the default of 4, to 13 characters. *)
Theorem truncateAddress_shape (address : string) (chars : nat) :
  ((String.length address <= 2 * chars + 2)%nat ->
   truncateAddress address (Some (Z.of_nat chars)) = address)
  /\ ((2 * chars + 2 < String.length address)%nat -> (1 <= chars)%nat ->
      truncateAddress address (Some (Z.of_nat chars))
      = Js.take (chars + 2) address +:+ "..."
        +:+ Js.drop (String.length address - chars) address
      /\ String.length (truncateAddress address (Some (Z.of_nat chars)))
         = (2 * chars + 5)%nat)
  /\ ((2 < String.length address)%nat ->
      truncateAddress address (Some 0) = Js.take 2 address +:+ "..." +:+ address)
  /\ (isValidAddress address = true ->
      truncateAddress address None
      = Js.take 6 address +:+ "..." +:+ Js.drop 38 address
      /\ String.length (truncateAddress address None) = 13%nat).
Proof.
  split; [apply truncateAddress_short|]. split.
  { intros H H1. rewrite truncateAddress_long by done. split; [done|].
    rewrite !str_length_app, length_take, length_drop. simpl. lia. }
  split; [apply truncateAddress_none|].
  intros Ha.
  assert (String.length address = 42%nat) as Hlen.
  { unfold isValidAddress in Ha. by apply andb_prop in Ha as [[_ H%Nat.eqb_eq]%andb_prop _]. }
  change (truncateAddress address None)
    with (truncateAddress address (Some (Z.of_nat 4))).
  rewrite truncateAddress_long by lia. rewrite Hlen. split; [done|].
  rewrite !str_length_app, length_take, length_drop, Hlen. simpl. lia.
Qed.

Lemma truncateAddress_shape_witness :
  truncateAddress "0x742d35Cc6634C0532925a3b844Bc9e7595f1dE00" None = "0x742d...dE00"
  /\ truncateAddress "0x742d35" (Some 0) = "0x...0x742d35".
Proof.
  destruct (truncateAddress_shape "0x742d35Cc6634C0532925a3b844Bc9e7595f1dE00" 4)
    as (_ & _ & _ & H).
  destruct (truncateAddress_shape "0x742d35" 0) as (_ & _ & H0 & _).
  split; [apply H; reflexivity | apply H0; simpl; lia].
Defined.

Section Chunks.

Context {T : Type}.
Variables (array : list T) (size : Z).
Let len := Z.of_nat (length array).

(** The number of chunks still to come at index [i]. *)
Let turns (i : Z) : Z := (Z.max (len - i) 0 + size - 1) / size.

Lemma Array_slice_chunk (i : Z) :
  1 <= size -> 0 <= i < len ->
  Array_slice array i (i + size) = take (Z.to_nat size) (drop (Z.to_nat i) array).
Proof.
  intros Hs Hi. unfold Array_slice, Js.clamp_index. fold len.
  destruct (Z.ltb_spec i 0); [lia|]. destruct (Z.ltb_spec (i + size) 0); [lia|].
  rewrite (Z.min_l i) by lia.
  destruct (Z.le_gt_cases (i + size) len).
  - rewrite Z.min_l by lia. f_equal. lia.
  - rewrite Z.min_r by lia.
    rewrite !list.take_ge; [done|rewrite list.length_drop; lia..].
Qed.

Lemma turns_step (i : Z) :
  1 <= size -> 0 <= i < len -> turns i = 1 + turns (i + size).
Proof.
  intros Hs Hi. unfold turns. rewrite (Z.max_l (len - i)) by lia.
  destruct (Z.le_gt_cases (i + size) len).
  - rewrite Z.max_l by lia.
    replace (len - i + size - 1) with (1 * size + (len - (i + size) + size - 1)) by lia.
    by rewrite Z.div_add_l by lia.
  - rewrite Z.max_r by lia. rewrite (Z.div_small (0 + size - 1)) by lia.
    symmetry. apply Z.div_unique with (len - i - 1); lia.
Qed.

Lemma turns_done (i : Z) : 1 <= size -> len <= i -> turns i = 0.
Proof. intros Hs Hi. unfold turns. rewrite Z.max_r by lia. apply Z.div_small. lia. Qed.

Lemma chunkArray_loop_spec (fuel : nat) : forall (i : Z) (chunks : list (list T)),
  1 <= size -> 0 <= i -> turns i < Z.of_nat fuel ->
  exists rest,
    chunkArray_loop fuel array size i chunks = Some (chunks ++ rest)%list
    /\ concat rest = drop (Z.to_nat i) array
    /\ Forall (fun c => (1 <= length c)%nat /\ Z.of_nat (length c) <= size) rest
    /\ (forall (j : nat) c, rest !! j = Some c -> (S j < length rest)%nat ->
                            Z.of_nat (length c) = size)
    /\ Z.of_nat (length rest) = turns i.
Proof.
  induction fuel as [|fuel IH]; intros i chunks Hs Hi Hfuel.
  { assert (0 <= turns i) by (apply Z.div_pos; lia). lia. }
  cbn [chunkArray_loop]. fold len.
  destruct (Z.ltb_spec i len) as [Hlt|Hge].
  - rewrite Array_slice_chunk by lia.
    pose proof (turns_step i Hs ltac:(lia)) as Hturns.
    destruct (IH (i + size) (chunks ++ [take (Z.to_nat size) (drop (Z.to_nat i) array)])%list)
      as (rest & -> & Hcat & Hall & Hfull & Hcount); [lia..|].
    exists (take (Z.to_nat size) (drop (Z.to_nat i) array) :: rest).
    split; [by rewrite <- app_assoc|]. split; [|split; [|split]].
    + cbn [concat]. rewrite Hcat.
      replace (Z.to_nat (i + size)) with (Z.to_nat i + Z.to_nat size)%nat by lia.
      rewrite <- drop_drop. apply take_drop.
    + constructor; [|done]. rewrite list.length_take, list.length_drop. lia.
    + intros [|j] c Hj Hlast.
      * injection Hj as <-. rewrite list.length_take, list.length_drop.
        destruct (Z.le_gt_cases len (i + size)); [|lia].
        rewrite turns_done in Hcount by lia. destruct rest; simpl in *; lia.
      * apply (Hfull j); [done|]. simpl in Hlast. lia.
    + cbn [length]. lia.
  - exists []. rewrite app_nil_r. split; [done|]. split.
    { rewrite list.drop_ge; [done|lia]. }
    split; [constructor|]. split; [by intros j c [=]|].
    by rewrite turns_done.
Qed.

Lemma chunkArray_loop_runs_on (fuel : nat) : forall (i : Z) (chunks : list (list T)),
  size <= 0 -> i < len -> chunkArray_loop fuel array size i chunks = None.
Proof.
  induction fuel as [|fuel IH]; intros i chunks Hs Hi; [done|].
  cbn [chunkArray_loop]. fold len. destruct (Z.ltb_spec i len); [|lia].
  apply IH; lia.
Qed.

End Chunks.

(** X18.  [chunkArray] with a size of at least 1 ends, within one turn
    per element and one more.  The chunks it returns, put end to end,
    are the array; none is empty or longer than the size, and every one
    but the last has exactly the size; there are as many as the length
    divided by the size, rounded up. *)
Theorem chunkArray_partitions {T} (array : list T) (size : Z) (fuel : nat) :
  1 <= size -> (length array < fuel)%nat ->
  exists chunks,
    chunkArray fuel array size = Some chunks
    /\ concat chunks = array
    /\ Forall (fun c => (1 <= length c)%nat /\ Z.of_nat (length c) <= size) chunks
    /\ (forall (j : nat) c, chunks !! j = Some c -> (S j < length chunks)%nat ->
                            Z.of_nat (length c) = size)
    /\ Z.of_nat (length chunks) = (Z.of_nat (length array) + size - 1) / size.
Proof.
  intros Hs Hfuel.
  destruct (chunkArray_loop_spec array size fuel 0 [] Hs ltac:(lia))
    as (chunks & Hrun & Hcat & Hall & Hfull & Hcount).
  { rewrite Z.sub_0_r, Z.max_l by lia.
    apply Z.le_lt_trans with (Z.of_nat (length array)); [|lia].
    destruct (length array) as [|n]; [rewrite Z.div_small; lia|].
    apply Z.div_le_upper_bound; nia. }
  exists chunks. split; [exact Hrun|]. split; [exact Hcat|]. split; [exact Hall|].
  split; [exact Hfull|]. rewrite Hcount. by rewrite Z.sub_0_r, Z.max_l by lia.
Qed.

Lemma chunkArray_partitions_witness :
  chunkArray 6 [1; 2; 3; 4; 5] 2 = Some [[1; 2]; [3; 4]; [5]].
Proof.
  destruct (chunkArray_partitions [1; 2; 3; 4; 5] 2 6) as (chunks & H & _); [lia|simpl; lia|].
  rewrite H. f_equal. by injection H.
Defined.

(** X19.  With a size of zero or less, [chunkArray] on an array that is
    not empty never ends: the index never passes the length, and no
    number of turns is enough.  On the empty array it returns no chunks,
    whatever the size. *)
Theorem chunkArray_never_ends {T} (array : list T) (size : Z) (fuel : nat) :
  size <= 0 ->
  (array <> [] -> chunkArray fuel array size = None)
  /\ chunkArray (S fuel) ([] : list T) size = Some [].
Proof.
  intros Hs. split; [|done].
  intros Hne. apply chunkArray_loop_runs_on; [done|].
  destruct array; [done|]. simpl. lia.
Qed.

Lemma chunkArray_never_ends_witness : chunkArray 1000 ["a"; "b"] 0 = None.
Proof.
  destruct (chunkArray_never_ends ["a"; "b"] 0 1000) as [H _]; [lia|]. by apply H.
Defined.

Section Retry.

Context {T E : Type}.
Variables (fn : nat -> T + E) (err : nat -> E) (maxAttempts : nat) (baseDelay : Z).
Hypothesis attempts_counted : Z.of_nat maxAttempts + 1 < 2 ^ 53.

(** The delays handed to [sleep] after the failures number [from], ...,
    [from + n - 1]. *)
Let backoff (from n : nat) : list Number :=
  map (fun j : nat => scale baseDelay (Math_pow2 (Z.of_nat j))) (seq from n).

Lemma next_attempt (calls : nat) :
  (calls < maxAttempts)%nat ->
  BigInt.toNumber (Z.of_nat calls + 1 + 1) = Z.of_nat (S calls) + 1.
Proof. intros H. rewrite toNumber_small by lia. lia. Qed.

Lemma retry_loop_failures (n : nat) : forall (fuel calls : nat) lastError delays,
  (forall j, (calls <= j < calls + n)%nat -> fn j = inr (err j)) ->
  (calls + n < maxAttempts)%nat ->
  retry_loop (n + fuel) fn (Z.of_nat maxAttempts) baseDelay (Z.of_nat calls + 1)
    lastError calls delays
  = retry_loop fuel fn (Z.of_nat maxAttempts) baseDelay (Z.of_nat (calls + n) + 1)
      (match n with O => lastError | S _ => Some (err (calls + n - 1)%nat) end)
      (calls + n) (delays ++ backoff calls n).
Proof.
  induction n as [|n IH]; intros fuel calls lastError delays Hfail Hlt.
  - rewrite Nat.add_0_r. unfold backoff. simpl. by rewrite app_nil_r.
  - cbn [Nat.add retry_loop].
    destruct (Z.leb_spec (Z.of_nat calls + 1) (Z.of_nat maxAttempts)); [|lia].
    rewrite Hfail by lia.
    destruct (Z.ltb_spec (Z.of_nat calls + 1) (Z.of_nat maxAttempts)); [|lia].
    rewrite next_attempt by lia.
    rewrite IH; [|intros; apply Hfail; lia|lia].
    replace (S calls + n)%nat with (calls + S n)%nat by lia.
    replace (Z.of_nat calls + 1 - 1) with (Z.of_nat calls) by lia.
    unfold backoff. cbn [seq map]. rewrite <- app_assoc. cbn [app].
    f_equal. destruct n; [f_equal; f_equal; lia | done].
Qed.

Lemma retry_succeeds (k : nat) (v : T) :
  (k < maxAttempts)%nat -> fn k = inl v ->
  (forall j, (j < k)%nat -> fn j = inr (err j)) ->
  retry fn (Some (Z.of_nat maxAttempts)) (Some baseDelay)
  = Some (Returned v, S k, backoff 0 k).
Proof.
  intros Hk Hv Hfail. unfold retry. cbv [default from_option id].
  rewrite Nat2Z.id. replace maxAttempts with (k + (maxAttempts - k))%nat at 1 by lia.
  change 1 with (Z.of_nat 0 + 1) at 1.
  rewrite (retry_loop_failures k) by (try lia; intros; apply Hfail; lia).
  cbn [Nat.add app].
  destruct (maxAttempts - k)%nat as [|fuel] eqn:Hfuel; [lia|]. cbn [retry_loop].
  destruct (Z.leb_spec (Z.of_nat k + 1) (Z.of_nat maxAttempts)); [|lia].
  by rewrite Hv.
Qed.

Lemma retry_gives_up :
  (1 <= maxAttempts)%nat ->
  (forall j, (j < maxAttempts)%nat -> fn j = inr (err j)) ->
  retry fn (Some (Z.of_nat maxAttempts)) (Some baseDelay)
  = Some (Thrown (Some (err (maxAttempts - 1)%nat)), maxAttempts,
          backoff 0 (maxAttempts - 1)).
Proof.
  intros H1 Hfail. unfold retry. cbv [default from_option id].
  rewrite Nat2Z.id. replace maxAttempts with ((maxAttempts - 1) + 1)%nat at 1 by lia.
  change 1 with (Z.of_nat 0 + 1) at 1.
  rewrite (retry_loop_failures (maxAttempts - 1)) by (try lia; intros; apply Hfail; lia).
  cbn [Nat.add app retry_loop].
  destruct (Z.leb_spec (Z.of_nat (maxAttempts - 1) + 1) (Z.of_nat maxAttempts)); [|lia].
  rewrite Hfail by lia.
  destruct (Z.ltb_spec (Z.of_nat (maxAttempts - 1) + 1) (Z.of_nat maxAttempts)); [lia|].
  rewrite toNumber_small by lia.
  destruct (Z.leb_spec (Z.of_nat (maxAttempts - 1) + 1 + 1) (Z.of_nat maxAttempts)); [lia|].
  do 2 f_equal. f_equal. lia.
Qed.

End Retry.

Lemma retry_no_attempt {T E} (fn : nat -> T + E) (baseDelay n : Z) :
  n <= 0 -> retry fn (Some n) (Some baseDelay) = Some (Thrown None, 0%nat, []).
Proof.
  intros H. unfold retry. cbv [default from_option id].
  destruct (Z.to_nat n); cbn [retry_loop]; by destruct (Z.leb_spec 1 n); [lia|].
Qed.

(** The delay after failure number [j]: the double of the one before
    while the product is a double, and no number from there on. *)
Lemma backoff_delay (baseDelay : Z) (j : nat) :
  scale baseDelay (Math_pow2 (Z.of_nat j))
  = if (Z.of_nat j <? 1024) && (Z.abs baseDelay * 2 ^ Z.of_nat j <? 2 ^ 1024)
    then Finite (baseDelay * 2 ^ Z.of_nat j)
    else if baseDelay =? 0 then NaN else Infinity (baseDelay <? 0).
Proof.
  unfold scale, Math_pow2. destruct (Z.ltb_spec (Z.of_nat j) 1024); cbn [andb].
  - rewrite Z.abs_mul, (Z.abs_eq (2 ^ Z.of_nat j)) by (apply Z.pow_nonneg; lia).
    destruct (Z.ltb_spec (Z.abs baseDelay * 2 ^ Z.of_nat j) (2 ^ 1024)) as [|Hbig]; [done|].
    destruct (Z.eqb_spec baseDelay 0) as [->|]; [|done].
    exfalso. rewrite Z.abs_0, Z.mul_0_l in Hbig.
    assert (0 < 2 ^ 1024) by (apply Z.pow_pos_nonneg; lia). lia.
  - destruct (baseDelay =? 0); [done|]. by destruct (baseDelay <? 0).
Qed.

(** X20.  [retry] calls [fn] until it succeeds, at most [maxAttempts]
    times, for a [maxAttempts] below 2^53 - 1, up to which the attempts
    are counted exactly.  When call number [k] (from 0) is the first to
    succeed, within the attempts allowed, [retry] returns its value after
    [k + 1] calls, having slept after each failure.  When every attempt
    fails it throws the error of the last one, after [maxAttempts] calls
    and a sleep after each failure but the last.  The delay after failure
    number [j] is [baseDelay * 2^j] as long as [j] is below 1024 and the
    product is below 2^1024 in size; from there on it is no number of
    milliseconds: an infinity, or NaN when [baseDelay] is zero.  With
    [maxAttempts] zero or less [retry] calls nothing and throws
    [undefined]. *)
Theorem retry_outcome {T E} (fn : nat -> T + E) (err : nat -> E) (maxAttempts : nat)
    (baseDelay : Z) (k : nat) (v : T) (n : Z) :
  let delay := fun j : nat =>
    if (Z.of_nat j <? 1024) && (Z.abs baseDelay * 2 ^ Z.of_nat j <? 2 ^ 1024)
    then Finite (baseDelay * 2 ^ Z.of_nat j)
    else if baseDelay =? 0 then NaN else Infinity (baseDelay <? 0) in
  Z.of_nat maxAttempts + 1 < 2 ^ 53 ->
  ((k < maxAttempts)%nat -> fn k = inl v ->
   (forall j, (j < k)%nat -> fn j = inr (err j)) ->
   retry fn (Some (Z.of_nat maxAttempts)) (Some baseDelay)
   = Some (Returned v, S k, map delay (seq 0 k)))
  /\ ((1 <= maxAttempts)%nat ->
      (forall j, (j < maxAttempts)%nat -> fn j = inr (err j)) ->
      retry fn (Some (Z.of_nat maxAttempts)) (Some baseDelay)
      = Some (Thrown (Some (err (maxAttempts - 1)%nat)), maxAttempts,
              map delay (seq 0 (maxAttempts - 1))))
  /\ (n <= 0 -> retry fn (Some n) (Some baseDelay) = Some (Thrown None, 0%nat, [])).
Proof.
  intros delay Hmax.
  assert (forall m, map (fun j : nat => scale baseDelay (Math_pow2 (Z.of_nat j))) (seq 0 m)
                    = map delay (seq 0 m)) as Hdelays.
  { intros m. apply map_ext. intros j. apply backoff_delay. }
  split; [|split; [|apply retry_no_attempt]].
  - intros Hk Hv Hfail. rewrite <- Hdelays.
    by apply (retry_succeeds fn err maxAttempts baseDelay Hmax).
  - intros H1 Hfail. rewrite <- Hdelays.
    by apply (retry_gives_up fn err maxAttempts baseDelay Hmax).
Qed.

Lemma retry_outcome_witness :
  retry (fun k => if (k <? 2)%nat then inr "ETIMEDOUT" else inl 7) None None
  = Some (Returned 7, 3%nat, [Finite 1000; Finite 2000])
  /\ retry (fun _ : nat => inr "ETIMEDOUT" : Z + string) None None
     = Some (Thrown (Some "ETIMEDOUT"), 3%nat, [Finite 1000; Finite 2000])
  /\ retry (fun _ : nat => inr "ETIMEDOUT" : Z + string) (Some 0) None
     = Some (Thrown None, 0%nat, []).
Proof.
  split; [|split].
  - pose proof (retry_outcome (fun k => if (k <? 2)%nat then inr "ETIMEDOUT" else inl 7)
                  (fun _ => "ETIMEDOUT") 3 1000 2 7 0) as H.
    cbv zeta in H. destruct H as (H & _); [vm_compute; reflexivity|].
    apply H; [lia | reflexivity |]. intros j Hj. by destruct j as [|[|j]]; [..|lia].
  - pose proof (retry_outcome (fun _ : nat => inr "ETIMEDOUT" : Z + string)
                  (fun _ => "ETIMEDOUT") 3 1000 0 0 0) as H.
    cbv zeta in H. destruct H as (_ & H & _); [vm_compute; reflexivity|].
    apply H; [lia | done].
  - pose proof (retry_outcome (fun _ : nat => inr "ETIMEDOUT" : Z + string)
                  (fun _ => "ETIMEDOUT") 3 1000 0 0 0) as H.
    cbv zeta in H. destruct H as (_ & _ & H); [vm_compute; reflexivity|].
    apply H. lia.
Defined.

(** ** The dAPI handlers *)

Section DapiHandlers.

Variable t : Transport.
Variable credentials : Credentials.t.
Let rpcEndpoint := Credentials.rpcEndpoint credentials.
Let network := Credentials.network credentials.

Lemma dapi_call_data dapiName :
  encodeFunctionCall "readDataFeedWithDapiName" ["bytes32"]
    [VString (dapiNameToBytes32 dapiName)]
  = Ok ("0x82a0cf08" +:+ Js.padEnd (Js.utf8_hex dapiName) 64 Js.zero).
Proof.
  unfold encodeFunctionCall, encodeParameters. cbn [encodeParameters_loop hd tl].
  change (String.eqb "bytes32" "bytes32") with true. cbv iota.
  by rewrite encodeBytes32_of_name.
Qed.

(** The read of a dAPI on any network: the lookup of the network decides
    whether a request is made, and to which address. *)
Lemma run_readDAPIValue_looked_up dapiName :
  run t (readDAPIValue rpcEndpoint network dapiName)
  = match lookupConfig network with
    | Some config =>
        (rpcOutcome (t (callRequest rpcEndpoint (Config.dapiServerAddress config)
                          ("0x82a0cf08" +:+ Js.padEnd (Js.utf8_hex dapiName) 64 Js.zero)))
           ≫= decodeReading,
         [callRequest rpcEndpoint (Config.dapiServerAddress config)
            ("0x82a0cf08" +:+ Js.padEnd (Js.utf8_hex dapiName) 64 Js.zero)])
    | None => (Throw (Error ("Unsupported network: " +:+ network)), [])
    end.
Proof.
  unfold readDAPIValue, getNetworkConfig.
  destruct (lookupConfig network) as [config|]; [|done].
  cbv zeta. rewrite dapi_call_data.
  apply run_call_to_then_decode, decode_reading_program.
Qed.

Lemma run_readDAPIValue dapiName config :
  NETWORK_CONFIGS !! network = Some config ->
  run t (readDAPIValue rpcEndpoint network dapiName)
  = (rpcOutcome (t (ethCallRequest rpcEndpoint (NetworkConfig.dapiServerAddress config)
                      ("0x82a0cf08" +:+ Js.padEnd (Js.utf8_hex dapiName) 64 Js.zero)))
       ≫= decodeReading,
     [ethCallRequest rpcEndpoint (NetworkConfig.dapiServerAddress config)
        ("0x82a0cf08" +:+ Js.padEnd (Js.utf8_hex dapiName) 64 Js.zero)]).
Proof.
  intros Hc. rewrite run_readDAPIValue_looked_up. unfold lookupConfig. by rewrite Hc.
Qed.

Lemma split_not_nil sep s : Js.split sep s <> [].
Proof. destruct s as [|c s]; simpl; [done|]. destruct (Ascii.eqb c sep), (Js.split sep s); done. Qed.

Lemma split_more_than_one sep s :
  (1 <? length (Js.split sep s))%nat = negb (all_chars (not_char sep) s).
Proof.
  induction s as [|c s IH]; [done|]. cbn [Js.split all_chars]. unfold not_char at 1.
  destruct (Ascii.eqb c sep).
  - pose proof (split_not_nil sep s). by destruct (Js.split sep s).
  - cbn [negb andb]. rewrite <- IH. by destruct (Js.split sep s).
Qed.

(** One turn of the loop of [listDAPIsOperation]. *)
Lemma run_list_attempt name dapis :
  exists item,
    run t (try_catch
             (reading ← readDAPIValue rpcEndpoint network name;
              let isActive :=
                (0 <? Reading.timestamp reading) && negb (Reading.value reading =? 0) in
              price ← (if isActive
                       then price ← lift (formatWithDecimals
                                            (VBigInt (Reading.value reading))
                                            DEFAULT_DECIMALS);
                            Ret (Some price)
                       else Ret None);
              Ret (dapis ++ [DAPIListItem.mk name "Price Feed" network isActive price])%list)
             (fun _ => Ret (dapis ++ [DAPIListItem.mk name "Price Feed" network false None])%list))
    = (Ok (dapis ++ [item])%list, requests t (readDAPIValue rpcEndpoint network name))
    /\ item_of_read t rpcEndpoint network name item.
Proof.
  rewrite run_try_catch, run_bind. unfold item_of_read, outcome, requests.
  destruct (run t (readDAPIValue rpcEndpoint network name)) as [[reading|e] reqs].
  2:{ cbn [run fst snd]. rewrite app_nil_r. eexists. split; [reflexivity|].
      repeat split; try done. by intros [? [=]]. }
  cbv zeta. cbn [fst snd].
  destruct ((0 <? Reading.timestamp reading) && negb (Reading.value reading =? 0)) eqn:Hactive.
  - destruct (formatWithDecimals_total (Reading.value reading) DEFAULT_DECIMALS) as [s Hs].
    rewrite Hs. cbn [lift mbind Prog_mbind Prog_bind run]. rewrite app_nil_r.
    eexists. split; [reflexivity|]. repeat split; try done.
    intros ? [= <-]. by rewrite Hactive.
  - cbn [lift mbind Prog_mbind Prog_bind run]. rewrite app_nil_r.
    eexists. split; [reflexivity|]. repeat split; try done.
    + by intros [? [=]].
    + intros ? [= <-]. by rewrite Hactive.
Qed.

Lemma listDAPIs_loop_shape names : forall dapis,
  exists items,
    run t (listDAPIs_loop credentials names dapis)
    = (Ok (dapis ++ items)%list,
       flat_map (fun name => requests t (readDAPIValue rpcEndpoint network name)) names)
    /\ Forall2 (item_of_read t rpcEndpoint network) names items.
Proof.
  induction names as [|name names IH]; intros dapis.
  - exists []. cbn [listDAPIs_loop run flat_map]. rewrite app_nil_r.
    split; [done | constructor].
  - cbn [listDAPIs_loop]. rewrite run_bind.
    destruct (run_list_attempt name dapis) as (item & Hrun & Hitem).
    cbv zeta in Hrun. unfold rpcEndpoint, network in Hrun. rewrite Hrun.
    fold rpcEndpoint network.
    destruct (IH (dapis ++ [item])%list) as (items & -> & Hitems).
    exists (item :: items). split; [|by constructor].
    by rewrite <- app_assoc.
Qed.

Lemma requests_of_dapi_reads names :
  flat_map (fun name => requests t (readDAPIValue rpcEndpoint network name)) names
  = match lookupConfig network with
    | Some config =>
        map (fun name =>
               callRequest rpcEndpoint (Config.dapiServerAddress config)
                 ("0x82a0cf08" +:+ Js.padEnd (Js.utf8_hex name) 64 Js.zero))
          names
    | None => []
    end.
Proof.
  induction names as [|name names IH]; cbn [flat_map map].
  - by destruct (lookupConfig network).
  - rewrite IH. unfold requests. rewrite run_readDAPIValue_looked_up.
    by destruct (lookupConfig network).
Qed.

Lemma readDAPIValue_answered dapiName config value timestamp :
  NETWORK_CONFIGS !! network = Some config ->
  0 <= value < 2 ^ 256 -> 0 <= timestamp < 2 ^ 53 ->
  t (ethCallRequest rpcEndpoint (NetworkConfig.dapiServerAddress config)
       ("0x82a0cf08" +:+ Js.padEnd (Js.utf8_hex dapiName) 64 Js.zero))
  = RpcResult ("0x" +:+ uint256Word value +:+ uint256Word timestamp) ->
  run t (readDAPIValue rpcEndpoint network dapiName)
  = (Ok (Reading.mk value timestamp),
     [ethCallRequest rpcEndpoint (NetworkConfig.dapiServerAddress config)
        ("0x82a0cf08" +:+ Js.padEnd (Js.utf8_hex dapiName) 64 Js.zero)]).
Proof.
  intros Hc Hv Ht Hanswer. rewrite (run_readDAPIValue dapiName config Hc), Hanswer.
  cbn [rpcOutcome]. cbv [mbind result_bind]. unfold uint256Word.
  by rewrite decodeReading_words.
Qed.

Lemma getDAPIDecimals_own dapiName :
  dapiName ∉ inherited_names -> getDAPIDecimals dapiName = Some 18%nat.
Proof.
  intros H. unfold getDAPIDecimals. rewrite not_inherited by done. done.
Qed.

Lemma getDAPIDecimals_inherited dapiName :
  dapiName ∈ inherited_names -> getDAPIDecimals dapiName = None.
Proof.
  intros H. unfold inherited_names in H.
  repeat (apply elem_of_cons in H as [->|H]; [done|]). by apply elem_of_nil in H.
Qed.

Lemma dapi_handlers_answered dapiName config value timestamp :
  NETWORK_CONFIGS !! network = Some config ->
  0 <= value < 2 ^ 256 -> 0 <= timestamp < 2 ^ 53 ->
  t (ethCallRequest rpcEndpoint (NetworkConfig.dapiServerAddress config)
       ("0x82a0cf08" +:+ Js.padEnd (Js.utf8_hex dapiName) 64 Js.zero))
  = RpcResult ("0x" +:+ uint256Word value +:+ uint256Word timestamp) ->
  (dapiName ∉ inherited_names ->
   exists formatted,
     run t (getDAPIValueOperation credentials dapiName)
     = (Ok (DAPIValue.mk (BigInt.toString value) timestamp dapiName network formatted 18),
        [ethCallRequest rpcEndpoint (NetworkConfig.dapiServerAddress config)
           ("0x82a0cf08" +:+ Js.padEnd (Js.utf8_hex dapiName) 64 Js.zero)])
     /\ parseWithDecimals formatted 18 = Ok value)
  /\ (dapiName ∈ inherited_names ->
      run t (getDAPIValueOperation credentials dapiName)
      = (Throw RangeError,
         [ethCallRequest rpcEndpoint (NetworkConfig.dapiServerAddress config)
            ("0x82a0cf08" +:+ Js.padEnd (Js.utf8_hex dapiName) 64 Js.zero)]))
  /\ run t (getDAPIInfoOperation credentials dapiName)
     = (Ok (DAPIInfo.mk dapiName
              (if all_chars (not_char "/") dapiName then "Custom" else "Price Feed")
              (dapiName +:+ " price feed on " +:+ NetworkConfig.name config)
              18 "1%" 86400 [] "" network (Some (NetworkConfig.dapiServerAddress config))
              timestamp),
        [ethCallRequest rpcEndpoint (NetworkConfig.dapiServerAddress config)
           ("0x82a0cf08" +:+ Js.padEnd (Js.utf8_hex dapiName) 64 Js.zero)])
  /\ run t (getDAPIUpdateTimeOperation credentials dapiName)
     = (Ok (DAPIUpdateInfo.mk timestamp (BigInt.toNumber (timestamp + 86400)) 86400 0),
        [ethCallRequest rpcEndpoint (NetworkConfig.dapiServerAddress config)
           ("0x82a0cf08" +:+ Js.padEnd (Js.utf8_hex dapiName) 64 Js.zero)]).
Proof.
  intros Hc Hv Ht Hanswer.
  pose proof (readDAPIValue_answered dapiName config value timestamp Hc Hv Ht Hanswer)
    as Hread.
  split; [|split; [|split]].
  - intros Hown.
    destruct (format_then_parse value 18 (proj1 Hv)) as (formatted & Hf & Hp).
    exists formatted. split; [|done].
    unfold getDAPIValueOperation. fold rpcEndpoint network. cbv zeta.
    rewrite run_bind, Hread, getDAPIDecimals_own by done.
    cbn [Reading.value Reading.timestamp]. by rewrite Hf.
  - intros Hinherited.
    unfold getDAPIValueOperation. fold rpcEndpoint network. cbv zeta.
    by rewrite run_bind, Hread, getDAPIDecimals_inherited.
  - unfold getDAPIInfoOperation, getNetworkConfig, lookupConfig. fold rpcEndpoint network.
    rewrite Hc. change (lift (Ok ?x) ≫= ?f) with (f x). cbv beta.
    rewrite run_bind, Hread. cbv zeta. rewrite split_more_than_one.
    cbn [Reading.timestamp]. by destruct (all_chars _ _).
  - unfold getDAPIUpdateTimeOperation. fold rpcEndpoint network.
    by rewrite run_bind, Hread.
Qed.

Lemma dapi_handlers_unknown_network dapiName :
  network ∉ explorers.*1 -> network ∉ inherited_names ->
  run t (getDAPIValueOperation credentials dapiName)
  = (Throw (Error ("Unsupported network: " +:+ network)), [])
  /\ run t (getDAPIInfoOperation credentials dapiName)
     = (Throw (Error ("Unsupported network: " +:+ network)), [])
  /\ run t (getDAPIUpdateTimeOperation credentials dapiName)
     = (Throw (Error ("Unsupported network: " +:+ network)), []).
Proof.
  intros H1 H2.
  unfold getDAPIValueOperation, getDAPIInfoOperation, getDAPIUpdateTimeOperation,
    readDAPIValue, getNetworkConfig.
  fold network. by rewrite lookupConfig_unknown.
Qed.

(** The single-feed handlers. *)
Lemma feed_handlers_agree feedId :
  match run t (readDataFeedOperation credentials feedId),
        run t (getFeedBeaconOperation credentials feedId) with
  | (Ok record, reqs), (Ok beacon, reqs') =>
      reqs = reqs'
      /\ BeaconData.beaconId beacon = feedId /\ BeaconData.templateId beacon = feedId
      /\ BeaconData.value beacon = DataFeedValue.value record
      /\ BeaconData.timestamp beacon = DataFeedValue.timestamp record
  | (Throw e, reqs), (Throw e', reqs') => e = e' /\ reqs = reqs'
  | _, _ => False
  end.
Proof.
  unfold readDataFeedOperation, getFeedBeaconOperation.
  destruct (isValidBytes32 feedId); cbn [negb]; [|done].
  rewrite !run_bind.
  destruct (run t (readDataFeedById _ _ _)) as [[reading|e] reqs]; [|done].
  destruct (formatWithDecimals_total (Reading.value reading) DEFAULT_DECIMALS) as [s Hs].
  rewrite run_bind, run_lift, Hs. cbn [run]. by rewrite !app_nil_r.
Qed.

Lemma run_getFeedMetadataOperation feedId :
  run t (getFeedMetadataOperation credentials feedId)
  = (if isValidBytes32 feedId
     then match lookupConfig network with
          | Some config =>
              Ok (DataFeedMetadata.mk feedId ("Feed " +:+ Js.take 10 feedId +:+ "...")
                    ("Data feed on " +:+ Js.template (Config.name config)) "Custom" 18 0 "")
          | None => Throw (Error ("Unsupported network: " +:+ network))
          end
     else Throw (NodeOperationError "Invalid feed ID format. Must be a bytes32 value."),
     []).
Proof.
  unfold getFeedMetadataOperation, getNetworkConfig. fold network.
  destruct (isValidBytes32 feedId); cbn [negb]; [|done].
  destruct (lookupConfig network); [|done].
  change 10 with (Z.of_nat 10). by rewrite slice_prefix.
Qed.

End DapiHandlers.

(** X21.  The three dAPI handlers that read a feed by name, on a network
    of the registry, issue the same single [eth_call] to the dAPI server
    of the network: the selector [0x82a0cf08] followed by the hex of the
    bytes of the name, padded with zeros to 64 digits, the name being
    checked nowhere.  When the answer is the two words of a value and a
    timestamp below 2^53, [getDAPIValueOperation] gives the value in
    decimal, the timestamp and a formatted value that [parseWithDecimals]
    reads back, unless the name is one that the empty table of decimals
    inherits from [Object.prototype], [constructor] say: the decimals are
    then no number and the handler fails with a RangeError after the
    call.  [getDAPIInfoOperation] gives the category ["Price Feed"]
    exactly when the name has a slash.  [getDAPIUpdateTimeOperation]
    expects the next update at the double nearest to the timestamp plus
    86400, which is that sum when it is below 2^53.  Under a network name
    that is neither in the registry nor inherited from
    [Object.prototype], each of the three fails before any request. *)
Theorem dapi_handlers_read (t : Transport) (credentials : Credentials.t)
    (dapiName : string) (config : NetworkConfig.t) (value timestamp : Z) :
  let rpcEndpoint := Credentials.rpcEndpoint credentials in
  let network := Credentials.network credentials in
  let request :=
    ethCallRequest rpcEndpoint (NetworkConfig.dapiServerAddress config)
      ("0x82a0cf08" +:+ Js.padEnd (Js.utf8_hex dapiName) 64 Js.zero) in
  (NETWORK_CONFIGS !! network = Some config ->
   0 <= value < 2 ^ 256 -> 0 <= timestamp < 2 ^ 53 ->
   t request = RpcResult ("0x" +:+ uint256Word value +:+ uint256Word timestamp) ->
   (dapiName ∉ inherited_names ->
    exists formatted,
      run t (getDAPIValueOperation credentials dapiName)
      = (Ok (DAPIValue.mk (BigInt.toString value) timestamp dapiName network formatted 18),
         [request])
      /\ parseWithDecimals formatted 18 = Ok value)
   /\ (dapiName ∈ inherited_names ->
       run t (getDAPIValueOperation credentials dapiName) = (Throw RangeError, [request]))
   /\ run t (getDAPIInfoOperation credentials dapiName)
      = (Ok (DAPIInfo.mk dapiName
               (if all_chars (not_char "/") dapiName then "Custom" else "Price Feed")
               (dapiName +:+ " price feed on " +:+ NetworkConfig.name config)
               18 "1%" 86400 [] "" network (Some (NetworkConfig.dapiServerAddress config))
               timestamp),
         [request])
   /\ run t (getDAPIUpdateTimeOperation credentials dapiName)
      = (Ok (DAPIUpdateInfo.mk timestamp (BigInt.toNumber (timestamp + 86400)) 86400 0),
         [request])
   /\ (timestamp + 86400 < 2 ^ 53 -> BigInt.toNumber (timestamp + 86400) = timestamp + 86400))
  /\ (network ∉ explorers.*1 -> network ∉ inherited_names ->
      run t (getDAPIValueOperation credentials dapiName)
      = (Throw (Error ("Unsupported network: " +:+ network)), [])
      /\ run t (getDAPIInfoOperation credentials dapiName)
         = (Throw (Error ("Unsupported network: " +:+ network)), [])
      /\ run t (getDAPIUpdateTimeOperation credentials dapiName)
         = (Throw (Error ("Unsupported network: " +:+ network)), [])).
Proof.
  intros rpcEndpoint network request. split.
  - intros Hc Hv Ht Hanswer.
    destruct (dapi_handlers_answered t credentials dapiName config value timestamp
                Hc Hv Ht Hanswer) as (H1 & H2 & H3 & H4).
    split; [exact H1|]. split; [exact H2|]. split; [exact H3|]. split; [exact H4|].
    intros Hsum. apply toNumber_small. lia.
  - by apply dapi_handlers_unknown_network.
Qed.

Lemma dapi_handlers_read_witness :
  run priceFeed (getDAPIUpdateTimeOperation polygon "ETH/USD")
  = (Ok (DAPIUpdateInfo.mk 1700000000 1700086400 86400 0),
     [ethCallRequest "https://rpc.example" "0x3dEC619dc529363767dEe9E71d8dD1A5bc270D76"
        "0x82a0cf084554482f55534400000000000000000000000000000000000000000000000000"])
  /\ run priceFeed (getDAPIValueOperation polygon "constructor")
     = (Throw RangeError,
        [ethCallRequest "https://rpc.example" "0x3dEC619dc529363767dEe9E71d8dD1A5bc270D76"
           "0x82a0cf08636f6e7374727563746f72000000000000000000000000000000000000000000"]).
Proof.
  split.
  - destruct (dapi_handlers_read priceFeed polygon "ETH/USD"
                (entry 137 "Polygon" "https://polygonscan.com"
                   "0x3dEC619dc529363767dEe9E71d8dD1A5bc270D76")
                2500000000000000000000 1700000000) as [H _].
    destruct H as (_ & _ & _ & H & _); [reflexivity | lia | lia | reflexivity | exact H].
  - destruct (dapi_handlers_read priceFeed polygon "constructor"
                (entry 137 "Polygon" "https://polygonscan.com"
                   "0x3dEC619dc529363767dEe9E71d8dD1A5bc270D76")
                2500000000000000000000 1700000000) as [H _].
    destruct H as (_ & H & _); [reflexivity | lia | lia | reflexivity |].
    apply H. unfold inherited_names. apply list_elem_of_here.
Defined.

(** X22.  [listDAPIsOperation] never fails.  It answers with one item per
    name of [COMMON_DAPIS], in that order, each of the category
    ["Price Feed"] and of the network of the credentials, with a price
    exactly when it is active; an item whose read failed is not active,
    and one whose read succeeded is active exactly when the timestamp is
    positive and the value is not zero.  On a network of the registry the
    handler issues one request per name, in order, to the dAPI server of
    the network.  Under a network name that is neither in the registry
    nor inherited from [Object.prototype] it issues no request and no
    item is active.  Under an inherited name it issues one request per
    name, with no [to]. *)
Theorem listDAPIs_one_item_per_name (t : Transport) (credentials : Credentials.t) :
  let rpcEndpoint := Credentials.rpcEndpoint credentials in
  let network := Credentials.network credentials in
  let data name := "0x82a0cf08" +:+ Js.padEnd (Js.utf8_hex name) 64 Js.zero in
  exists items,
    outcome t (listDAPIsOperation credentials) = Ok items
    /\ map DAPIListItem.name items = COMMON_DAPIS
    /\ length items = 25%nat
    /\ Forall2
         (fun name item =>
            DAPIListItem.category item = "Price Feed"
            /\ DAPIListItem.network item = network
            /\ (DAPIListItem.active item = true <-> is_Some (DAPIListItem.price item))
            /\ (forall e,
                  outcome t (readDAPIValue rpcEndpoint network name) = Throw e ->
                  DAPIListItem.active item = false)
            /\ (forall reading,
                  outcome t (readDAPIValue rpcEndpoint network name) = Ok reading ->
                  DAPIListItem.active item
                  = (0 <? Reading.timestamp reading) && negb (Reading.value reading =? 0)))
         COMMON_DAPIS items
    /\ (forall config,
          NETWORK_CONFIGS !! network = Some config ->
          requests t (listDAPIsOperation credentials)
          = map (fun name =>
                   ethCallRequest rpcEndpoint (NetworkConfig.dapiServerAddress config)
                     (data name))
              COMMON_DAPIS)
    /\ (network ∉ explorers.*1 -> network ∉ inherited_names ->
        requests t (listDAPIsOperation credentials) = []
        /\ Forall (fun item => DAPIListItem.active item = false) items)
    /\ (network ∈ inherited_names ->
        requests t (listDAPIsOperation credentials)
        = map (fun name => callRequest rpcEndpoint None (data name)) COMMON_DAPIS).
Proof.
  intros rpcEndpoint network data. unfold listDAPIsOperation, outcome, requests.
  destruct (listDAPIs_loop_shape t credentials COMMON_DAPIS []) as (items & -> & Hitems).
  cbn [fst snd]. rewrite requests_of_dapi_reads. fold rpcEndpoint network.
  unfold item_of_read in Hitems. fold rpcEndpoint network in Hitems.
  assert (map DAPIListItem.name items = COMMON_DAPIS) as Hnames.
  { clear -Hitems. generalize dependent COMMON_DAPIS. intros names Hitems.
    induction Hitems as [|name item ? ? [<- _] _ IH]; [done|]. cbn [map]. by rewrite IH. }
  exists items. split; [done|]. split; [done|].
  split; [by rewrite <- (length_map DAPIListItem.name), Hnames|].
  split; [|split; [|split]].
  - eapply Forall2_impl; [exact Hitems|]. intros name item (_ & H). exact H.
  - intros config Hc. unfold lookupConfig. by rewrite Hc.
  - intros H1 H2. rewrite lookupConfig_unknown by done. split; [done|].
    assert (forall name,
              outcome t (readDAPIValue rpcEndpoint network name)
              = Throw (Error ("Unsupported network: " +:+ network))) as Hfails.
    { intros name. unfold outcome, readDAPIValue, getNetworkConfig.
      by rewrite lookupConfig_unknown. }
    clear -Hitems Hfails. generalize dependent COMMON_DAPIS. intros names Hitems.
    induction Hitems as [|name item ? ? (_ & _ & _ & _ & Hfailed & _) _ IH];
      constructor; [|done].
    exact (Hfailed _ (Hfails name)).
  - intros H. destruct (lookupConfig_inherited network H) as [name ->]. done.
Qed.

(** X23.  The handlers of one feed id.  [getFeedBeaconOperation] does
    what [readDataFeedOperation] does: it fails with the same error, or
    succeeds after the same requests with the same value and timestamp,
    the id given as beacon and as template.  [getFeedMetadataOperation]
    issues no request at all.  It fails on an id that is not a bytes32
    value, and on a network name that is neither in the registry nor
    inherited from [Object.prototype]; on a network of the registry it
    answers from the id and the name of the network.  Under an inherited
    name it answers as well, the description made of the [name] of the
    inherited value: ["Data feed on Object"] under [constructor]. *)
Theorem single_feed_handlers (t : Transport) (credentials : Credentials.t)
    (feedId : string) :
  let network := Credentials.network credentials in
  let metadata description :=
    DataFeedMetadata.mk feedId ("Feed " +:+ Js.take 10 feedId +:+ "...")
      ("Data feed on " +:+ description) "Custom" 18 0 "" in
  match run t (readDataFeedOperation credentials feedId),
        run t (getFeedBeaconOperation credentials feedId) with
  | (Ok record, reqs), (Ok beacon, reqs') =>
      reqs = reqs'
      /\ BeaconData.beaconId beacon = feedId /\ BeaconData.templateId beacon = feedId
      /\ BeaconData.value beacon = DataFeedValue.value record
      /\ BeaconData.timestamp beacon = DataFeedValue.timestamp record
  | (Throw e, reqs), (Throw e', reqs') => e = e' /\ reqs = reqs'
  | _, _ => False
  end
  /\ requests t (getFeedMetadataOperation credentials feedId) = []
  /\ (isValidBytes32 feedId = false ->
      outcome t (getFeedMetadataOperation credentials feedId)
      = Throw (NodeOperationError "Invalid feed ID format. Must be a bytes32 value."))
  /\ (isValidBytes32 feedId = true ->
      (forall config,
         NETWORK_CONFIGS !! network = Some config ->
         outcome t (getFeedMetadataOperation credentials feedId)
         = Ok (metadata (NetworkConfig.name config)))
      /\ (network ∉ explorers.*1 -> network ∉ inherited_names ->
          outcome t (getFeedMetadataOperation credentials feedId)
          = Throw (Error ("Unsupported network: " +:+ network)))
      /\ (network ∈ inherited_names ->
          exists name,
            outcome t (getFeedMetadataOperation credentials feedId) = Ok (metadata name))
      /\ (network = "constructor" ->
          outcome t (getFeedMetadataOperation credentials feedId) = Ok (metadata "Object"))).
Proof.
  intros network metadata. split; [apply feed_handlers_agree|].
  unfold outcome, requests. rewrite run_getFeedMetadataOperation. fold network.
  cbn [fst snd]. split; [done|]. split; [by intros ->|].
  intros ->. split; [|split; [|split]].
  - intros config Hc. unfold lookupConfig. by rewrite Hc.
  - intros H1 H2. by rewrite lookupConfig_unknown.
  - intros H. destruct (lookupConfig_inherited network H) as [name ->].
    by exists (Js.template name).
  - by intros ->.
Qed.

(** ** The token handlers *)

Section TokenHandlers.

Variable message : JsError -> string.
Variable t : Transport.
Variable credentials : Credentials.t.
Let rpcEndpoint := Credentials.rpcEndpoint credentials.
Hypothesis on_ethereum : Credentials.network credentials = "ethereum".

Let token := "0x0b38210ea11411557c13457D4dA7dC6ea731B88a".
Let pool := "0x6dd655f10d4b9E242aE186D9050B68F725c76d76".

Lemma removeFirstPoint_none s : all_chars (not_char ".") s = true -> removeFirstPoint s = s.
Proof.
  induction s as [|c s IH]; [done|]. cbn [all_chars removeFirstPoint]. unfold not_char at 1.
  destruct (Ascii.eqb c "."); [done|]. intros H. by rewrite IH.
Qed.

(** A whole number of tokens, printed and read back by the handlers. *)
Lemma amountOfText_whole k :
  0 <= k ->
  amountOfText (BigInt.toString k)
  = Ok (k * 10 ^ Z.of_nat (18 - String.length (BigInt.toString k))).
Proof.
  intros Hk. destruct (toString_digits k Hk) as (Hne & Hdig & Hparse).
  unfold amountOfText. rewrite removeFirstPoint_none by by apply all_digits_no_dot.
  rewrite orDefault_nonempty.
  2:{ unfold Js.padEnd. by destruct (BigInt.toString k). }
  unfold Js.padEnd. apply of_string_decimal.
  - by destruct (BigInt.toString k).
  - by rewrite all_chars_app, Hdig, all_chars_repeat.
  - rewrite parse_digits_app, Hparse. cbv [mbind option_bind].
    rewrite parse_digits_zeros by lia. f_equal; lia.
Qed.

Lemma formatWithDecimals_whole k :
  formatWithDecimals (VBigInt (k * 10 ^ 18)) 18 = Ok (BigInt.toString k).
Proof.
  unfold formatWithDecimals. cbv [BigInt_of mbind result_bind]. unfold pow10.
  change (Z.of_nat 18) with 18. rewrite Z.rem_mul, Z.quot_mul by lia. done.
Qed.

Lemma decode_word v :
  0 <= v < 2 ^ 256 -> decodeUint256 ("0x" +:+ uint256Word v) None = Ok v.
Proof.
  intros Hv.
  destruct (uint256_words_decode [v] 0 v) as [_ H]; [by constructor|done|].
  cbn [fmap list_fmap foldr] in H. rewrite str_app_nil_r in H.
  change (decodeUint256 ?h None) with (decodeUint256 h (Some (Z.of_nat 0))).
  rewrite decodeUint256_at, clean_prefixed by apply startsWith_0x_app.
  change (Js.drop 2 ("0x" +:+ ?s)) with s. exact H.
Qed.

Lemma ethereum_config :
  getNetworkConfig (Credentials.network credentials) = Ok (Entry ethereumConfig).
Proof. by rewrite on_ethereum. Qed.

Lemma run_getTokenBalance tokenAddress accountAddress :
  isValidAddress accountAddress = true ->
  run t (getTokenBalance rpcEndpoint tokenAddress accountAddress)
  = (rpcOutcome
       (t (ethCallRequest rpcEndpoint tokenAddress
             ("0x70a08231" +:+ Js.repeat Js.zero 24
              +:+ Js.toLowerCase (Js.drop 2 accountAddress))))
       ≫= (fun result => decodeUint256 result None),
     [ethCallRequest rpcEndpoint tokenAddress
        ("0x70a08231" +:+ Js.repeat Js.zero 24
         +:+ Js.toLowerCase (Js.drop 2 accountAddress))]).
Proof.
  intros Ha. unfold getTokenBalance.
  rewrite (address_call_data "balanceOf" "0x70a08231") by done.
  change (lift (Ok ?x) ≫= ?f) with (f x). cbv beta.
  by apply (run_call_then_decode t credentials).
Qed.

Lemma getUserBalanceOperation_whole_stake userAddress b k :
  isValidAddress userAddress = true ->
  0 <= b < 2 ^ 256 -> 0 <= k -> k * 10 ^ 18 < 2 ^ 256 ->
  let word := Js.repeat Js.zero 24 +:+ Js.toLowerCase (Js.drop 2 userAddress) in
  let balanceRequest := ethCallRequest rpcEndpoint token ("0x70a08231" +:+ word) in
  let stakeRequest := ethCallRequest rpcEndpoint pool ("0x66666aa9" +:+ word) in
  t balanceRequest = RpcResult ("0x" +:+ uint256Word b) ->
  t stakeRequest = RpcResult ("0x" +:+ uint256Word (k * 10 ^ 18)) ->
  let counted := k * 10 ^ Z.of_nat (18 - String.length (BigInt.toString k)) in
  exists balance totalBalance,
    formatWithDecimals (VBigInt b) 18 = Ok balance
    /\ formatWithDecimals (VBigInt (b + counted)) 18 = Ok totalBalance
    /\ run t (getUserBalanceOperation message credentials userAddress)
       = (Ok (TokenBalance.mk userAddress balance (balance +:+ " API3")
                (BigInt.toString k) totalBalance),
          [balanceRequest; stakeRequest]).
Proof.
  intros Ha Hb Hk Hs word balanceRequest stakeRequest Hbalance Hstake counted.
  destruct (formatWithDecimals_total b 18) as [balance Hfb].
  destruct (formatWithDecimals_total (b + counted) 18) as [totalBalance Hft].
  exists balance, totalBalance. split; [done|]. split; [done|].
  unfold getUserBalanceOperation. rewrite Ha. cbn [negb].
  rewrite run_try_catch, ethereum_config.
  change (lift (Ok (Entry ethereumConfig)) ≫= ?f) with (f (Entry ethereumConfig)). cbv beta.
  cbn [truthy Config.api3TokenAddress Config.stakingPoolAddress Config.governanceAddress
       NetworkConfig.api3TokenAddress NetworkConfig.stakingPoolAddress ethereumConfig].
  fold rpcEndpoint token pool.
  rewrite run_bind, run_getTokenBalance by done. fold word balanceRequest.
  rewrite Hbalance. cbn [rpcOutcome].
  change (Ok ?x ≫= ?f) with (f x). cbv beta. rewrite decode_word by done.
  rewrite run_bind, run_lift, Hfb. cbv iota beta.
  rewrite run_bind, run_try_catch.
  rewrite (address_call_data "userStake" "0x66666aa9") by done.
  change (lift (Ok ?x) ≫= ?f) with (f x). cbv beta.
  fold word.
  rewrite (run_call_then_decode t credentials pool _
             (fun result => decodeUint256 result None
                            ≫= fun stakedRaw => formatWithDecimals (VBigInt stakedRaw) 18)).
  2:{ intros response. by destruct (decodeUint256 response None). }
  fold rpcEndpoint stakeRequest. rewrite Hstake. cbn [rpcOutcome].
  change (Ok ?x ≫= ?f) with (f x). cbv beta. rewrite decode_word by lia.
  change (Ok ?x ≫= ?f) with (f x). cbv beta. rewrite formatWithDecimals_whole.
  rewrite run_bind, run_lift, amountOfText_whole by done. fold counted.
  rewrite run_bind, run_lift, Hft. reflexivity.
Qed.

Lemma counted_less k :
  1 <= k -> k * 10 ^ Z.of_nat (18 - String.length (BigInt.toString k)) < k * 10 ^ 18.
Proof.
  intros Hk. destruct (toString_digits k ltac:(lia)) as (Hne & _ & _).
  apply Z.mul_lt_mono_pos_l; [lia|]. apply Z.pow_lt_mono_r; [lia..|].
  destruct (BigInt.toString k); [done|]. simpl String.length. lia.
Qed.

Lemma getAPI3SupplyOperation_whole_stake total k :
  0 <= total < 2 ^ 256 -> 0 <= k -> k * 10 ^ 18 < 2 ^ 256 ->
  let supplyRequest := ethCallRequest rpcEndpoint token "0x18160ddd" in
  let stakedRequest :=
    ethCallRequest rpcEndpoint token
      ("0x70a08231" +:+ Js.repeat Js.zero 24 +:+ Js.toLowerCase (Js.drop 2 pool)) in
  t supplyRequest = RpcResult ("0x" +:+ uint256Word total) ->
  t stakedRequest = RpcResult ("0x" +:+ uint256Word (k * 10 ^ 18)) ->
  let counted := k * 10 ^ Z.of_nat (18 - String.length (BigInt.toString k)) in
  exists totalSupply circulatingSupply,
    formatWithDecimals (VBigInt total) 18 = Ok totalSupply
    /\ formatWithDecimals (VBigInt (Z.max (total - counted) 0)) 18 = Ok circulatingSupply
    /\ run t (getAPI3SupplyOperation message credentials)
       = (Ok (TokenSupply.mk totalSupply circulatingSupply (BigInt.toString k) "0" "0"),
          [supplyRequest; stakedRequest]).
Proof.
  intros Ht Hk Hs supplyRequest stakedRequest Hsupply Hstaked counted.
  destruct (formatWithDecimals_total total 18) as [totalSupply Hf1].
  destruct (formatWithDecimals_total (Z.max (total - counted) 0) 18)
    as [circulatingSupply Hf2].
  exists totalSupply, circulatingSupply. split; [done|]. split; [done|].
  unfold getAPI3SupplyOperation.
  rewrite run_try_catch, ethereum_config.
  change (lift (Ok (Entry ethereumConfig)) ≫= ?f) with (f (Entry ethereumConfig)). cbv beta.
  cbn [truthy Config.api3TokenAddress Config.stakingPoolAddress Config.governanceAddress
       NetworkConfig.api3TokenAddress NetworkConfig.stakingPoolAddress ethereumConfig].
  fold rpcEndpoint token pool.
  rewrite run_bind.
  pose proof (getTotalSupply_passes t rpcEndpoint token) as (_ & _ & Hreq).
  unfold getTotalSupply.
  change (encodeFunctionCall "totalSupply" [] []) with (Ok (A := string) "0x18160ddd").
  change (lift (Ok ?x) ≫= ?f) with (f x). cbv beta.
  rewrite (run_call_then_decode t credentials token _ (fun result => decodeUint256 result None))
    by done.
  fold rpcEndpoint supplyRequest. rewrite Hsupply. cbn [rpcOutcome].
  change (Ok ?x ≫= ?f) with (f x). cbv beta. rewrite decode_word by done.
  rewrite run_bind, run_lift, Hf1. cbv iota beta.
  rewrite run_bind, run_try_catch, run_bind, run_getTokenBalance by done.
  fold stakedRequest. rewrite Hstaked. cbn [rpcOutcome].
  change (Ok ?x ≫= ?f) with (f x). cbv beta. rewrite decode_word by lia.
  rewrite run_lift, formatWithDecimals_whole. cbv iota beta.
  rewrite run_bind, run_lift, amountOfText_whole by done. fold counted.
  assert ((if 0 <? total - counted then total - counted else 0)
          = Z.max (total - counted) 0) as -> by (destruct (Z.ltb_spec 0 (total - counted)); lia).
  rewrite run_bind, run_lift, Hf2. reflexivity.
Qed.

End TokenHandlers.



(** X25.  [getAPI3SupplyOperation] reads the staked supply back from its
    formatted text in the same way.  On Ethereum, for a total supply
    [total] and a staking pool that holds a whole number [k] of tokens,
    at least one and no more than the total, the staked supply is
    printed as [k] and the circulating supply is that of
    [total - k * 10^(18 - digits of k)] wei, more than the
    [total - k * 10^18] that is not staked. *)
Theorem circulating_supply_miscounts_stake (message : JsError -> string) (t : Transport)
    (credentials : Credentials.t) (total k : Z) :
  Credentials.network credentials = "ethereum" ->
  0 <= total < 2 ^ 256 -> 1 <= k -> k * 10 ^ 18 <= total ->
  let rpcEndpoint := Credentials.rpcEndpoint credentials in
  let token := "0x0b38210ea11411557c13457D4dA7dC6ea731B88a" in
  let supplyRequest := ethCallRequest rpcEndpoint token "0x18160ddd" in
  let stakedRequest :=
    ethCallRequest rpcEndpoint token
      "0x70a082310000000000000000000000006dd655f10d4b9e242ae186d9050b68f725c76d76" in
  t supplyRequest = RpcResult ("0x" +:+ uint256Word total) ->
  t stakedRequest = RpcResult ("0x" +:+ uint256Word (k * 10 ^ 18)) ->
  let counted := k * 10 ^ Z.of_nat (18 - String.length (BigInt.toString k)) in
  exists totalSupply circulatingSupply,
    run t (getAPI3SupplyOperation message credentials)
    = (Ok (TokenSupply.mk totalSupply circulatingSupply (BigInt.toString k) "0" "0"),
       [supplyRequest; stakedRequest])
    /\ parseWithDecimals totalSupply 18 = Ok total
    /\ parseWithDecimals circulatingSupply 18 = Ok (total - counted)
    /\ total - k * 10 ^ 18 < total - counted.
Proof.
  intros Hnet Ht Hk Hle rpcEndpoint token supplyRequest stakedRequest Hsupply Hstaked counted.
  destruct (getAPI3SupplyOperation_whole_stake message t credentials Hnet total k)
    as (totalSupply & circulatingSupply & Hf1 & Hf2 & Hrun); [done|lia|lia|done|done|].
  exists totalSupply, circulatingSupply. split; [exact Hrun|].
  pose proof (counted_less k Hk) as Hless. fold counted in Hless, Hf2.
  rewrite Z.max_l in Hf2 by lia.
  destruct (format_then_parse total 18 (proj1 Ht)) as (s1 & Hs1 & Hp1).
  destruct (format_then_parse (total - counted) 18 ltac:(lia)) as (s2 & Hs2 & Hp2).
  split; [congruence|]. split; [congruence|lia].
Qed.

Lemma circulating_supply_miscounts_stake_witness :
  exists totalSupply circulatingSupply,
    outcome twoTokens (getAPI3SupplyOperation (fun _ => "") mainnet)
    = Ok (TokenSupply.mk totalSupply circulatingSupply "2" "0" "0")
    /\ parseWithDecimals totalSupply 18 = Ok 2000000000000000000
    /\ parseWithDecimals circulatingSupply 18 = Ok 1800000000000000000.
Proof.
  pose proof (circulating_supply_miscounts_stake (fun _ => "") twoTokens mainnet
                2000000000000000000 2) as H.
  cbv zeta in H.
  specialize (H eq_refl ltac:(lia) ltac:(lia) ltac:(lia)).
  specialize (H ltac:(vm_compute; reflexivity) ltac:(vm_compute; reflexivity)).
  destruct H as (totalSupply & circulatingSupply & Hrun & Ht & Hc & _).
  exists totalSupply, circulatingSupply. split; [|split; [exact Ht | exact Hc]].
  unfold outcome. by rewrite Hrun.
Defined.

(** ** Block number and chain id *)

Section ParseInt.

Implicit Types (w rest : string).

(** Text that does not go on with a hex digit. *)
Let ends_digits (rest : string) : Prop :=
  match rest with
  | "" => True
  | String c _ => is_hex_char c = false
  end.

Lemma hex_prefix_app w rest :
  all_chars is_hex_char w = true -> ends_digits rest -> hex_prefix (w +:+ rest) = w.
Proof.
  intros Hw Hrest. induction w as [|c w IH].
  - destruct rest as [|c r]; [done|]. simpl in *. by rewrite Hrest.
  - simpl in *. apply andb_prop in Hw as [-> Hw]. by rewrite IH.
Qed.

Lemma parseInt16_0x rest :
  parseInt16 ("0x" +:+ rest)
  = match hex_prefix rest with
    | "" => NaN
    | digits =>
        match BigInt.parse_digits 16 0 digits with
        | Some v =>
            if BigInt.toNumber v <? 2 ^ 1024 then Finite (1 * BigInt.toNumber v)
            else Infinity (1 <? 0)
        | None => NaN
        end
    end.
Proof.
  unfold parseInt16.
  change ("0x" +:+ rest) with (String "0" (String "x" rest)).
  cbn [Js.trimStart]. change (Js.is_space "0") with false. cbv iota.
  rewrite !startsWith_cons.
  repeat match goal with
         | |- context [ascii_dec ?a ?b] => destruct (ascii_dec a b); try done
         end.
  cbn [orb]. cbv iota. rewrite !startsWith_cons.
  repeat match goal with
         | |- context [ascii_dec ?a ?b] => destruct (ascii_dec a b); try done
         end.
  assert (Js.startsWith rest "" = true) as -> by by destruct rest.
  reflexivity.
Qed.

Lemma parseInt16_digits w rest v :
  w <> "" -> all_chars is_hex_char w = true -> ends_digits rest ->
  BigInt.parse_digits 16 0 w = Some v ->
  parseInt16 ("0x" +:+ w +:+ rest)
  = if BigInt.toNumber v <? 2 ^ 1024 then Finite (BigInt.toNumber v) else Infinity false.
Proof.
  intros Hne Hw Hrest Hv.
  change ("0x" +:+ w +:+ rest) with ("0x" +:+ (w +:+ rest)).
  rewrite parseInt16_0x, hex_prefix_app by done.
  destruct w as [|c w]; [done|]. rewrite Hv.
  destruct (_ <? _); [|done]. f_equal. by destruct (BigInt.toNumber v).
Qed.

Lemma parseInt16_no_digits rest : ends_digits rest -> parseInt16 ("0x" +:+ rest) = NaN.
Proof.
  intros Hrest. rewrite parseInt16_0x.
  change rest with ("" +:+ rest) at 1. by rewrite hex_prefix_app.
Qed.

(** The double nearest to an integer of 2^1024 or more is none. *)
Lemma toNumber_overflow v : 2 ^ 1024 <= v -> 2 ^ 1024 <= BigInt.toNumber v.
Proof.
  intros Hv. assert (0 < 2 ^ 1024) as Hpos by (apply Z.pow_pos_nonneg; lia).
  assert (1024 <= Z.log2 v) as Hlog by (apply Z.log2_le_pow2; lia).
  destruct (Z.log2_spec v ltac:(lia)) as [Hlow _].
  unfold BigInt.toNumber. rewrite Z.abs_eq by lia.
  destruct (Z.leb_spec (Z.log2 v - 52) 0) as [|He]; [lia|].
  set (e := Z.log2 v - 52) in *. cbv zeta.
  assert (0 < 2 ^ e) as Hpe by (apply Z.pow_pos_nonneg; lia).
  assert (2 ^ 52 <= v / 2 ^ e) as Hq.
  { apply Z.div_le_lower_bound; [done|].
    rewrite <- Z.pow_add_r by lia. by replace (e + 52) with (Z.log2 v) by lia. }
  rewrite Z.sgn_pos, Z.mul_1_l by lia.
  assert (v / 2 ^ e
          <= (if (2 ^ (e - 1) <? v mod 2 ^ e)
                 || (v mod 2 ^ e =? 2 ^ (e - 1)) && Z.odd (v / 2 ^ e)
              then v / 2 ^ e + 1 else v / 2 ^ e)) as Hup by (destruct (_ || _); lia).
  assert (2 ^ 1024 <= 2 ^ 52 * 2 ^ e) as Hbig.
  { rewrite <- Z.pow_add_r by lia. apply Z.pow_le_mono_r; lia. }
  nia.
Qed.

Lemma run_rpc_number (t : Transport) rpcEndpoint method :
  run t (result ← makeRpcCall rpcEndpoint method NoParams; Ret (parseInt16 result))
  = (rpcOutcome (t {| url := rpcEndpoint; method := method; params := NoParams |})
       ≫= (fun result => Ok (parseInt16 result)),
     [{| url := rpcEndpoint; method := method; params := NoParams |}]).
Proof.
  rewrite run_bind. unfold makeRpcCall. cbn [run].
  by destruct (t _).
Qed.

End ParseInt.

(** X26.  [getBlockNumber] and [getChainId] issue one request each,
    [eth_blockNumber] and [eth_chainId] with no parameters, and fail only
    when the call does.  A result of [0x] and hex digits is read,
    whatever follows the digits, as the double nearest to the integer
    [v] that the digits write: [v] itself below 2^53, a number for every
    [v] below 2^256, and Infinity, no number, from 2^1024 on.  A result
    with no digit after the [0x] gives NaN and no failure, where
    [decodeUint256] throws. *)
Theorem block_number_and_chain_id (t : Transport) (rpcEndpoint w rest : string) (v : Z) :
  let blockRequest := {| url := rpcEndpoint; method := "eth_blockNumber"; params := NoParams |} in
  let chainRequest := {| url := rpcEndpoint; method := "eth_chainId"; params := NoParams |} in
  run t (getBlockNumber rpcEndpoint)
  = (rpcOutcome (t blockRequest) ≫= (fun result => Ok (parseInt16 result)), [blockRequest])
  /\ run t (getChainId rpcEndpoint)
     = (rpcOutcome (t chainRequest) ≫= (fun result => Ok (parseInt16 result)), [chainRequest])
  /\ (w <> "" -> all_chars is_hex_char w = true ->
      match rest with "" => True | String c _ => is_hex_char c = false end ->
      BigInt.parse_digits 16 0 w = Some v ->
      parseInt16 ("0x" +:+ w +:+ rest)
      = (if BigInt.toNumber v <? 2 ^ 1024 then Finite (BigInt.toNumber v)
         else Infinity false)
      /\ 0 <= v
      /\ (v < 2 ^ 53 -> parseInt16 ("0x" +:+ w +:+ rest) = Finite v)
      /\ (v < 2 ^ 256 -> parseInt16 ("0x" +:+ w +:+ rest) = Finite (BigInt.toNumber v))
      /\ (2 ^ 1024 <= v -> parseInt16 ("0x" +:+ w +:+ rest) = Infinity false))
  /\ parseInt16 "0x" = NaN
  /\ decodeUint256 "0x" None = Throw SyntaxError.
Proof.
  intros blockRequest chainRequest.
  split; [apply run_rpc_number|]. split; [apply run_rpc_number|].
  split; [|by split].
  intros Hne Hw Hrest Hv. rewrite (parseInt16_digits w rest v) by done.
  split; [done|].
  apply parse_digits_bound in Hv as [Hv _]; [|lia..].
  assert (0 < 2 ^ 1024) as Hpos by (apply Z.pow_pos_nonneg; lia).
  assert (2 ^ 256 < 2 ^ 1024) as H256 by (apply Z.pow_lt_mono_r; lia).
  assert (2 ^ 53 < 2 ^ 256) as H53 by (apply Z.pow_lt_mono_r; lia).
  split; [lia|]. split; [|split].
  - intros Hlt. rewrite toNumber_small by lia.
    destruct (Z.ltb_spec v (2 ^ 1024)); [done|lia].
  - intros Hlt. pose proof (toNumber_range v ltac:(lia)).
    destruct (Z.ltb_spec (BigInt.toNumber v) (2 ^ 1024)); [done|lia].
  - intros Hbig. pose proof (toNumber_overflow v Hbig).
    destruct (Z.ltb_spec (BigInt.toNumber v) (2 ^ 1024)); [lia|done].
Qed.

Lemma block_number_and_chain_id_witness :
  parseInt16 "0x12a05f200" = Finite 5000000000 /\ parseInt16 "0x89 " = Finite 137.
Proof.
  destruct (block_number_and_chain_id unreachable "" "12a05f200" "" 5000000000)
    as (_ & _ & H1 & _).
  destruct (block_number_and_chain_id unreachable "" "89" " " 137) as (_ & _ & H2 & _).
  split.
  - destruct H1 as (_ & _ & H1 & _); [done|reflexivity|done|reflexivity|].
    apply H1. lia.
  - destruct H2 as (_ & _ & H2 & _); [done|reflexivity|reflexivity|reflexivity|].
    apply H2. lia.
Defined.

(** ** The status mappers *)

Section Mappers.

Lemma lower_char_idempotent c : Js.lower_char (Js.lower_char c) = Js.lower_char c.
Proof. by_character c. Qed.

Lemma toLowerCase_idempotent s : Js.toLowerCase (Js.toLowerCase s) = Js.toLowerCase s.
Proof. induction s as [|c s IH]; simpl; [done|]. by rewrite lower_char_idempotent, IH. Qed.

End Mappers.

Ltac by_membership := repeat first [apply list_elem_of_here | apply list_elem_of_further].

(** X27.  Each of the four status mappers ignores letter case, returns
    one of its own fixed names whatever it is given, and maps each of
    these names to itself, so that mapping twice is mapping once. *)
Theorem status_mappers (s : string) :
  let mappers :=
    [ (mapProposalStatus,
       ["pending"; "active"; "succeeded"; "defeated"; "executed"; "cancelled"]);
      (mapCoverageStatus, ["active"; "expired"; "claimed"]);
      (mapSubscriptionTier, ["pro"; "enterprise"; "basic"]);
      (mapSubscriptionStatus, ["active"; "cancelled"; "expired"]) ] in
  Forall (fun '(mapper, names) =>
            mapper (Js.toLowerCase s) = mapper s
            /\ mapper s ∈ names
            /\ Forall (fun name => mapper name = name) names
            /\ mapper (mapper s) = mapper s)
    mappers.
Proof.
  intros mappers. unfold mappers.
  repeat apply Forall_cons_2; try (by apply Forall_nil); cbv beta iota.
  - assert (mapProposalStatus s
            ∈ ["pending"; "active"; "succeeded"; "defeated"; "executed"; "cancelled"]) as Hin.
    { unfold mapProposalStatus. cbv zeta.
      repeat (destruct (String.eqb _ _); cbn [orb]; [by_membership|]). by_membership. }
    split; [unfold mapProposalStatus; by rewrite toLowerCase_idempotent|].
    split; [exact Hin|]. split; [by repeat constructor|].
    repeat (apply elem_of_cons in Hin as [->|Hin]; [done|]). by apply elem_of_nil in Hin.
  - assert (mapCoverageStatus s ∈ ["active"; "expired"; "claimed"]) as Hin.
    { unfold mapCoverageStatus. cbv zeta.
      repeat (destruct (String.eqb _ _); [by_membership|]). by_membership. }
    split; [unfold mapCoverageStatus; by rewrite toLowerCase_idempotent|].
    split; [exact Hin|]. split; [by repeat constructor|].
    repeat (apply elem_of_cons in Hin as [->|Hin]; [done|]). by apply elem_of_nil in Hin.
  - assert (mapSubscriptionTier s ∈ ["pro"; "enterprise"; "basic"]) as Hin.
    { unfold mapSubscriptionTier. cbv zeta.
      repeat (destruct (String.eqb _ _); [by_membership|]). by_membership. }
    split; [unfold mapSubscriptionTier; by rewrite toLowerCase_idempotent|].
    split; [exact Hin|]. split; [by repeat constructor|].
    repeat (apply elem_of_cons in Hin as [->|Hin]; [done|]). by apply elem_of_nil in Hin.
  - assert (mapSubscriptionStatus s ∈ ["active"; "cancelled"; "expired"]) as Hin.
    { unfold mapSubscriptionStatus. cbv zeta.
      repeat (destruct (String.eqb _ _); cbn [orb]; [by_membership|]). by_membership. }
    split; [unfold mapSubscriptionStatus; by rewrite toLowerCase_idempotent|].
    split; [exact Hin|]. split; [by repeat constructor|].
    repeat (apply elem_of_cons in Hin as [->|Hin]; [done|]). by apply elem_of_nil in Hin.
Qed.

(** ** The treasury *)

Section TreasuryRead.

Variable message : JsError -> string.
Variable t : Transport.
Variable credentials : Credentials.t.
Let rpcEndpoint := Credentials.rpcEndpoint credentials.
Hypothesis on_ethereum : Credentials.network credentials = "ethereum".

Lemma governance_call_data :
  encodeFunctionCall "balanceOf" ["address"]
    [VString "0x1d7573de8b3cF1c5B0e16be54a0E20a78B8e5e6e4"]
  = Ok ("0x70a08231" +:+ "00000000000000000000000"
        +:+ "1d7573de8b3cf1c5b0e16be54a0e20a78b8e5e6e4").
Proof. vm_compute. reflexivity. Qed.

Lemma run_treasuryRead :
  let request :=
    ethCallRequest rpcEndpoint "0x0b38210ea11411557c13457D4dA7dC6ea731B88a"
      ("0x70a08231" +:+ "00000000000000000000000"
       +:+ "1d7573de8b3cf1c5b0e16be54a0e20a78b8e5e6e4") in
  run t (getTreasuryOperation (treasuryRead message credentials) credentials)
  = (Ok (let api3Balance :=
           match rpcOutcome (t request)
                   ≫= (fun result =>
                         decodeUint256 result None
                         ≫= fun raw => formatWithDecimals (VBigInt raw) 18) with
           | Ok text => text
           | Throw _ => "0"
           end in
         Treasury.mk api3Balance api3Balance "0" "0" "0" []),
     [request]).
Proof.
  intros request. unfold getTreasuryOperation, supportsDAO. rewrite on_ethereum.
  change (negb ("ethereum" =? "ethereum")%string) with false. cbv iota.
  unfold treasuryRead. rewrite run_try_catch, (ethereum_config credentials on_ethereum).
  change (lift (Ok (Entry ethereumConfig)) ≫= ?f) with (f (Entry ethereumConfig)). cbv beta.
  cbn [truthy Config.api3TokenAddress Config.stakingPoolAddress Config.governanceAddress
       NetworkConfig.api3TokenAddress NetworkConfig.governanceAddress ethereumConfig].
  rewrite run_bind, run_try_catch, governance_call_data.
  change (lift (Ok ?x) ≫= ?f) with (f x). cbv beta.
  rewrite (run_call_then_decode t credentials _ _
             (fun result => decodeUint256 result None
                            ≫= fun raw => formatWithDecimals (VBigInt raw) 18)).
  2:{ intros response. by destruct (decodeUint256 response None). }
  fold rpcEndpoint request.
  destruct (rpcOutcome (t request)) as [result|e]; [|done].
  change (Ok result ≫= ?f) with (f result). cbv beta.
  destruct (decodeUint256 result None) as [raw|e]; [|done].
  change (Ok raw ≫= ?f) with (f raw). cbv beta.
  by destruct (formatWithDecimals (VBigInt raw) 18).
Qed.

End TreasuryRead.

(** X28.  On Ethereum [getTreasuryOperation] never fails.  It issues one
    [balanceOf(address)] call to the token, for the governance address of
    the registry, and answers with the balance read, or with ["0"] when
    the call, the decoding or the formatting fails.  The governance
    address of the registry has 41 hex digits, so [isValidAddress]
    rejects it and its word has 23 zeros in front, not 24. *)
Theorem treasury_read (message : JsError -> string) (t : Transport)
    (credentials : Credentials.t) :
  Credentials.network credentials = "ethereum" ->
  let request :=
    ethCallRequest (Credentials.rpcEndpoint credentials)
      "0x0b38210ea11411557c13457D4dA7dC6ea731B88a"
      ("0x70a08231" +:+ "00000000000000000000000"
       +:+ "1d7573de8b3cf1c5b0e16be54a0e20a78b8e5e6e4") in
  run t (getTreasuryOperation (treasuryRead message credentials) credentials)
  = (Ok (let api3Balance :=
           match rpcOutcome (t request)
                   ≫= (fun result =>
                         decodeUint256 result None
                         ≫= fun raw => formatWithDecimals (VBigInt raw) 18) with
           | Ok text => text
           | Throw _ => "0"
           end in
         Treasury.mk api3Balance api3Balance "0" "0" "0" []),
     [request])
  /\ NetworkConfig.governanceAddress ethereumConfig
     = Some "0x1d7573de8b3cF1c5B0e16be54a0E20a78B8e5e6e4"
  /\ isValidAddress "0x1d7573de8b3cF1c5B0e16be54a0E20a78B8e5e6e4" = false.
Proof.
  intros Hnet request. split; [by apply run_treasuryRead|]. by split.
Qed.

Lemma treasury_read_witness :
  outcome twoTokens (getTreasuryOperation (treasuryRead (fun _ => "") mainnet) mainnet)
  = Ok (Treasury.mk "2" "2" "0" "0" "0" [])
  /\ outcome unreachable (getTreasuryOperation (treasuryRead (fun _ => "") mainnet) mainnet)
     = Ok (Treasury.mk "0" "0" "0" "0" "0" []).
Proof.
  split.
  - pose proof (treasury_read (fun _ => "") twoTokens mainnet eq_refl) as [H _].
    unfold outcome. by rewrite H.
  - pose proof (treasury_read (fun _ => "") unreachable mainnet eq_refl) as [H _].
    unfold outcome. by rewrite H.
Defined.

(** ** Flattening *)

Section Flatten.

Implicit Types (obj value : Json) (prefix key k : string) (result m : gmap string Json)
  (fields : list (string * Json)).

Lemma Json_nested_ind (P : Json -> Prop) :
  P JNull -> (forall b, P (JBool b)) -> (forall n, P (JNumber n)) ->
  (forall s, P (JString s)) ->
  (forall items, Forall P items -> P (JArray items)) ->
  (forall fields, Forall (fun kv => P kv.2) fields -> P (JObject fields)) ->
  forall value, P value.
Proof.
  intros Hnull Hbool Hnum Hstr Harr Hobj. fix IH 1.
  intros [|b|n|s|items|fields]; [done..| |].
  - apply Harr. revert items. fix IHitems 1.
    intros [|item items]; constructor; [apply IH | apply IHitems].
  - apply Hobj. revert fields. fix IHfields 1.
    intros [|[key value] fields]; constructor; [apply IH | apply IHfields].
Qed.

(** The turn of the loop for one field. *)
Let step prefix result (kv : string * Json) : gmap string Json :=
  let '(key, value) := kv in
  let newKey := if String.eqb prefix "" then key else prefix +:+ "." +:+ key in
  match value with
  | JObject _ => flattenObject value newKey ∪ result
  | _ => if String.eqb newKey "__proto__" then result else <[newKey := value]> result
  end.

Lemma flattenObject_fields fields prefix :
  flattenObject (JObject fields) prefix = foldl (step prefix) ∅ fields.
Proof. reflexivity. Qed.

(** The turn for a value that is no object. *)
Lemma step_leaf prefix result key value :
  is_object value = false ->
  let newKey := if String.eqb prefix "" then key else prefix +:+ "." +:+ key in
  step prefix result (key, value)
  = if String.eqb newKey "__proto__" then result else <[newKey := value]> result.
Proof. by destruct value. Qed.

Let leaves m : Prop := forall k value, m !! k = Some value -> is_object value = false.

Lemma step_leaves prefix result key value :
  (forall p, leaves (flattenObject value p)) -> leaves result ->
  leaves (step prefix result (key, value)).
Proof.
  intros IH Hres k v.
  destruct (is_object value) eqn:Hvalue.
  - destruct value; try done. unfold step.
    intros [H|[_ H]]%lookup_union_Some_raw; [by eapply IH | by eapply Hres].
  - rewrite step_leaf by done. cbv zeta. destruct (String.eqb _ "__proto__").
    + apply Hres.
    + intros [[_ <-]|[_ H]]%lookup_insert_Some; [done | by eapply Hres].
Qed.

Lemma flattenObject_leaves obj : forall prefix, leaves (flattenObject obj prefix).
Proof.
  induction obj as [| | | | |fields IH] using Json_nested_ind; try (by intros p k v).
  intros prefix. rewrite flattenObject_fields.
  assert (leaves (∅ : gmap string Json)) as Hres by (by intros k v).
  revert Hres. generalize (∅ : gmap string Json).
  induction IH as [|[key value] fields Hvalue _ IHfields]; intros result Hres; [done|].
  cbn [foldl]. apply IHfields. by apply step_leaves.
Qed.

(** The result has no property [__proto__] of its own. *)
Lemma step_no_proto prefix result key value :
  (forall p, flattenObject value p !! "__proto__" = None) ->
  result !! "__proto__" = None ->
  step prefix result (key, value) !! "__proto__" = None.
Proof.
  intros IH Hres.
  destruct (is_object value) eqn:Hvalue.
  - destruct value; try done. unfold step. by apply lookup_union_None_2.
  - rewrite step_leaf by done. cbv zeta.
    destruct (String.eqb_spec (if String.eqb prefix "" then key else prefix +:+ "." +:+ key)
                "__proto__") as [|Hne]; [done|].
    by rewrite lookup_insert_ne.
Qed.

Lemma flattenObject_no_proto obj : forall prefix, flattenObject obj prefix !! "__proto__" = None.
Proof.
  induction obj as [| | | | |fields IH] using Json_nested_ind; try (by intros p).
  intros prefix. rewrite flattenObject_fields.
  assert ((∅ : gmap string Json) !! "__proto__" = None) as Hres by done.
  revert Hres. generalize (∅ : gmap string Json).
  induction IH as [|[key value] fields Hvalue _ IHfields]; intros result Hres; [done|].
  cbn [foldl]. apply IHfields. by apply step_no_proto.
Qed.

Lemma startsWith_app p s : Js.startsWith (p +:+ s) p = true.
Proof.
  induction p as [|c p IH]; [by destruct s|].
  change (String c p +:+ s) with (String c (p +:+ s)). rewrite startsWith_cons.
  by destruct (ascii_dec c c).
Qed.

Let prefixed prefix m : Prop :=
  forall k value, m !! k = Some value -> Js.startsWith k (prefix +:+ ".") = true.

Lemma joined_nonempty prefix key : prefix <> "" -> prefix +:+ "." +:+ key <> "".
Proof. by destruct prefix. Qed.

Lemma step_prefixed prefix result key value :
  prefix <> "" ->
  (forall p, p <> "" -> prefixed p (flattenObject value p)) -> prefixed prefix result ->
  prefixed prefix (step prefix result (key, value)).
Proof.
  intros Hne IH Hres k v.
  assert (Js.startsWith (prefix +:+ "." +:+ key) (prefix +:+ ".") = true) as Hkey.
  { rewrite <- str_app_assoc. apply startsWith_app. }
  destruct (is_object value) eqn:Hvalue.
  - destruct value; try done. unfold step.
    destruct (String.eqb_spec prefix "") as [?|_]; [done|].
    intros [H|[_ H]]%lookup_union_Some_raw; [|by eapply Hres].
    apply IH in H; [|by apply joined_nonempty].
    apply startsWith_inv in H as [rest ->].
    rewrite <- (str_app_assoc prefix), !str_app_assoc, <- (str_app_assoc prefix).
    apply startsWith_app.
  - rewrite step_leaf by done. cbv zeta.
    destruct (String.eqb_spec prefix "") as [?|_]; [done|].
    destruct (String.eqb _ "__proto__"); [apply Hres|].
    intros [[<- _]|[_ H]]%lookup_insert_Some; [done | by eapply Hres].
Qed.

Lemma flattenObject_prefixed obj :
  forall prefix, prefix <> "" -> prefixed prefix (flattenObject obj prefix).
Proof.
  induction obj as [| | | | |fields IH] using Json_nested_ind; try (by intros p _ k v).
  intros prefix Hne. rewrite flattenObject_fields.
  assert (prefixed prefix (∅ : gmap string Json)) as Hres by (by intros k v).
  revert Hres. generalize (∅ : gmap string Json).
  induction IH as [|[key value] fields Hvalue _ IHfields]; intros result Hres; [done|].
  cbn [foldl]. apply IHfields. by apply step_prefixed.
Qed.

Lemma flattenObject_flat fields :
  Forall (fun kv => is_object kv.2 = false) fields -> NoDup fields.*1 ->
  flattenObject (JObject fields) "" = delete "__proto__" (list_to_map fields).
Proof.
  intros Hflat Hnodup. rewrite flattenObject_fields.
  rewrite <- (right_id_L ∅ (∪) (delete "__proto__" (list_to_map fields))).
  generalize (∅ : gmap string Json).
  induction Hflat as [|[key value] fields Hvalue _ IH]; intros result.
  - cbn [foldl list_to_map foldr]. by rewrite delete_empty, (left_id_L ∅ (∪)).
  - apply NoDup_cons in Hnodup as [Hkey Hnodup].
    cbn [foldl]. rewrite IH by done. cbn [list_to_map foldr uncurry fst snd].
    rewrite step_leaf by done. cbv zeta. cbn [String.eqb].
    destruct (String.eqb_spec key "__proto__") as [->|Hne].
    + by rewrite delete_insert_eq.
    + rewrite delete_insert_ne by done.
      rewrite <- insert_union_r.
      2:{ apply lookup_delete_None. right. by apply not_elem_of_list_to_map_1. }
      by rewrite insert_union_l.
Qed.

End Flatten.



(** ** Feed names and their ids *)

Section FeedNames.

Implicit Types (a b rest : string) (c : ascii).

Lemma utf8_hex_head_char c rest :
  utf8_hex_head (Js.utf8_hex_char c +:+ rest) = Some (c, rest).
Proof. by_character c. Qed.

Lemma utf8_hex_char_two c : exists x y tail, Js.utf8_hex_char c = String x (String y tail).
Proof.
  unfold Js.utf8_hex_char, Js.hex_byte. destruct (_ <? _)%nat; by eexists _, _, _.
Qed.

Lemma utf8_hex_head_zeros (n : nat) :
  utf8_hex_head (Js.repeat Js.zero (S (S n))) = Some (NUL, Js.repeat Js.zero n).
Proof. reflexivity. Qed.

Lemma utf8_hex_padded_injective a : forall b (na nb : nat),
  all_chars (not_char NUL) a = true -> all_chars (not_char NUL) b = true ->
  Js.utf8_hex a +:+ Js.repeat Js.zero na = Js.utf8_hex b +:+ Js.repeat Js.zero nb ->
  a = b.
Proof.
  assert (forall c b' (n : nat),
            not_char NUL c = true ->
            Js.repeat Js.zero n <> Js.utf8_hex_char c +:+ b') as Hzeros.
  { intros c b' n Hc He. apply (f_equal utf8_hex_head) in He.
    rewrite utf8_hex_head_char in He.
    destruct n as [|[|n]].
    - done.
    - done.
    - rewrite utf8_hex_head_zeros in He. injection He as <- _. done. }
  induction a as [|ca a IH]; intros [|cb b] na nb Ha Hb He.
  - done.
  - cbn [Js.utf8_hex all_chars] in *. apply andb_prop in Hb as [Hcb _].
    rewrite str_app_assoc in He. by apply Hzeros in He.
  - cbn [Js.utf8_hex all_chars] in *. apply andb_prop in Ha as [Hca _].
    rewrite str_app_assoc in He. symmetry in He. by apply Hzeros in He.
  - cbn [Js.utf8_hex all_chars] in *.
    apply andb_prop in Ha as [_ Ha]. apply andb_prop in Hb as [_ Hb].
    rewrite !str_app_assoc in He. apply (f_equal utf8_hex_head) in He.
    rewrite !utf8_hex_head_char in He. injection He as -> He.
    f_equal. by eapply IH.
Qed.

End FeedNames.

(** X30.  Among the feed names of the embedding, the strings of code
    units below 256, two names without the code unit 0 that are given the
    same bytes32 by [dapiNameToBytes32] are the same name, and two such
    names that are read by the same call data are the same name.  The
    zero padding is what a trailing code unit 0 is lost in: a name of
    fewer than 32 bytes and the name followed by it share their bytes32.
    (Names with code units from 256 on are outside the statement:
    [Buffer.from] writes every unpaired surrogate as the same three
    bytes.) *)
Theorem dapiNameToBytes32_injective (a b : string) :
  all_chars (not_char NUL) a = true -> all_chars (not_char NUL) b = true ->
  (dapiNameToBytes32 a = dapiNameToBytes32 b -> a = b)
  /\ (encodeFunctionCall "readDataFeedWithDapiName" ["bytes32"]
        [VString (dapiNameToBytes32 a)]
      = encodeFunctionCall "readDataFeedWithDapiName" ["bytes32"]
          [VString (dapiNameToBytes32 b)] -> a = b)
  /\ ((String.length (Js.utf8_hex a) + 2 <= 64)%nat ->
      dapiNameToBytes32 (a +:+ String NUL "") = dapiNameToBytes32 a).
Proof.
  intros Ha Hb.
  assert (Js.padEnd (Js.utf8_hex a) 64 Js.zero = Js.padEnd (Js.utf8_hex b) 64 Js.zero
          -> a = b) as Hpad.
  { unfold Js.padEnd. by apply utf8_hex_padded_injective. }
  split; [|split].
  - unfold dapiNameToBytes32. intros He. apply Hpad.
    apply (f_equal (Js.drop 2)) in He. exact He.
  - rewrite !dapi_call_data. intros [= He]. by apply Hpad.
  - intros Hlen. unfold dapiNameToBytes32. f_equal.
    assert (Js.utf8_hex (a +:+ String NUL "") = Js.utf8_hex a +:+ "00") as ->.
    { clear. induction a as [|c a IH]; [done|]. cbn [String.append Js.utf8_hex].
      by rewrite IH, str_app_assoc. }
    unfold Js.padEnd. rewrite str_app_assoc, str_length_app. f_equal.
    change (String.length "00") with 2%nat.
    replace (64 - String.length (Js.utf8_hex a))%nat
      with (S (S (64 - (String.length (Js.utf8_hex a) + 2))))%nat by lia.
    reflexivity.
Qed.

Lemma dapiNameToBytes32_injective_witness :
  dapiNameToBytes32 "ETH/USD" <> dapiNameToBytes32 "ETH/USDT"
  /\ dapiNameToBytes32 (String "E" (String NUL "")) = dapiNameToBytes32 "E".
Proof.
  destruct (dapiNameToBytes32_injective "ETH/USD" "ETH/USDT") as (H & _ & _);
    [reflexivity | reflexivity |].
  destruct (dapiNameToBytes32_injective "E" "E") as (_ & _ & H');
    [reflexivity | reflexivity |].
  split; [intros He; by apply H in He | apply H'; simpl; lia].
Defined.
